(** * Ceremony-date detection (analyze_school): a shallow embedding

    The two scripts [school_celemony_prediction.py] (policy A,
    threshold first) and [school_celemony_prediction_2.py] (policy B,
    maximum ratio first) share every function except [detect_start_date].
    Data frames are embedded as lists of rows in frame order; columns
    that a function does not read are left out of its row type.

    Conventions of the embedding:
    - a [pd.Timestamp] is an integer (a day number); [pd.NaT] is a
      separate constructor;
    - [departures] comes from [groupby(...).size()] and is a natural
      number;
    - a float64 cell is [NaN], an infinity, or a finite rational.  The
      only inexact operation of the pipeline is the division that
      produces the ratio column: its rounding is the parameter [round]
      of the development.  Medians of integer counts (integers or
      half-integers) are exact in binary64 for counts below 2^52;
    - index labels of the frames are unique (they come from
      [reset_index]), so [df.loc[idx, col]] is the cell of the row at
      which [idx] was found. *)

From Stdlib Require Import QArith.
From Stdlib Require Import Ascii OrderedTypeEx.
From stdpp Require Import base list sorting strings gmap.

Local Open Scope Z_scope.
Local Open Scope nat_scope.

(** ** float64 cells *)

Inductive float64 : Type :=
| NaN
| NInf
| PInf
| Fin (q : Q).

Definition notna (x : float64) : bool :=
  match x with NaN => false | _ => true end.

(** [x >= y] on float64: false as soon as one side is NaN. *)
Definition fge (x y : float64) : bool :=
  match x, y with
  | NaN, _ | _, NaN => false
  | PInf, _ => true
  | _, NInf => true
  | NInf, _ => false
  | Fin _, PInf => false
  | Fin a, Fin b => Qle_bool b a
  end.

(** [x > y] on float64. *)
Definition fgt (x y : float64) : bool :=
  match x, y with
  | NaN, _ | _, NaN => false
  | _, PInf => false
  | NInf, _ => false
  | PInf, _ => true
  | Fin _, NInf => true
  | Fin a, Fin b => negb (Qle_bool a b)
  end.

Definition of_int (z : Z) : float64 := Fin (inject_Z z).
Definition of_count (n : nat) : float64 := of_int (Z.of_nat n).

(** ** Rows and results *)

Definition date := Z.

(** One row of the [daily] frame. *)
Record DailyCount : Type := mkDaily {
  data_date : date;
  station : string;
  departures : nat
}.

(** A row of the working frame of [detect_start_date], after the columns
    [baseline] and [ratio] were added. *)
Record BaselinePoint : Type := mkPoint {
  obs : DailyCount;
  baseline : float64;
  ratio : float64
}.

(** What [detect_start_date] gives back: a timestamp, [pd.NaT], or an
    exception ([IndexError] of [.iloc[0]] on an empty selection,
    [ValueError] of [idxmax] on an empty column). *)
Inductive timestamp : Type :=
| Timestamp (d : date)
| NaT
| Raise.

(** ** Sorting by date: [df.sort_values("data_date")]

    A stable insertion sort on the date column.  All the frames that reach
    [detect_start_date] have pairwise distinct dates, for which every
    sorting algorithm gives this same result. *)

Fixpoint insert_by {A : Type} (key : A → date) (r : A) (l : list A) : list A :=
  match l with
  | [] => [r]
  | r' :: l' =>
      if (key r <=? key r')%Z then r :: l
      else r' :: insert_by key r l'
  end.

Definition sort_values {A : Type} (key : A → date) (df : list A) : list A :=
  foldr (insert_by key) [] df.

(** ** Rolling median: [rolling(window, min_periods).median()] *)

(** Median of the observations held in the window: the middle value of
    the sorted window, or the mean of the two middle values when their
    number is even; NaN for an empty window. *)
Definition median (w : list nat) : float64 :=
  let s := merge_sort le w in
  let n := length s in
  if n =? 0 then NaN
  else if Nat.odd n then of_count (nth (n / 2) s 0)
  else Fin ((inject_Z (Z.of_nat (nth (n / 2) s 0))
             + inject_Z (Z.of_nat (nth (n / 2 - 1) s 0))) / 2).

(** The window after the observation [x] entered it: the oldest
    observation leaves once more than [window] are held. *)
Definition push_window (window : nat) (buf : list nat) (x : nat) : list nat :=
  let b := buf ++ [x] in
  if window <? length b then tail b else b.

Fixpoint rolling_median_from (window min_periods : nat) (buf : list nat)
    (xs : list nat) : list float64 :=
  match xs with
  | [] => []
  | x :: xs' =>
      let buf' := push_window window buf x in
      (if length buf' <? min_periods then NaN else median buf')
        :: rolling_median_from window min_periods buf' xs'
  end.

Definition rolling_median (window min_periods : nat) (xs : list nat) : list float64 :=
  rolling_median_from window min_periods [] xs.

(** *** The baseline as the specification words it

    [baseline[i] = median(count[i-window+1 .. i])], defined only when
    [window] observations end at [i]. *)
Definition trailing_window (window i : nat) (xs : list nat) : list nat :=
  take window (drop (i + 1 - window) xs).

Definition spec_baseline (window i : nat) (xs : list nat) : float64 :=
  if i + 1 <? window then NaN else median (trailing_window window i xs).

Section Detection.

(** Rounding of an exact quotient to binary64. *)
Variable round : Q → Q.

(** ** The ratio column: [df["departures"] / df["baseline"]]

    An int64 column divided by a float64 column: NaN propagates, a zero
    divisor gives NaN for a zero count and +inf for a positive one. *)
Definition fdiv_count (c : nat) (b : float64) : float64 :=
  match b with
  | NaN => NaN
  | NInf | PInf => Fin 0
  | Fin q =>
      if Qeq_bool q 0 then (if c =? 0 then NaN else PInf)
      else Fin (round (inject_Z (Z.of_nat c) / q))
  end.

(** The frame with its two added columns. *)
Definition with_baseline_ratio (window : nat) (df : list DailyCount)
    : list BaselinePoint :=
  zip_with (λ r b, mkPoint r b (fdiv_count (departures r) b))
    df (rolling_median window window (departures <$> df)).

(** ** Selections *)

(** [s.iloc[0]] on a selection of the date column. *)
Definition iloc0 (s : list date) : timestamp :=
  match s with
  | [] => Raise
  | d :: _ => Timestamp d
  end.

(** [s.idxmax()]: the row of the first maximum, NaN cells skipped. *)
Fixpoint idxmax_from (best : BaselinePoint) (l : list BaselinePoint) : BaselinePoint :=
  match l with
  | [] => best
  | p :: l' =>
      if notna (ratio p) && (negb (notna (ratio best)) || fgt (ratio p) (ratio best))
      then idxmax_from p l'
      else idxmax_from best l'
  end.

Definition idxmax (l : list BaselinePoint) : option BaselinePoint :=
  match l with
  | [] => None
  | p :: l' => Some (idxmax_from p l')
  end.

(** [_fallback_date]: the first row holding the maximum of [departures]. *)
Definition max_departures (df : list DailyCount) : nat :=
  foldr Nat.max 0 (departures <$> df).

Definition _fallback_date (df : list DailyCount) : timestamp :=
  let max_dep := max_departures df in
  iloc0 (data_date <$> List.filter (λ r, departures r =? max_dep) df).

(** ** Policy A: [detect_start_date] of school_celemony_prediction.py *)

Definition mask_spike (multiplier : float64) (min_count : Z) (p : BaselinePoint) : bool :=
  fge (baseline p) (of_int min_count) && fge (ratio p) multiplier.

(** [df.loc[idx, "data_date"]] for the label given by [idxmax]. *)
Definition loc_data_date (idx : option BaselinePoint) : timestamp :=
  match idx with
  | Some p => Timestamp (data_date (obs p))
  | None => Raise
  end.

Definition detect_start_date (df : list DailyCount) (window : nat)
    (multiplier : float64) (min_count : Z) (guarantee : bool) : timestamp :=
  let sorted := sort_values data_date df in
  let df := with_baseline_ratio window sorted in
  (* 1) strict spike *)
  if existsb (mask_spike multiplier min_count) df
  then iloc0 ((λ p, data_date (obs p))
                <$> List.filter (mask_spike multiplier min_count) df)
  else if negb guarantee then NaT
  else
    let after_baseline := List.filter (λ p, notna (baseline p)) df in
    if negb (bool_decide (after_baseline = []))
       && existsb (λ p, notna (ratio p)) after_baseline
    then loc_data_date (idxmax after_baseline)
    else _fallback_date sorted.

(** ** Policy B: [detect_start_date] of school_celemony_prediction_2.py *)

Definition detect_start_date_2 (df : list DailyCount) (window : nat)
    (multiplier : float64) (min_count : Z) (guarantee : bool) : timestamp :=
  let sorted := sort_values data_date df in
  let df := with_baseline_ratio window sorted in
  let after_baseline := List.filter (λ p, notna (baseline p)) df in
  if negb (bool_decide (after_baseline = []))
     && existsb (λ p, notna (ratio p)) after_baseline
  then loc_data_date (idxmax after_baseline)
  else if guarantee then _fallback_date sorted
  else NaT.

End Detection.

(** ** Daily aggregation: [aggregate_daily_counts]

    [rides.groupby(["data_date", "depature_station"]).size()]: rows with a
    missing key are dropped, the groups come out sorted on the key pair,
    and [size] counts the rows of each group. *)

Record Ride : Type := mkRide {
  ride_date : option date;
  depature_station : option string
}.

Definition ride_key (r : Ride) : option (date * string) :=
  d ← ride_date r; s ← depature_station r; Some (d, s).

(** Order of the station names: code point order, which is the byte
    order of their UTF-8 encoding. *)
Definition station_le (s1 s2 : string) : Prop := String.leb s1 s2 = true.

(** Order of the group keys: by date, then by station. *)
Definition key_le (k1 k2 : date * string) : Prop :=
  (k1.1 < k2.1)%Z ∨ (k1.1 = k2.1 ∧ station_le k1.2 k2.2).

#[global] Instance station_le_dec : RelDecision station_le.
Proof. intros s1 s2. unfold station_le. apply _. Defined.

#[global] Instance key_le_dec : RelDecision key_le.
Proof. intros k1 k2. unfold key_le. apply _. Defined.

(** Number of rows of a group. *)
Definition group_size {K : Type} `{EqDecision K} (k : K) (keys : list K) : nat :=
  length (filter (λ k', k' = k) keys).

Definition aggregate_daily_counts (rides : list Ride) : list DailyCount :=
  let keys := omap ride_key rides in
  (λ k, mkDaily k.1 k.2 (group_size k keys))
    <$> merge_sort key_le (remove_dups keys).

(** ** Per-station prediction: [predict_ceremony_dates] *)

Record Prediction : Type := mkPrediction {
  pred_station : string;
  pred_ceremony_date : option date   (* [None] is [pd.NaT] *)
}.

(** A cell of the prediction column, or the exception that left
    [detect_start_date]. *)
Definition as_cell (t : timestamp) : option (option date) :=
  match t with
  | Timestamp d => Some (Some d)
  | NaT => Some None
  | Raise => None
  end.

(** [subset.groupby("station")]: the station names in sorted order, each
    with its rows in frame order. *)
Definition station_groups (subset : list DailyCount)
    : list (string * list DailyCount) :=
  (λ s, (s, List.filter (λ r, bool_decide (station r = s)) subset))
    <$> merge_sort station_le (remove_dups (station <$> subset)).

Section Pipeline.

Variable round : Q → Q.

(** [detect] is the [detect_start_date] of the script that runs.  The
    station column of [schools] is given without its missing cells, which
    [isin] matches with no station of [daily].  [None] is an exception
    that leaves the list comprehension.  The rows are those of
    [pd.DataFrame(recs)]; for an empty [recs] pandas builds a frame
    without columns, on which the column lookups of the functions below
    raise [KeyError]: their embeddings take frames that have the columns
    [station] and [pred_ceremony_date]. *)
Definition predict_ceremony_dates_with
    (detect : list DailyCount → nat → float64 → Z → bool → timestamp)
    (daily : list DailyCount) (schools : list string)
    (window : nat) (multiplier : float64) (min_count : Z) (guarantee : bool)
    : option (list Prediction) :=
  let target := remove_dups schools in
  let subset := List.filter (λ r, bool_decide (station r ∈ target)) daily in
  mapM (λ sg : string * list DailyCount,
          mkPrediction sg.1
            <$> as_cell (detect sg.2 window multiplier min_count guarantee))
       (station_groups subset).

Definition predict_ceremony_dates :=
  predict_ceremony_dates_with (detect_start_date round).

Definition predict_ceremony_dates_2 :=
  predict_ceremony_dates_with (detect_start_date_2 round).

End Pipeline.

(** ** Consensus: [choose_overall_date] *)

(** [s.value_counts()]: the distinct values that are not NaT with their
    number of occurrences, the most frequent first. *)
Definition count_ge (a b : date * nat) : Prop := b.2 ≤ a.2.

#[global] Instance count_ge_dec : RelDecision count_ge.
Proof. intros a b. unfold count_ge. apply _. Defined.

Definition value_counts (col : list (option date)) : list (date * nat) :=
  let vals := omap id col in
  merge_sort count_ge ((λ d, (d, group_size d vals)) <$> remove_dups vals).

(** Python's [min] on a sequence that is not empty. *)
Definition min_of (d : date) (l : list date) : date := foldr Z.min d l.

(** What a call of [choose_overall_date] ends in: the [KeyError] of the
    lookup [preds["pred_ceremony_date"]], or the value returned. *)
Inductive overall_result : Type :=
| RaisedKeyError
| Overall (overall : option date).

(** The frame [preds] is the list of the records that
    [pd.DataFrame(recs)] was built from.  Built from no record it has no
    columns, and the lookup of the column raises [KeyError]; with at
    least one record the column is there. *)
Definition choose_overall_date (preds : list Prediction) : overall_result :=
  match preds with
  | [] => RaisedKeyError
  | _ :: _ =>
      Overall
        (let cnts := value_counts (pred_ceremony_date <$> preds) in
         match cnts with
         | [] => None
         | (_, top) :: _ =>
             match fst <$> List.filter (λ c, snd c =? top) cnts with
             | [] => None
             | d :: ds => Some (min_of d ds)
             end
         end)
  end.

(** ** The grouped summary: [save_date_summary] *)

(** [sep.join(l)] *)
Fixpoint join (sep : string) (l : list string) : string :=
  match l with
  | [] => EmptyString
  | [s] => s
  | s :: l' => String.append s (String.append sep (join sep l'))
  end.

(** [s.split(sep)] for a separator that is not empty: a scan from the
    left over occurrences of [sep] that do not overlap.  [skip] counts
    the characters of a found separator that are still to pass, [cur] is
    the piece being read. *)
Fixpoint split_from (sep : string) (skip : nat) (cur : string) (s : string)
    : list string :=
  match s with
  | EmptyString => [cur]
  | String c s' =>
      match skip with
      | S k => split_from sep k cur s'
      | O =>
          if String.prefix sep s
          then cur :: split_from sep (String.length sep - 1) EmptyString s'
          else split_from sep 0 (String.append cur (String c EmptyString)) s'
      end
  end.

Definition split (sep : string) (s : string) : list string :=
  split_from sep 0 EmptyString s.

Definition comma_space : string := ", "%string.

Record SummaryRow : Type := mkSummary {
  summary_date : date;
  stations : string;
  count : nat
}.

(** The rows written to the CSV file.  [groupby("pred_ceremony_date")]
    drops the NaT rows and sorts the groups by date. *)
Definition save_date_summary (preds : list Prediction) : list SummaryRow :=
  let grouped :=
    (λ d, (d, join comma_space
                (pred_station
                   <$> List.filter
                         (λ p, bool_decide (pred_ceremony_date p = Some d))
                         preds)))
      <$> merge_sort Z.le (remove_dups (omap pred_ceremony_date preds)) in
  let with_count :=
    (λ g : date * string, mkSummary g.1 g.2 (length (split comma_space g.2)))
      <$> grouped in
  sort_values summary_date with_count.

(** ** Vocabulary of the statements *)

Definition ascending {A : Type} (key : A → date) : relation A :=
  λ a b, (key a < key b)%Z.

Definition weakly_ascending {A : Type} (key : A → date) : relation A :=
  λ a b, (key a ≤ key b)%Z.

(** A station series: its rows are in strictly ascending date order. *)
Definition date_sorted (df : list DailyCount) : Prop :=
  Sorted (ascending data_date) df.

#[global] Instance date_sorted_dec df : Decision (date_sorted df).
Proof. unfold date_sorted, ascending. apply _. Defined.

(** The series of one station that has the given counts on the days
    0, 1, 2, ... *)
Definition series (s : string) (counts : list nat) : list DailyCount :=
  imap (λ i c, mkDaily (Z.of_nat i) s c) counts.

(** The first row, in date order, that passes the threshold test. *)
Definition is_first_spike (multiplier : float64) (min_count : Z)
    (pts : list BaselinePoint) (p : BaselinePoint) : Prop :=
  p ∈ pts
  ∧ fge (baseline p) (of_int min_count) = true
  ∧ fge (ratio p) multiplier = true
  ∧ ∀ q, q ∈ pts → mask_spike multiplier min_count q = true →
      (data_date (obs p) ≤ data_date (obs q))%Z.

(** A row whose ratio is defined and maximal among the defined ratios,
    the earliest one in date order among those that reach the maximum. *)
Definition is_max_ratio_point (pts : list BaselinePoint) (p : BaselinePoint) : Prop :=
  p ∈ pts
  ∧ notna (ratio p) = true
  ∧ ∀ q, q ∈ pts → notna (ratio q) = true →
      fge (ratio p) (ratio q) = true
      ∧ (fge (ratio q) (ratio p) = true →
         (data_date (obs p) ≤ data_date (obs q))%Z).

(** A row of maximal raw count, the earliest one in date order among
    those that reach the maximum. *)
Definition is_max_count_row (df : list DailyCount) (r : DailyCount) : Prop :=
  r ∈ df
  ∧ ∀ r', r' ∈ df →
      departures r' ≤ departures r
      ∧ (departures r' = departures r → (data_date r ≤ data_date r')%Z).

(** Number of predictions that give the date [d]. *)
Definition frequency (d : date) (preds : list Prediction) : nat :=
  length (filter (λ p, pred_ceremony_date p = Some d) preds).

(** [sep in s] *)
Fixpoint has_substring (sep s : string) : bool :=
  String.prefix sep s
  || match s with
     | EmptyString => false
     | String _ s' => has_substring sep s'
     end.

(** ** Vocabulary of the further properties *)

(** The key pair of a row of the daily frame. *)
Definition row_key (r : DailyCount) : date * string := (data_date r, station r).

(** Number of trip rows recorded for the date and the station of a key. *)
Definition trips_with_key (k : date * string) (rides : list Ride) : nat :=
  length (filter (λ x, ride_key x = Some k) rides).

(** The station names of the predictions that give the date [d], in
    frame order. *)
Definition stations_on (d : date) (preds : list Prediction) : list string :=
  pred_station
    <$> List.filter (λ p, bool_decide (pred_ceremony_date p = Some d)) preds.

(** The date [d] is the consensus of the predictions: it occurs, no date
    occurs more often, and no date that occurs as often is earlier. *)
Definition is_consensus (d : date) (preds : list Prediction) : Prop :=
  0 < frequency d preds
  ∧ ∀ d', frequency d' preds ≤ frequency d preds
          ∧ (frequency d' preds = frequency d preds → (d ≤ d')%Z).

(** ** Reading a CSV file: [read_csv_with_fallback]

    [pd.read_csv] is the parameter [read_csv]: called with an encoding
    it gives the parsed frame, raises [UnicodeDecodeError], or raises
    another exception, which [read_csv_with_fallback] does not catch. *)

Definition FALLBACK_ENCODINGS : list string :=
  ["utf-8"; "utf-8-sig"; "cp932"; "shift_jis"; "latin1"]%string.

Inductive read_attempt (A : Type) : Type :=
| Parsed (df : A)
| DecodeFails
| OtherFailure (e : string).
Arguments Parsed {A} df.
Arguments DecodeFails {A}.
Arguments OtherFailure {A} e.

Inductive read_result (A : Type) : Type :=
| Returned (df : A)
| RaisedUnicodeDecodeError (tried : list string)
| RaisedOther (e : string).
Arguments Returned {A} df.
Arguments RaisedUnicodeDecodeError {A} tried.
Arguments RaisedOther {A} e.

(** The list [encodings] before the loop: the encoding of the caller, if
    it is given and not the empty string, then the fallbacks that are not
    in the list yet. *)
Definition encodings_to_try (encoding : option string) : list string :=
  let encodings :=
    match encoding with
    | Some e => if bool_decide (e = EmptyString) then [] else [e]
    | None => []
    end in
  encodings
    ++ List.filter (λ e, negb (bool_decide (e ∈ encodings))) FALLBACK_ENCODINGS.

(** The loop over [encodings]; [tried] collects the encodings that could
    not decode the file. *)
Fixpoint try_encodings {A : Type} (read_csv : string → read_attempt A)
    (encodings tried : list string) : read_result A :=
  match encodings with
  | [] => RaisedUnicodeDecodeError tried
  | enc :: rest =>
      match read_csv enc with
      | Parsed df => Returned df
      | DecodeFails =>
          try_encodings read_csv rest
            (tried ++ [if bool_decide (enc = EmptyString)
                       then "(default)"%string else enc])
      | OtherFailure e => RaisedOther e
      end
  end.

Definition read_csv_with_fallback {A : Type} (read_csv : string → read_attempt A)
    (encoding : option string) : read_result A :=
  try_encodings read_csv (encodings_to_try encoding) [].

(** ** Cleaning the station names: [load_data]

    [s.str.strip().str.replace("　", "", regex=False)] on a name given by
    its code points; a missing name stays missing.  [isspace] tells the
    characters that [str.strip] removes. *)

Definition IDEOGRAPHIC_SPACE : N := 12288.

Fixpoint lstrip (isspace : N → bool) (s : list N) : list N :=
  match s with
  | [] => []
  | c :: s' => if isspace c then lstrip isspace s' else s
  end.

Definition rstrip (isspace : N → bool) (s : list N) : list N :=
  reverse (lstrip isspace (reverse s)).

Definition strip (isspace : N → bool) (s : list N) : list N :=
  rstrip isspace (lstrip isspace s).

Definition clean_station_name (isspace : N → bool) (s : list N) : list N :=
  List.filter (λ c, negb (c =? IDEOGRAPHIC_SPACE)%N) (strip isspace s).

Definition clean_station_column (isspace : N → bool)
    (col : list (option (list N))) : list (option (list N)) :=
  (λ name : option (list N), clean_station_name isspace <$> name) <$> col.

(** The white space of Python 3 strings ([str.isspace]). *)
Definition py_isspace (c : N) : bool :=
  ((9 <=? c) && (c <=? 13) || (28 <=? c) && (c <=? 32)
   || (c =? 133) || (c =? 160) || (c =? 5760)
   || (8192 <=? c) && (c <=? 8202)
   || (c =? 8232) || (c =? 8233) || (c =? 8239) || (c =? 8287)
   || (c =? 12288))%N.

(** ** The calendar filter of the second script

    Day 0 is Thursday 1 January 1970; [weekday] is Monday = 0, ...,
    Sunday = 6 as [Timestamp.weekday].  The holiday calendar
    [jpholiday.is_holiday] is the parameter [is_holiday]. *)

Definition weekday (dt : date) : Z := ((dt + 3) mod 7)%Z.

Definition is_weekday_and_not_holiday (is_holiday : date → bool) (dt : date) : bool :=
  (weekday dt <? 5)%Z && negb (is_holiday dt).

(** ** The two [main] functions, run without the plotting options

    The arguments are the frames that [load_data] returns.  A frame
    built by [pd.DataFrame(recs)] from no record has no columns, and
    [choose_overall_date], the first to read it, raises [KeyError].  (In
    the second script the calendar mask of a daily frame without rows is
    not boolean, the selection by it leaves a frame without columns, and
    the [KeyError] comes from [predict_ceremony_dates] already.) *)

Inductive run_result : Type :=
| DetectionRaised
| KeyError
| Finished (preds : list Prediction) (overall : option date)
    (summary : list SummaryRow).

Definition report_predictions (preds : option (list Prediction)) : run_result :=
  match preds with
  | None => DetectionRaised
  | Some preds =>
      match choose_overall_date preds with
      | RaisedKeyError => KeyError
      | Overall overall => Finished preds overall (save_date_summary preds)
      end
  end.

Definition main (round : Q → Q) (rides : list Ride) (schools : list string)
    (window : nat) (multiplier : float64) (min_count : Z) (guarantee : bool)
    : run_result :=
  let daily := aggregate_daily_counts rides in
  report_predictions
    (predict_ceremony_dates round daily schools window multiplier min_count guarantee).

Definition main_2 (round : Q → Q) (is_holiday : date → bool)
    (rides : list Ride) (schools : list string)
    (window : nat) (multiplier : float64) (min_count : Z) (guarantee : bool)
    (exclude_weekend_holiday : bool) : run_result :=
  let daily := aggregate_daily_counts rides in
  let daily :=
    if exclude_weekend_holiday
    then List.filter (λ r, is_weekday_and_not_holiday is_holiday (data_date r)) daily
    else daily in
  report_predictions
    (predict_ceremony_dates_2 round daily schools window multiplier min_count guarantee).

(** ** The bars of [save_bar_chart] in the second script

    [counts] is [value_counts().sort_index()]; [all_counts] starts at 0
    on every date of [all_dates] and [update] overwrites the dates that
    [counts] has. *)
Definition bar_heights_2 (preds : list Prediction) (all_dates : list date)
    : list (date * nat) :=
  let counts := sort_values fst (value_counts (pred_ceremony_date <$> preds)) in
  (λ d, (d, default 0 (snd <$> List.find (λ c : date * nat, (c.1 =? d)%Z) counts)))
    <$> all_dates.

(** [pd.date_range(date_min, date_max, freq="D")] *)
Definition date_range (date_min date_max : date) : list date :=
  seqZ date_min (date_max - date_min + 1).

(** ** Column names of the station table: [normalise_station_df]
    (find_schools_within_radius.py)

    A frame is the list of its columns, each a label with its data; the
    type [C] of the data is left open. *)

Definition COL_MAP : list (string * list string) :=
  [("station", ["station"; "name"; "駅名"; "駅"; "st"]);
   ("lat", ["lat"; "latitude"; "緯度"; "lat_deg"; "Lat"; "Latitude"]);
   ("lon", ["lon"; "lng"; "longitude"; "経度"; "Lon"; "Lng"; "Longitude"])]%string.

Definition REQUIRED_COLUMNS : list string := ["station"; "lat"; "lon"]%string.

(** The alias that the inner loop picks for [canonical], if any. *)
Definition alias_to_rename (columns : list string) (canonical : string)
    (candidates : list string) : option string :=
  List.find (λ c, bool_decide (c ∈ columns) && negb (bool_decide (canonical ∈ columns)))
    candidates.

(** The dictionary [new_names] after the two loops. *)
Definition new_names (columns : list string) : gmap string string :=
  foldl (λ names (entry : string * list string),
           match alias_to_rename columns entry.1 entry.2 with
           | Some c => <[c := entry.1]> names
           | None => names
           end)
    ∅ COL_MAP.

(** [df.rename(columns=names)] *)
Definition rename_columns {C : Type} (names : gmap string string)
    (df : list (string * C)) : list (string * C) :=
  (λ col, (default col.1 (names !! col.1), col.2)) <$> df.

(** [df[labels]]: for each label in turn, the columns that carry it. *)
Definition select_columns {C : Type} (labels : list string)
    (df : list (string * C)) : list (string * C) :=
  labels ≫= (λ l, List.filter (λ col : string * C, bool_decide (col.1 = l)) df).

(** [inl missing] is the [SystemExit] that names the columns not found. *)
Definition normalise_station_df {C : Type} (df : list (string * C))
    : list string + list (string * C) :=
  let df := rename_columns (new_names df.*1) df in
  let missing :=
    List.filter (λ c, negb (bool_decide (c ∈ df.*1))) REQUIRED_COLUMNS in
  match missing with
  | [] => inr (select_columns REQUIRED_COLUMNS df)
  | _ => inl missing
  end.

(** The names that [COL_MAP] accepts for [canonical], in their order of
    preference. *)
Definition candidates_of (canonical : string) : list string :=
  default [] (snd <$> List.find (λ e : string * list string,
                                   bool_decide (e.1 = canonical)) COL_MAP).

(** The name under which the table gives the column [canonical]: the
    first of the accepted names that is a column of the table. *)
Definition accepted_name (columns : list string) (canonical : string)
    : option string :=
  List.find (λ c, bool_decide (c ∈ columns)) (candidates_of canonical).

(** * Properties *)

(** ** The order of float64 cells *)

Lemma fge_notna x y : fge x y = true → notna x = true ∧ notna y = true.
Proof. destruct x, y; simpl; intros; split; congruence. Qed.

Lemma fgt_notna x y : fgt x y = true → notna x = true ∧ notna y = true.
Proof. destruct x, y; simpl; intros; split; congruence. Qed.

Lemma fge_refl x : notna x = true → fge x x = true.
Proof.
  destruct x; simpl; try done. intros _. apply Qle_bool_iff, Qle_refl.
Qed.

Lemma fge_trans x y z : fge x y = true → fge y z = true → fge x z = true.
Proof.
  destruct x, y, z; simpl; try done.
  rewrite !Qle_bool_iff. intros H1 H2. by apply Qle_trans with q0.
Qed.

Lemma fgt_fge x y : fgt x y = true → fge x y = true.
Proof.
  destruct x, y; simpl; try done.
  rewrite negb_true_iff, Qle_bool_iff. intros H.
  apply Qlt_le_weak, Qnot_le_lt. intros H'.
  apply Qle_bool_iff in H'. congruence.
Qed.

(** Among cells that are not NaN, the order is total. *)
Lemma fgt_or_fge x y :
  notna x = true → notna y = true → fgt x y = true ∨ fge y x = true.
Proof.
  destruct x, y; simpl; try done; auto.
  intros _ _. destruct (Qle_bool q q0); auto.
Qed.

Lemma fgt_not_fge x y : fgt x y = true → fge y x = false.
Proof.
  destruct x, y; simpl; try done.
  by rewrite negb_true_iff.
Qed.

Lemma fgt_fge_trans x y z : fgt x y = true → fge y z = true → fgt x z = true.
Proof.
  destruct x, y, z; simpl; try done.
  rewrite !negb_true_iff, Qle_bool_iff. intros H1 H2.
  destruct (Qle_bool q q1) eqn:E; [|done].
  apply Qle_bool_iff in E.
  assert (Qle_bool q q0 = true) as H by (apply Qle_bool_iff; by apply Qle_trans with q1).
  congruence.
Qed.

(** ** Sorting by date *)

#[global] Instance ascending_trans {A} (key : A → date) : Transitive (ascending key).
Proof. unfold ascending. intros a b c; lia. Qed.

Lemma sort_values_sorted {A} (key : A → date) (df : list A) :
  Sorted (ascending key) df → sort_values key df = df.
Proof.
  induction 1 as [|r l Hl IH Hhd]; [done|].
  unfold sort_values in *. simpl. rewrite IH.
  destruct Hhd as [|r' l' Hr]; [done|]. simpl.
  unfold ascending in Hr.
  destruct (Z.leb_spec (key r) (key r')); [done|lia].
Qed.

Lemma insert_by_Permutation {A} (key : A → date) r (l : list A) :
  insert_by key r l ≡ₚ r :: l.
Proof.
  induction l as [|r' l IH]; simpl; [done|].
  case_match; [done|]. rewrite IH. apply Permutation_swap.
Qed.

Lemma sort_values_Permutation {A} (key : A → date) (df : list A) :
  sort_values key df ≡ₚ df.
Proof.
  induction df as [|r l IH]; [done|].
  unfold sort_values in *. simpl. by rewrite insert_by_Permutation, IH.
Qed.

Lemma insert_by_Sorted {A} (key : A → date) r (l : list A) :
  Sorted (weakly_ascending key) l → Sorted (weakly_ascending key) (insert_by key r l).
Proof.
  induction 1 as [|r' l Hl IH Hhd]; simpl.
  - by repeat constructor.
  - destruct (Z.leb_spec (key r) (key r')).
    + constructor; [by constructor|]. by constructor.
    + constructor; [done|].
      destruct Hhd as [|r'' l' Hr]; simpl.
      * constructor. unfold weakly_ascending. lia.
      * destruct (Z.leb_spec (key r) (key r'')); constructor;
          unfold weakly_ascending in *; lia.
Qed.

Lemma sort_values_Sorted {A} (key : A → date) (df : list A) :
  Sorted (weakly_ascending key) (sort_values key df).
Proof.
  induction df as [|r l IH]; [constructor|].
  unfold sort_values in *. simpl. by apply insert_by_Sorted.
Qed.

(** ** The rolling median *)

Lemma length_rolling_median_from w mp buf xs :
  length (rolling_median_from w mp buf xs) = length xs.
Proof.
  revert buf. induction xs as [|x xs IH]; intros buf; simpl; [done|].
  by rewrite IH.
Qed.

Lemma length_rolling_median w mp xs : length (rolling_median w mp xs) = length xs.
Proof. apply length_rolling_median_from. Qed.

Lemma tail_drop {A} n (l : list A) : tail (drop n l) = drop (S n) l.
Proof.
  revert n. induction l as [|a l IH]; intros [|n]; simpl; try done.
Qed.

(** The window holds the last [window] observations read so far. *)
Lemma push_window_drop w (pre : list nat) x :
  push_window w (drop (length pre - w) pre) x
  = drop (length (pre ++ [x]) - w) (pre ++ [x]).
Proof.
  unfold push_window. rewrite !length_app, length_drop. simpl.
  rewrite <- (drop_app_le pre [x]) by lia.
  destruct (Nat.ltb_spec w (length pre - (length pre - w) + 1)) as [H|H].
  - rewrite tail_drop. f_equal. lia.
  - f_equal. lia.
Qed.

Lemma rolling_median_from_lookup w mp (pre xs : list nat) i :
  i < length xs →
  rolling_median_from w mp (drop (length pre - w) pre) xs !! i
  = Some (let b := drop (length pre + i + 1 - w) (take (length pre + i + 1) (pre ++ xs)) in
          if length b <? mp then NaN else median b).
Proof.
  revert pre i. induction xs as [|x xs IH]; intros pre i Hi; simpl in *; [lia|].
  rewrite push_window_drop.
  destruct i as [|i]; simpl.
  - f_equal. rewrite Nat.add_0_r.
    replace (length (pre ++ [x])) with (length pre + 1) by (rewrite length_app; simpl; lia).
    replace (take (length pre + 1) (pre ++ x :: xs)) with (pre ++ [x]); [done|].
    rewrite take_app_ge by lia.
    replace (length pre + 1 - length pre) with 1 by lia. done.
  - rewrite IH by lia. f_equal.
    rewrite length_app. simpl.
    replace (length pre + 1 + i + 1) with (length pre + S i + 1) by lia.
    by rewrite <- app_assoc.
Qed.

Lemma rolling_median_lookup w (xs : list nat) i :
  i < length xs →
  rolling_median w w xs !! i = Some (spec_baseline w i xs).
Proof.
  intros Hi. unfold rolling_median.
  pose proof (rolling_median_from_lookup w w [] xs i Hi) as H.
  simpl in H. rewrite H. f_equal.
  unfold spec_baseline, trailing_window.
  rewrite length_drop, length_take.
  destruct (Nat.ltb_spec (i + 1) w) as [H1|H1].
  - destruct (Nat.ltb_spec ((i + 1) `min` length xs - (i + 1 - w)) w); [done|lia].
  - destruct (Nat.ltb_spec ((i + 1) `min` length xs - (i + 1 - w)) w); [lia|].
    rewrite take_drop_commute. do 3 f_equal. lia.
Qed.

Lemma length_merge_sort {A} (R : relation A) `{∀ x y, Decision (R x y)} (l : list A) :
  length (merge_sort R l) = length l.
Proof. apply Permutation_length, merge_sort_Permutation. Qed.

Lemma median_notna (w : list nat) : w ≠ [] → notna (median w) = true.
Proof.
  intros Hw. unfold median. rewrite length_merge_sort.
  destruct w as [|x w]; [done|]. simpl.
  by destruct (Nat.odd (S (length w))).
Qed.

Lemma median_not_inf (w : list nat) : median w ≠ PInf ∧ median w ≠ NInf.
Proof. unfold median. repeat case_match; done. Qed.

Lemma spec_baseline_not_inf w i xs :
  spec_baseline w i xs ≠ PInf ∧ spec_baseline w i xs ≠ NInf.
Proof. unfold spec_baseline. case_match; [done|apply median_not_inf]. Qed.

Lemma length_trailing_window w i (xs : list nat) :
  i < length xs → w ≤ i + 1 → length (trailing_window w i xs) = w.
Proof.
  intros. unfold trailing_window. rewrite length_take, length_drop. lia.
Qed.

Lemma last_trailing_window w i (xs : list nat) :
  i < length xs → 0 < w → w ≤ i + 1 → last (trailing_window w i xs) = xs !! i.
Proof.
  intros Hi Hw Hwi. rewrite last_lookup, length_trailing_window by done.
  unfold trailing_window. rewrite lookup_take_lt by lia.
  rewrite lookup_drop. f_equal. lia.
Qed.

(** ** The frame of [detect_start_date] *)

Section Frame.

Variable round : Q → Q.

Lemma length_with_baseline_ratio w df :
  length (with_baseline_ratio round w df) = length df.
Proof.
  unfold with_baseline_ratio.
  rewrite length_zip_with, length_rolling_median, length_fmap. lia.
Qed.

Lemma with_baseline_ratio_lookup w df i r :
  df !! i = Some r →
  with_baseline_ratio round w df !! i
  = Some (let b := spec_baseline w i (departures <$> df) in
          mkPoint r b (fdiv_count round (departures r) b)).
Proof.
  intros Hr. unfold with_baseline_ratio.
  rewrite lookup_zip_with, Hr. simpl.
  rewrite rolling_median_lookup; [done|].
  rewrite length_fmap. by eapply lookup_lt_Some.
Qed.

Lemma with_baseline_ratio_lookup_inv w df i p :
  with_baseline_ratio round w df !! i = Some p →
  df !! i = Some (obs p)
  ∧ baseline p = spec_baseline w i (departures <$> df)
  ∧ ratio p = fdiv_count round (departures (obs p)) (baseline p).
Proof.
  intros Hp.
  assert (i < length df) as Hi.
  { rewrite <- (length_with_baseline_ratio w). by eapply lookup_lt_Some. }
  destruct (lookup_lt_is_Some_2 df i Hi) as [r Hr].
  rewrite (with_baseline_ratio_lookup w df i r Hr) in Hp.
  by simplify_eq/=.
Qed.

Lemma obs_with_baseline_ratio w df : obs <$> with_baseline_ratio round w df = df.
Proof.
  apply list_eq. intros i. rewrite list_lookup_fmap.
  destruct (df !! i) as [r|] eqn:Hr.
  - by rewrite (with_baseline_ratio_lookup w df i r Hr).
  - apply lookup_ge_None in Hr.
    rewrite (proj2 (lookup_ge_None _ _)); [done|].
    by rewrite length_with_baseline_ratio.
Qed.

Lemma ratio_notna_baseline c b : notna (fdiv_count round c b) = true → notna b = true.
Proof. by destruct b. Qed.

End Frame.

(** C9: in the frame of [detect_start_date] built from a date-sorted
    station series with [window >= 2], the baseline cell of row [i] is
    undefined (NaN) on the first [window - 1] rows, and from row
    [window - 1] on it is the median of the [window] counts that end at
    row [i], row [i] included. *)
Theorem C9_baseline_is_trailing_median
    (round : Q → Q) (window : nat) (df : list DailyCount) (i : nat) (r : DailyCount) :
  date_sorted df → 2 ≤ window → df !! i = Some r →
  ∃ p, with_baseline_ratio round window (sort_values data_date df) !! i = Some p
    ∧ obs p = r
    ∧ baseline p = spec_baseline window i (departures <$> df)
    ∧ (i < window - 1 → baseline p = NaN)
    ∧ (window - 1 ≤ i →
         baseline p = median (trailing_window window i (departures <$> df))
         ∧ notna (baseline p) = true
         ∧ length (trailing_window window i (departures <$> df)) = window
         ∧ last (trailing_window window i (departures <$> df)) = Some (departures r)).
Proof.
  intros Hs Hw Hr. rewrite (sort_values_sorted _ _ Hs).
  rewrite (with_baseline_ratio_lookup round window df i r Hr).
  eexists. split; [done|]. simpl.
  assert (i < length (departures <$> df)) as Hi.
  { rewrite length_fmap. by eapply lookup_lt_Some. }
  split; [done|]. split; [done|]. unfold spec_baseline. split.
  - intros Hlt. destruct (Nat.ltb_spec (i + 1) window); [done|lia].
  - intros Hge. destruct (Nat.ltb_spec (i + 1) window); [lia|].
    split; [done|].
    assert (length (trailing_window window i (departures <$> df)) = window) as Hlen
      by (apply length_trailing_window; [done|lia]).
    split; [|split; [done|]].
    + apply median_notna. intros E. rewrite E in Hlen. simpl in Hlen. lia.
    + rewrite last_trailing_window by (done || lia).
      by rewrite list_lookup_fmap, Hr.
Qed.

Lemma C9_baseline_is_trailing_median_witness :
  ∃ p, with_baseline_ratio Qred 7
         (sort_values data_date (series "S" [10; 10; 10; 10; 10; 10; 10; 10; 60])) !! 8
       = Some p
    ∧ baseline p = Fin 10.
Proof.
  destruct (C9_baseline_is_trailing_median Qred 7
              (series "S" [10; 10; 10; 10; 10; 10; 10; 10; 60]) 8
              (mkDaily 8%Z "S" 60)) as (p & Hp & _ & Hb & _).
  - unfold date_sorted, series. simpl. repeat constructor.
  - lia.
  - reflexivity.
  - exists p. split; [exact Hp|]. rewrite Hb. reflexivity.
Defined.

(** C5 (as amended): every row of the frame gets a ratio cell and no
    fault is raised.  The cell is undefined (NaN) where the baseline is
    undefined; it is the rounded quotient count / baseline where the
    baseline is not zero; where the baseline is zero it is undefined for a
    zero count and +inf, a defined cell, for a positive count. *)
Theorem C5_ratio_definedness
    (round : Q → Q) (window : nat) (df : list DailyCount) (i : nat) (r : DailyCount) :
  df !! i = Some r →
  ∃ p, with_baseline_ratio round window df !! i = Some p
    ∧ obs p = r
    ∧ (baseline p = NaN → ratio p = NaN)
    ∧ (∀ b, baseline p = Fin b → ¬ (b == 0)%Q →
         ratio p = Fin (round (inject_Z (Z.of_nat (departures r)) / b)%Q))
    ∧ (∀ b, baseline p = Fin b → (b == 0)%Q → departures r = 0 → ratio p = NaN)
    ∧ (∀ b, baseline p = Fin b → (b == 0)%Q → 0 < departures r →
         ratio p = PInf ∧ notna (ratio p) = true)
    ∧ baseline p ≠ PInf ∧ baseline p ≠ NInf.
Proof.
  intros Hr. rewrite (with_baseline_ratio_lookup round window df i r Hr).
  eexists. split; [done|]. simpl. split; [done|].
  pose proof (spec_baseline_not_inf window i (departures <$> df)) as [Hp Hn].
  generalize dependent (spec_baseline window i (departures <$> df)).
  intros b0 Hp Hn.
  split; [by intros ->|].
  split.
  { intros b -> Hb. simpl.
    destruct (Qeq_bool b 0) eqn:E; [|done].
    by apply Qeq_bool_iff in E. }
  split.
  { intros b -> Hb Hc. simpl.
    apply Qeq_bool_iff in Hb. by rewrite Hb, Hc. }
  split; [|done].
  intros b -> Hb Hc. simpl. apply Qeq_bool_iff in Hb. rewrite Hb.
  destruct (departures r); [lia|done].
Qed.

Lemma C5_ratio_definedness_witness :
  ∃ p, with_baseline_ratio Qred 3 (series "S" [0; 0; 5]) !! 2 = Some p
    ∧ baseline p = Fin 0 ∧ ratio p = PInf.
Proof.
  destruct (C5_ratio_definedness Qred 3 (series "S" [0; 0; 5]) 2
              (mkDaily 2%Z "S" 5) eq_refl)
    as (p & Hp & _ & _ & _ & _ & Hinf & _).
  exists p. split; [exact Hp|].
  assert (baseline p = Fin 0) as Hb.
  { vm_compute in Hp. injection Hp as <-. reflexivity. }
  split; [exact Hb|].
  apply (Hinf 0%Q Hb); [reflexivity | simpl; lia].
Defined.

(** C5 as stated fails: with window 3 on the counts 0, 0, 5 the third row
    has the baseline 0 and a ratio that is defined. *)
Lemma C5_zero_baseline_defined_ratio :
  ¬ (∀ p, p ∈ with_baseline_ratio Qred 3 (series "S" [0; 0; 5]) →
          baseline p = Fin 0 → notna (ratio p) = false).
Proof.
  intros H.
  specialize (H (mkPoint (mkDaily 2%Z "S" 5) (Fin 0) PInf)).
  assert (notna PInf = false) as Hc; [|done].
  apply H; [|done].
  vm_compute. do 2 apply list_elem_of_further. apply list_elem_of_here.
Qed.

(** ** Selections from a frame in date order *)

Lemma existsb_false_Forall {A} (f : A → bool) l :
  existsb f l = false ↔ Forall (λ y, f y = false) l.
Proof.
  induction l as [|x l IH]; simpl.
  - split; [constructor|done].
  - rewrite orb_false_iff, IH, Forall_cons. done.
Qed.

Lemma existsb_true_elem_of {A} (f : A → bool) l :
  existsb f l = true ↔ ∃ x, x ∈ l ∧ f x = true.
Proof.
  rewrite existsb_exists. by setoid_rewrite list_elem_of_In.
Qed.

Lemma elem_of_List_filter {A} (f : A → bool) l x :
  x ∈ List.filter f l ↔ x ∈ l ∧ f x = true.
Proof. rewrite !list_elem_of_In. apply filter_In. Qed.

Lemma StronglySorted_List_filter {A} (R : relation A) (f : A → bool) l :
  StronglySorted R l → StronglySorted R (List.filter f l).
Proof.
  induction 1 as [|x l Hl IH Hx]; simpl; [constructor|].
  destruct (f x); [|done]. constructor; [done|].
  apply Forall_forall. intros y [Hy _]%elem_of_List_filter.
  by eapply Forall_forall in Hx.
Qed.

Lemma StronglySorted_fmap_inv {A B} (f : A → B) (R : relation B) l :
  StronglySorted R (f <$> l) → StronglySorted (λ x y, R (f x) (f y)) l.
Proof.
  induction l as [|x l IH]; csimpl; [constructor|].
  intros [Hx Hl]%StronglySorted_cons. constructor; [by apply IH|].
  by rewrite Forall_fmap in Hx.
Qed.

(** In a frame in strictly ascending key order, the head of a selection
    is its row of least key. *)
Lemma first_selected_earliest {A} (key : A → date) (f : A → bool) l :
  StronglySorted (ascending key) l → existsb f l = true →
  ∃ x l', List.filter f l = x :: l' ∧ x ∈ l ∧ f x = true
    ∧ ∀ y, y ∈ l → f y = true → (key x ≤ key y)%Z.
Proof.
  intros Hs [z [Hz Hfz]]%existsb_true_elem_of.
  assert (z ∈ List.filter f l) as Hzf by by apply elem_of_List_filter.
  pose proof (StronglySorted_List_filter _ f _ Hs) as Hsf.
  destruct (List.filter f l) as [|x l'] eqn:E; [by apply not_elem_of_nil in Hzf|].
  assert (x ∈ l ∧ f x = true) as [Hx Hfx].
  { apply elem_of_List_filter. rewrite E. by left. }
  exists x, l'. repeat split; try done.
  intros y Hy Hfy.
  assert (y ∈ x :: l') as Hyf by (rewrite <- E; by apply elem_of_List_filter).
  apply StronglySorted_cons in Hsf as [Hall _].
  apply elem_of_cons in Hyf as [->|Hyl]; [lia|].
  eapply Forall_forall in Hall; [|done]. unfold ascending in Hall. lia.
Qed.

(** ** [idxmax] *)

Lemma idxmax_from_split best l1 l2 l :
  (∀ q, q ∈ l1 → notna (ratio q) = true → fgt (ratio best) (ratio q) = true) →
  (∀ q, q ∈ l2 → notna (ratio q) = true → fge (ratio best) (ratio q) = true) →
  ∃ l1' l2',
    l1 ++ best :: l2 ++ l = l1' ++ idxmax_from best l :: l2'
    ∧ (∀ q, q ∈ l1' → notna (ratio q) = true →
         fgt (ratio (idxmax_from best l)) (ratio q) = true)
    ∧ (∀ q, q ∈ l2' → notna (ratio q) = true →
         fge (ratio (idxmax_from best l)) (ratio q) = true).
Proof.
  revert best l1 l2. induction l as [|p l IH]; intros best l1 l2 H1 H2; simpl.
  { exists l1, l2. by rewrite app_nil_r. }
  destruct (notna (ratio p) && (negb (notna (ratio best)) || fgt (ratio p) (ratio best)))
    eqn:E.
  - apply andb_true_iff in E as [Hp E].
    destruct (IH p (l1 ++ best :: l2) []) as (l1' & l2' & Heq & H1' & H2').
    + intros q Hq Hnq.
      assert (notna (ratio best) = true → fge (ratio best) (ratio q) = true) as Hb.
      { intros Hnb. apply elem_of_app in Hq as [Hq|Hq]; [by apply fgt_fge, H1|].
        apply elem_of_cons in Hq as [->|Hq]; [by apply fge_refl|by apply H2]. }
      apply orb_true_iff in E as [E|E].
      * apply negb_true_iff in E. exfalso.
        apply elem_of_app in Hq as [Hq|Hq].
        { apply H1 in Hq; [|done]. apply fgt_notna in Hq as [? _]. congruence. }
        apply elem_of_cons in Hq as [->|Hq]; [congruence|].
        apply H2 in Hq; [|done]. apply fge_notna in Hq as [? _]. congruence.
      * eapply fgt_fge_trans; [done|]. apply Hb. by apply fgt_notna in E as [_ ?].
    + intros q Hq. by apply not_elem_of_nil in Hq.
    + exists l1', l2'. split; [|done]. rewrite <- Heq. simpl.
      by rewrite <- !app_assoc.
  - destruct (IH best l1 (l2 ++ [p])) as (l1' & l2' & Heq & H1' & H2').
    + done.
    + intros q Hq Hnq. apply elem_of_app in Hq as [Hq|Hq]; [by apply H2|].
      apply list_elem_of_singleton in Hq as ->.
      rewrite Hnq in E. simpl in E. apply orb_false_iff in E as [Hb E].
      apply negb_false_iff in Hb.
      destruct (fgt_or_fge (ratio p) (ratio best)) as [?|?]; [done..|congruence|done].
    + exists l1', l2'. split; [|done]. rewrite <- Heq. by rewrite <- !app_assoc.
Qed.

Lemma idxmax_split l p :
  idxmax l = Some p →
  ∃ l1 l2, l = l1 ++ p :: l2
    ∧ (∀ q, q ∈ l1 → notna (ratio q) = true → fgt (ratio p) (ratio q) = true)
    ∧ (∀ q, q ∈ l2 → notna (ratio q) = true → fge (ratio p) (ratio q) = true).
Proof.
  destruct l as [|best l]; simpl; [done|]. intros [= <-].
  destruct (idxmax_from_split best [] [] l) as (l1 & l2 & Heq & H1 & H2);
    [by intros q Hq%not_elem_of_nil..|].
  exists l1, l2. by rewrite <- Heq.
Qed.

(** In a frame in date order, [idxmax] finds the earliest row among
    those whose ratio is the largest defined one. *)
Lemma idxmax_earliest_max l :
  StronglySorted (ascending (λ p, data_date (obs p))) l →
  (∃ q, q ∈ l ∧ notna (ratio q) = true) →
  ∃ p, idxmax l = Some p ∧ is_max_ratio_point l p.
Proof.
  intros Hs (q0 & Hq0 & Hn0).
  destruct (idxmax l) as [p|] eqn:E;
    [|destruct l; [by apply not_elem_of_nil in Hq0|done]].
  exists p. split; [done|].
  destruct (idxmax_split l p E) as (l1 & l2 & -> & H1 & H2).
  assert (notna (ratio p) = true) as Hp.
  { apply elem_of_app in Hq0 as [Hq|Hq].
    - by destruct (fgt_notna _ _ (H1 _ Hq Hn0)).
    - apply elem_of_cons in Hq as [->|Hq]; [done|].
      by destruct (fge_notna _ _ (H2 _ Hq Hn0)). }
  split; [apply elem_of_app; right; by left|]. split; [done|].
  intros q Hq Hn. apply elem_of_app in Hq as [Hq|Hq].
  - split; [by apply fgt_fge, H1|].
    intros Hge. rewrite (fgt_not_fge _ _ (H1 _ Hq Hn)) in Hge. done.
  - apply elem_of_cons in Hq as [->|Hq]; [split; [by apply fge_refl|lia]|].
    split; [by apply H2|]. intros _.
    apply StronglySorted_app_1_r, StronglySorted_cons in Hs as [Hall _].
    eapply Forall_forall in Hall; [|done]. unfold ascending in Hall. lia.
Qed.

(** ** [_fallback_date] *)

Lemma max_departures_ge df r : r ∈ df → departures r ≤ max_departures df.
Proof.
  unfold max_departures. induction 1 as [r df|r r' df _ IH]; csimpl; lia.
Qed.

Lemma max_departures_attained df :
  df ≠ [] → ∃ r, r ∈ df ∧ departures r = max_departures df.
Proof.
  unfold max_departures. induction df as [|r df IH]; [done|]. intros _. csimpl.
  destruct (decide (df = [])) as [->|Hne].
  { exists r. split; [by left|]. simpl. lia. }
  destruct (IH Hne) as (r' & Hr' & Hmax).
  destruct (Nat.max_spec (departures r) (foldr Nat.max 0 (departures <$> df)))
    as [[_ ->]|[_ ->]].
  - exists r'. split; [by right|done].
  - exists r. split; [by left|done].
Qed.

Lemma fallback_date_spec df :
  date_sorted df → df ≠ [] →
  ∃ r, is_max_count_row df r ∧ _fallback_date df = Timestamp (data_date r).
Proof.
  intros Hs Hne. apply Sorted_StronglySorted in Hs; [|apply _].
  destruct (max_departures_attained df Hne) as (r0 & Hr0 & Hmax0).
  destruct (first_selected_earliest data_date
              (λ r, departures r =? max_departures df) df Hs)
    as (r & l' & Hf & Hr & Hmax & Hfirst).
  { apply existsb_true_elem_of. exists r0. split; [done|]. by apply Nat.eqb_eq. }
  apply Nat.eqb_eq in Hmax.
  exists r. split.
  - split; [done|]. intros r' Hr'. split.
    + rewrite Hmax. by apply max_departures_ge.
    + intros Heq. apply Hfirst; [done|]. apply Nat.eqb_eq. congruence.
  - unfold _fallback_date. by rewrite Hf.
Qed.

(** ** The two detection policies *)

Section Policies.

Variable round : Q → Q.

Lemma frame_sorted w df :
  date_sorted df →
  StronglySorted (ascending (λ p, data_date (obs p))) (with_baseline_ratio round w df).
Proof.
  intros Hs. apply (StronglySorted_fmap_inv obs (ascending data_date)).
  rewrite obs_with_baseline_ratio. by apply Sorted_StronglySorted; [apply _|].
Qed.

Lemma frame_ratio_notna w df q :
  q ∈ with_baseline_ratio round w df →
  notna (ratio q) = true → notna (baseline q) = true.
Proof.
  intros [i Hi]%list_elem_of_lookup Hn.
  apply with_baseline_ratio_lookup_inv in Hi as (_ & _ & Hr).
  rewrite Hr in Hn. by eapply ratio_notna_baseline.
Qed.

(** The guard of the maximum-ratio branch holds exactly when some ratio
    is defined, and then the branch gives the earliest maximum. *)
Lemma max_ratio_branch_taken w df :
  date_sorted df →
  let pts := with_baseline_ratio round w df in
  let after_baseline := List.filter (λ p, notna (baseline p)) pts in
  (∃ q, q ∈ pts ∧ notna (ratio q) = true) →
  negb (bool_decide (after_baseline = []))
    && existsb (λ p, notna (ratio p)) after_baseline = true
  ∧ ∃ p, is_max_ratio_point pts p
      ∧ loc_data_date (idxmax after_baseline) = Timestamp (data_date (obs p)).
Proof.
  intros Hs pts ab (q0 & Hq0 & Hn0).
  assert (∀ q, q ∈ pts → notna (ratio q) = true → q ∈ ab) as Hin.
  { intros q Hq Hn. apply elem_of_List_filter. split; [done|].
    by eapply frame_ratio_notna. }
  split.
  - apply andb_true_iff. split.
    + apply negb_true_iff, bool_decide_eq_false. intros E.
      specialize (Hin q0 Hq0 Hn0). rewrite E in Hin.
      by apply not_elem_of_nil in Hin.
    + apply existsb_true_elem_of. exists q0. split; [by apply Hin|done].
  - destruct (idxmax_earliest_max ab) as (p & Hidx & Hp & Hnp & Hmax).
    + apply StronglySorted_List_filter. by apply frame_sorted.
    + exists q0. split; [by apply Hin|done].
    + exists p. rewrite Hidx. split; [|done].
      split; [by apply elem_of_List_filter in Hp as [? _]|].
      split; [done|]. intros q Hq Hn. apply Hmax; [by apply Hin|done].
Qed.

Lemma max_ratio_branch_skipped w df :
  let pts := with_baseline_ratio round w df in
  let after_baseline := List.filter (λ p, notna (baseline p)) pts in
  (∀ q, q ∈ pts → notna (ratio q) = false) →
  negb (bool_decide (after_baseline = []))
    && existsb (λ p, notna (ratio p)) after_baseline = false.
Proof.
  intros pts ab Hno. apply andb_false_iff. right.
  apply existsb_false_Forall, Forall_forall.
  intros q [Hq _]%elem_of_List_filter. by apply Hno.
Qed.

(** Policy A, step 1: when some row passes the threshold test, the
    result is the date of the earliest such row. *)
Lemma first_spike_detected df window multiplier min_count guarantee :
  date_sorted df →
  let pts := with_baseline_ratio round window df in
  (∃ q, q ∈ pts ∧ mask_spike multiplier min_count q = true) →
  ∃ p, is_first_spike multiplier min_count pts p
    ∧ detect_start_date round df window multiplier min_count guarantee
      = Timestamp (data_date (obs p)).
Proof.
  intros Hs pts Hex. unfold detect_start_date.
  rewrite (sort_values_sorted _ _ Hs). fold pts.
  apply existsb_true_elem_of in Hex.
  destruct (first_selected_earliest (λ p, data_date (obs p))
              (mask_spike multiplier min_count) pts)
    as (p & l' & Hf & Hp & Hmask & Hfirst); [by apply frame_sorted|done|].
  exists p. rewrite Hex, Hf. split; [|done].
  unfold mask_spike in Hmask. apply andb_true_iff in Hmask as [Hb Hr].
  by repeat split.
Qed.

Lemma no_spike_existsb df window multiplier min_count :
  (∀ q, q ∈ with_baseline_ratio round window df →
        mask_spike multiplier min_count q = false) →
  existsb (mask_spike multiplier min_count) (with_baseline_ratio round window df)
  = false.
Proof. intros H. by apply existsb_false_Forall, Forall_forall. Qed.

End Policies.

(** C1: for a date-sorted station series in which some row has
    baseline >= min_count and ratio >= multiplier, policy A returns the
    date of the earliest such row. *)
Theorem C1_threshold_first_scan
    (round : Q → Q) (df : list DailyCount) (window : nat)
    (multiplier : float64) (min_count : Z) (guarantee : bool) :
  date_sorted df →
  (∃ q, q ∈ with_baseline_ratio round window df
        ∧ fge (baseline q) (of_int min_count) = true
        ∧ fge (ratio q) multiplier = true) →
  ∃ p, is_first_spike multiplier min_count (with_baseline_ratio round window df) p
    ∧ detect_start_date round df window multiplier min_count guarantee
      = Timestamp (data_date (obs p)).
Proof.
  intros Hs (q & Hq & Hb & Hr). apply first_spike_detected; [done|].
  exists q. split; [done|]. unfold mask_spike. by rewrite Hb, Hr.
Qed.

(** C2: for a date-sorted station series in which no row passes the
    threshold test, policy A returns NaT when [guarantee] is false; when
    it is true it returns the date of the largest defined ratio (the
    earliest date on ties) if some ratio is defined, and otherwise the
    date of the largest raw count (the earliest date on ties). *)
Theorem C2_fallback_ladder
    (round : Q → Q) (df : list DailyCount) (window : nat)
    (multiplier : float64) (min_count : Z) (guarantee : bool) :
  date_sorted df →
  (∀ q, q ∈ with_baseline_ratio round window df →
        mask_spike multiplier min_count q = false) →
  (guarantee = false →
     detect_start_date round df window multiplier min_count guarantee = NaT)
  ∧ (guarantee = true →
     (∃ q, q ∈ with_baseline_ratio round window df ∧ notna (ratio q) = true) →
     ∃ p, is_max_ratio_point (with_baseline_ratio round window df) p
       ∧ detect_start_date round df window multiplier min_count guarantee
         = Timestamp (data_date (obs p)))
  ∧ (guarantee = true →
     (∀ q, q ∈ with_baseline_ratio round window df → notna (ratio q) = false) →
     df ≠ [] →
     ∃ r, is_max_count_row df r
       ∧ detect_start_date round df window multiplier min_count guarantee
         = Timestamp (data_date r)).
Proof.
  intros Hs Hno. unfold detect_start_date.
  rewrite (sort_values_sorted _ _ Hs), (no_spike_existsb _ _ _ _ _ Hno).
  split; [by intros ->|]. split.
  - intros -> Hex. simpl.
    destruct (max_ratio_branch_taken round window df Hs Hex) as (-> & p & Hp & Hloc).
    by exists p.
  - intros -> Hnone Hne. simpl.
    rewrite (max_ratio_branch_skipped round window df Hnone).
    by apply fallback_date_spec.
Qed.

(** C3: for a date-sorted station series, the result of policy B does
    not depend on [multiplier] nor on [min_count]; it is the date of the
    largest defined ratio (the earliest date on ties) as soon as some
    ratio is defined; when none is, it is the date of the largest raw
    count if [guarantee] is true and NaT if it is false. *)
Theorem C3_max_ratio_first
    (round : Q → Q) (df : list DailyCount) (window : nat)
    (multiplier : float64) (min_count : Z) (guarantee : bool) :
  date_sorted df →
  (∀ multiplier' min_count',
     detect_start_date_2 round df window multiplier' min_count' guarantee
     = detect_start_date_2 round df window multiplier min_count guarantee)
  ∧ ((∃ q, q ∈ with_baseline_ratio round window df ∧ notna (ratio q) = true) →
     ∃ p, is_max_ratio_point (with_baseline_ratio round window df) p
       ∧ detect_start_date_2 round df window multiplier min_count guarantee
         = Timestamp (data_date (obs p)))
  ∧ ((∀ q, q ∈ with_baseline_ratio round window df → notna (ratio q) = false) →
     (guarantee = true → df ≠ [] →
      ∃ r, is_max_count_row df r
        ∧ detect_start_date_2 round df window multiplier min_count guarantee
          = Timestamp (data_date r))
     ∧ (guarantee = false →
        detect_start_date_2 round df window multiplier min_count guarantee = NaT)).
Proof.
  intros Hs. split; [done|]. unfold detect_start_date_2.
  rewrite (sort_values_sorted _ _ Hs). split.
  - intros Hex.
    destruct (max_ratio_branch_taken round window df Hs Hex) as (-> & p & Hp & Hloc).
    by exists p.
  - intros Hnone. rewrite (max_ratio_branch_skipped round window df Hnone).
    split; [|by intros ->].
    intros -> Hne. by apply fallback_date_spec.
Qed.

(** C8: for a date-sorted station series and two thresholds
    [lower <= higher], when policy A finds a qualifying date under the
    higher threshold it finds one under the lower threshold too, and the
    date chosen under the higher threshold is not earlier. *)
Theorem C8_threshold_monotone
    (round : Q → Q) (df : list DailyCount) (window : nat)
    (lower higher : float64) (min_count : Z) (guarantee : bool) :
  date_sorted df →
  fge higher lower = true →
  (∃ q, q ∈ with_baseline_ratio round window df
        ∧ mask_spike higher min_count q = true) →
  ∃ d_lower d_higher,
    detect_start_date round df window lower min_count guarantee = Timestamp d_lower
    ∧ detect_start_date round df window higher min_count guarantee = Timestamp d_higher
    ∧ (d_lower ≤ d_higher)%Z.
Proof.
  intros Hs Hle Hex.
  assert (∀ q, mask_spike higher min_count q = true →
               mask_spike lower min_count q = true) as Hmono.
  { intros q. unfold mask_spike. rewrite !andb_true_iff.
    intros [Hb Hr]. split; [done|]. by eapply fge_trans. }
  destruct (first_spike_detected round df window higher min_count guarantee Hs Hex)
    as (p2 & (Hp2 & Hb2 & Hr2 & _) & Hd2).
  assert (mask_spike higher min_count p2 = true) as Hm2
    by (unfold mask_spike; by rewrite Hb2, Hr2).
  destruct (first_spike_detected round df window lower min_count guarantee Hs)
    as (p1 & (Hp1 & _ & _ & Hfirst) & Hd1).
  { destruct Hex as (q & Hq & Hm). exists q. split; [done|by apply Hmono]. }
  exists (data_date (obs p1)), (data_date (obs p2)).
  split; [done|]. split; [done|]. apply Hfirst; [done|by apply Hmono].
Qed.

Lemma C1_threshold_first_scan_witness :
  ∃ p, is_first_spike (Fin (3 # 2)) 5
         (with_baseline_ratio Qred 7 (series "S" [10; 10; 10; 10; 10; 10; 10; 10; 60])) p
    ∧ detect_start_date Qred (series "S" [10; 10; 10; 10; 10; 10; 10; 10; 60])
        7 (Fin (3 # 2)) 5 true
      = Timestamp (data_date (obs p)).
Proof.
  apply C1_threshold_first_scan.
  - unfold date_sorted, series. simpl. repeat constructor.
  - exists (mkPoint (mkDaily 8%Z "S" 60) (Fin 10) (Fin 6)).
    split; [|split; reflexivity].
    apply list_elem_of_lookup. exists 8. reflexivity.
Defined.

Lemma C2_fallback_ladder_witness :
  ∃ p, is_max_ratio_point (with_baseline_ratio Qred 2 (series "S" [10; 10; 10])) p
    ∧ detect_start_date Qred (series "S" [10; 10; 10]) 2 (Fin (3 # 2)) 5 true
      = Timestamp (data_date (obs p)).
Proof.
  destruct (C2_fallback_ladder Qred (series "S" [10; 10; 10]) 2 (Fin (3 # 2)) 5 true)
    as (_ & Hratio & _).
  - unfold date_sorted, series. simpl. repeat constructor.
  - apply Forall_forall. vm_compute. repeat constructor.
  - apply Hratio; [reflexivity|].
    eexists. split; [apply list_elem_of_lookup; exists 1; reflexivity|].
    reflexivity.
Defined.

Lemma C3_max_ratio_first_witness :
  ∃ p, is_max_ratio_point (with_baseline_ratio Qred 2 (series "S" [5; 1; 4; 8; 2])) p
    ∧ detect_start_date_2 Qred (series "S" [5; 1; 4; 8; 2]) 2 (Fin (3 # 2)) 50 true
      = Timestamp (data_date (obs p)).
Proof.
  destruct (C3_max_ratio_first Qred (series "S" [5; 1; 4; 8; 2]) 2 (Fin (3 # 2)) 50 true)
    as (_ & Hratio & _).
  - unfold date_sorted, series. simpl. repeat constructor.
  - apply Hratio.
    eexists. split; [apply list_elem_of_lookup; exists 2; reflexivity|].
    reflexivity.
Defined.

Lemma C8_threshold_monotone_witness :
  ∃ d_lower d_higher,
    detect_start_date Qred (series "S" [10; 10; 10; 20; 40]) 3 (Fin (3 # 2)) 5 true
    = Timestamp d_lower
    ∧ detect_start_date Qred (series "S" [10; 10; 10; 20; 40]) 3 (Fin 2) 5 true
      = Timestamp d_higher
    ∧ (d_lower ≤ d_higher)%Z.
Proof.
  apply C8_threshold_monotone.
  - unfold date_sorted, series. simpl. repeat constructor.
  - reflexivity.
  - exists (mkPoint (mkDaily 4%Z "S" 40) (Fin 20) (Fin 2)).
    split; [|reflexivity].
    apply list_elem_of_lookup. exists 4. reflexivity.
Defined.

(** The dates of C8 are qualifying dates.  With [guarantee] on, a
    threshold that no row reaches sends policy A to its fallback, whose
    date can lie before the qualifying date of a lower threshold: on the
    counts 1, 4, 4, 6 with window 2 and [min_count] 3, the threshold 1.1
    selects day 3 and the threshold 1.5 falls back to day 1. *)
Example fallback_date_may_be_earlier :
  detect_start_date Qred (series "S" [1; 4; 4; 6]) 2 (Fin (11 # 10)) 3 true
  = Timestamp 3%Z
  ∧ detect_start_date Qred (series "S" [1; 4; 4; 6]) 2 (Fin (3 # 2)) 3 true
    = Timestamp 1%Z.
Proof. split; reflexivity. Qed.

(** On a frame without rows and with [guarantee] on, both policies end
    in the [IndexError] of [_fallback_date]; the groups that
    [predict_ceremony_dates] passes always have a row. *)
Example empty_frame_raises :
  detect_start_date Qred [] 7 (Fin (3 # 2)) 50 true = Raise
  ∧ detect_start_date_2 Qred [] 7 (Fin (3 # 2)) 50 true = Raise.
Proof. split; reflexivity. Qed.

(** ** The consensus date *)

#[global] Instance count_ge_total : Total count_ge.
Proof. intros a b. unfold count_ge. lia. Qed.

#[global] Instance count_ge_trans : Transitive count_ge.
Proof. intros a b c. unfold count_ge. lia. Qed.

Lemma group_size_frequency d preds :
  group_size d (omap id (pred_ceremony_date <$> preds)) = frequency d preds.
Proof.
  unfold group_size, frequency.
  induction preds as [|p preds IH]; [done|]. csimpl.
  rewrite (filter_cons _ p).
  destruct (pred_ceremony_date p) as [d'|] eqn:E; simpl.
  - rewrite filter_cons.
    destruct (decide (d' = d)) as [->|Hne].
    + rewrite decide_True by done. simpl. by rewrite IH.
    + rewrite decide_False by congruence. done.
  - by rewrite IH.
Qed.

Lemma group_size_pos {K} `{EqDecision K} (k : K) keys :
  0 < group_size k keys ↔ k ∈ keys.
Proof.
  unfold group_size. split.
  - intros Hlen. destruct (filter (λ k', k' = k) keys) as [|k0 l] eqn:E;
      [simpl in Hlen; lia|].
    assert (k0 ∈ filter (λ k', k' = k) keys) as Hk by (rewrite E; by left).
    apply list_elem_of_filter in Hk as [-> ?]. done.
  - intros Hk.
    assert (k ∈ filter (λ k', k' = k) keys) as Hk' by by apply list_elem_of_filter.
    destruct (filter (λ k', k' = k) keys); [by apply not_elem_of_nil in Hk'|].
    simpl. lia.
Qed.

Lemma elem_of_value_counts col c :
  c ∈ value_counts col
  ↔ c.1 ∈ omap id col ∧ c.2 = group_size c.1 (omap id col).
Proof.
  unfold value_counts. rewrite merge_sort_Permutation, list_elem_of_fmap.
  setoid_rewrite elem_of_remove_dups. split.
  - by intros (d & -> & Hd).
  - intros [Hd Hc]. exists c.1. split; [|done]. destruct c; simpl in *; by subst.
Qed.

Lemma min_of_spec d l :
  min_of d l ∈ d :: l ∧ ∀ d', d' ∈ d :: l → (min_of d l ≤ d')%Z.
Proof.
  unfold min_of. induction l as [|x l [IHin IHle]]; simpl.
  - split; [by left|]. intros d' ->%list_elem_of_singleton. lia.
  - split.
    + destruct (Z.min_spec x (foldr Z.min d l)) as [[_ ->]|[_ ->]].
      * right. by left.
      * apply elem_of_cons in IHin as [->|?]; [by left|]. by do 2 right.
    + intros d' Hd'.
      assert (d' = x ∨ d' ∈ d :: l) as [->|Hin].
      { apply elem_of_cons in Hd' as [->|Hd']; [right; by left|].
        apply elem_of_cons in Hd' as [->|Hd']; [by left|]. right. by right. }
      * lia.
      * specialize (IHle d' Hin). lia.
Qed.

Lemma choose_overall_date_rows preds :
  preds ≠ [] →
  choose_overall_date preds
  = Overall
      (let cnts := value_counts (pred_ceremony_date <$> preds) in
       match cnts with
       | [] => None
       | (_, top) :: _ =>
           match fst <$> List.filter (λ c, snd c =? top) cnts with
           | [] => None
           | d :: ds => Some (min_of d ds)
           end
       end).
Proof. by destruct preds. Qed.

Lemma choose_overall_date_KeyError preds :
  choose_overall_date preds = RaisedKeyError ↔ preds = [].
Proof. by destruct preds. Qed.

(** On a frame with at least one row, [choose_overall_date] returns None
    exactly when no prediction has a defined date; otherwise it returns
    a date that occurs among the predictions, no date occurs more often,
    and every date that occurs as often is not earlier. *)
Lemma consensus_on_frames_with_rows (preds : list Prediction) :
  preds ≠ [] →
  (choose_overall_date preds = Overall None
   ↔ ∀ p, p ∈ preds → pred_ceremony_date p = None)
  ∧ ∀ d, choose_overall_date preds = Overall (Some d) →
      0 < frequency d preds
      ∧ ∀ d', frequency d' preds ≤ frequency d preds
              ∧ (frequency d' preds = frequency d preds → (d ≤ d')%Z).
Proof.
  intros Hrows. rewrite (choose_overall_date_rows preds Hrows). clear Hrows.
  cbv zeta.
  set (col := pred_ceremony_date <$> preds).
  assert (∀ d, d ∈ omap id col ↔ ∃ p, p ∈ preds ∧ pred_ceremony_date p = Some d) as Hvals.
  { intros d. rewrite list_elem_of_omap. unfold col.
    setoid_rewrite list_elem_of_fmap. split.
    - intros (o & (p & -> & Hp) & Ho). exists p. by split.
    - intros (p & Hp & Ho). exists (Some d). split; [|done]. by exists p. }
  pose proof (elem_of_value_counts col) as Hcnt.
  pose proof (StronglySorted_merge_sort count_ge
                ((λ d, (d, group_size d (omap id col))) <$> remove_dups (omap id col)))
    as Hsorted.
  fold (value_counts col) in Hsorted.
  destruct (value_counts col) as [|[d0 top] rest] eqn:E.
  - split; [|done]. split; [|done]. intros _ p Hp.
    destruct (pred_ceremony_date p) as [d|] eqn:Hd; [|done].
    assert ((d, group_size d (omap id col)) ∈ @nil (date * nat)) as Hin.
    { apply Hcnt. split; [|done]. apply Hvals. by exists p. }
    by apply not_elem_of_nil in Hin.
  - assert (d0 ∈ omap id col ∧ top = group_size d0 (omap id col)) as [Hd0 Htop].
    { apply (Hcnt (d0, top)). by left. }
    simpl. rewrite Nat.eqb_refl. simpl. split.
    + split; [done|]. intros Hnone.
      apply Hvals in Hd0 as (p & Hp & Hd). rewrite (Hnone p Hp) in Hd. done.
    + intros d [= <-].
      match goal with |- context [min_of d0 ?l] => set (ds := l) end.
      destruct (min_of_spec d0 ds) as [Hin Hle].
      assert (∀ d', d' ∈ d0 :: ds ↔ frequency d' preds = top ∧ 0 < top) as Hties.
      { intros d'. rewrite <- group_size_frequency. fold col.
        assert (0 < top) as Hpos by (rewrite Htop; by apply group_size_pos).
        split.
        - intros Hd'. split; [|done].
          assert ((d', top) ∈ (d0, top) :: rest) as Hc.
          { apply elem_of_cons in Hd' as [->|Hd']; [by left|]. right.
            apply list_elem_of_fmap in Hd' as ([d'' n] & -> & Hc).
            apply elem_of_List_filter in Hc as [Hc Hn].
            apply Nat.eqb_eq in Hn. simpl in *. by subst. }
          apply Hcnt in Hc as [_ Hc]. done.
        - intros [Hf _].
          assert ((d', top) ∈ (d0, top) :: rest) as Hc.
          { apply Hcnt. simpl. split; [|done].
            apply group_size_pos. lia. }
          apply elem_of_cons in Hc as [[= ->]|Hc]; [by left|]. right.
          apply list_elem_of_fmap. exists (d', top). split; [done|].
          apply elem_of_List_filter. split; [done|]. simpl. apply Nat.eqb_refl. }
      apply Hties in Hin as [Hfreq Hpos]. rewrite Hfreq.
      split; [done|]. intros d'. split.
      * destruct (decide (d' ∈ omap id col)) as [Hd'|Hd'].
        -- assert ((d', group_size d' (omap id col)) ∈ (d0, top) :: rest) as Hc
             by by apply Hcnt.
           rewrite <- group_size_frequency. fold col.
           apply elem_of_cons in Hc as [[= _ ->]|Hc]; [done|].
           apply StronglySorted_cons in Hsorted as [Hall _].
           eapply Forall_forall in Hall; [|done]. done.
        -- rewrite <- group_size_frequency. fold col.
           destruct (group_size d' (omap id col)) eqn:E0; [lia|].
           exfalso. apply Hd', group_size_pos. lia.
      * intros Heq. apply Hle, Hties. by split.
Qed.

(** C4: the frame of zero predictions.  With a trip from station A only
    and a schools table that names station B only,
    [predict_ceremony_dates] builds its frame from no record.  No
    prediction of this frame has a defined date, and the claim says that
    [choose_overall_date] returns None; the code raises [KeyError]
    instead, and the run of [main] ends with it. *)
Theorem C4_zero_predictions_KeyError :
  predict_ceremony_dates Qred
    (aggregate_daily_counts [mkRide (Some 1%Z) (Some "A"%string)])
    ["B"%string] 7 (Fin (3 # 2)) 50 true
  = Some []
  ∧ choose_overall_date [] = RaisedKeyError
  ∧ choose_overall_date [] ≠ Overall None
  ∧ main Qred [mkRide (Some 1%Z) (Some "A"%string)] ["B"%string]
      7 (Fin (3 # 2)) 50 true
    = KeyError.
Proof.
  split; [reflexivity|]. split; [reflexivity|]. split; [discriminate|].
  reflexivity.
Qed.

(** The example of the specification: two stations on day 1, three on
    day 2; the plurality wins over the earlier date. *)
Example plurality_wins :
  choose_overall_date
    [mkPrediction "a" (Some 1%Z); mkPrediction "b" (Some 2%Z);
     mkPrediction "c" (Some 2%Z); mkPrediction "d" (Some 1%Z);
     mkPrediction "e" (Some 2%Z)]
  = Overall (Some 2%Z).
Proof. reflexivity. Qed.

(** ** The orders of the group keys *)

Lemma station_le_iff s1 s2 :
  station_le s1 s2 ↔ s1 = s2 ∨ String_as_OT.lt s1 s2.
Proof.
  unfold station_le, String.leb.
  destruct (String.compare s1 s2) eqn:E.
  - apply String_as_OT.cmp_eq in E. split; [by left|done].
  - apply String_as_OT.cmp_lt in E. split; [by right|done].
  - split; [done|]. intros [->|Hlt].
    + assert (String_as_OT.cmp s2 s2 = Eq) as H by by apply String_as_OT.cmp_eq.
      unfold String_as_OT.cmp in H. congruence.
    + apply String_as_OT.cmp_lt in Hlt. unfold String_as_OT.cmp in Hlt. congruence.
Qed.

#[global] Instance station_le_total : Total station_le.
Proof. intros s1 s2. apply String.leb_total. Qed.

#[global] Instance station_le_antisymm : AntiSymm (=) station_le.
Proof. intros s1 s2. apply String.leb_antisym. Qed.

#[global] Instance station_le_trans : Transitive station_le.
Proof.
  intros s1 s2 s3. rewrite !station_le_iff.
  intros [->|H12] [->|H23]; auto.
  right. by eapply String_as_OT.lt_trans.
Qed.

#[global] Instance key_le_total : Total key_le.
Proof.
  intros [d1 s1] [d2 s2]. unfold key_le. simpl.
  destruct (Z.lt_trichotomy d1 d2) as [?|[->|?]]; [by left; left| |by right; left].
  destruct (total station_le s1 s2); [left|right]; by right.
Qed.

#[global] Instance key_le_antisymm : AntiSymm (=) key_le.
Proof.
  intros [d1 s1] [d2 s2]. unfold key_le. simpl.
  intros [?|[-> H12]] [?|[? H21]]; try lia.
  f_equal. by apply (anti_symm station_le).
Qed.

#[global] Instance key_le_trans : Transitive key_le.
Proof.
  intros [d1 s1] [d2 s2] [d3 s3]. unfold key_le. simpl.
  intros [?|[-> H12]] [?|[-> H23]]; try (left; lia).
  right. split; [done|]. by etrans.
Qed.

(** ** Grouping *)

Lemma remove_dups_Permutation `{EqDecision A} (l k : list A) :
  l ≡ₚ k → remove_dups l ≡ₚ remove_dups k.
Proof.
  intros Hlk. apply NoDup_Permutation; [apply NoDup_remove_dups..|].
  intros x. by rewrite !elem_of_remove_dups, Hlk.
Qed.

Lemma group_size_Permutation `{EqDecision K} (k : K) (l l' : list K) :
  l ≡ₚ l' → group_size k l = group_size k l'.
Proof. intros H. unfold group_size. by rewrite H. Qed.

Lemma merge_sort_key_le_Permutation (l l' : list (date * string)) :
  l ≡ₚ l' → merge_sort key_le l = merge_sort key_le l'.
Proof.
  intros H. apply (Sorted_unique key_le); [apply Sorted_merge_sort; apply _..|].
  by rewrite !merge_sort_Permutation.
Qed.

Lemma aggregate_daily_counts_Permutation rides rides' :
  rides ≡ₚ rides' → aggregate_daily_counts rides = aggregate_daily_counts rides'.
Proof.
  intros H. unfold aggregate_daily_counts.
  assert (omap ride_key rides ≡ₚ omap ride_key rides') as Hk by by rewrite H.
  rewrite (merge_sort_key_le_Permutation _ _ (remove_dups_Permutation _ _ Hk)).
  apply list_fmap_ext. intros i k _. f_equal. by apply group_size_Permutation.
Qed.

Lemma List_filter_filter_implied {A} (f g : A → bool) l :
  (∀ x, x ∈ l → f x = true → g x = true) →
  List.filter f (List.filter g l) = List.filter f l.
Proof.
  induction l as [|x l IH]; intros H; simpl; [done|].
  destruct (g x) eqn:Hg; simpl.
  - rewrite IH; [done|]. intros y Hy. apply H. by right.
  - destruct (f x) eqn:Hf.
    + rewrite H in Hg; [done|by left|done].
    + apply IH. intros y Hy. apply H. by right.
Qed.

Lemma elem_of_station_groups subset s g :
  (s, g) ∈ station_groups subset
  ↔ (∃ r, r ∈ subset ∧ station r = s)
    ∧ g = List.filter (λ r, bool_decide (station r = s)) subset.
Proof.
  unfold station_groups. rewrite list_elem_of_fmap.
  setoid_rewrite merge_sort_Permutation.
  setoid_rewrite elem_of_remove_dups.
  setoid_rewrite list_elem_of_fmap. split.
  - intros (s' & [= -> ->] & r & -> & Hr). split; [by exists r|done].
  - intros [(r & Hr & <-) ->]. exists (station r). split; [done|]. by exists r.
Qed.

Lemma station_group_nonempty subset s g :
  (s, g) ∈ station_groups subset → g ≠ [].
Proof.
  intros [(r & Hr & Hs) ->]%elem_of_station_groups Hnil.
  assert (r ∈ List.filter (λ r, bool_decide (station r = s)) subset) as Hin.
  { apply elem_of_List_filter. split; [done|]. by apply bool_decide_eq_true. }
  rewrite Hnil in Hin. by apply not_elem_of_nil in Hin.
Qed.

(** ** No exception on a frame that has a row *)

Lemma iloc0_selected {A} (key : A → date) (f : A → bool) l :
  existsb f l = true → ∃ d, iloc0 (key <$> List.filter f l) = Timestamp d.
Proof.
  intros (x & Hx & Hf)%existsb_true_elem_of.
  assert (x ∈ List.filter f l) as Hin by by apply elem_of_List_filter.
  destruct (List.filter f l) as [|y l']; [by apply not_elem_of_nil in Hin|].
  by exists (key y).
Qed.

Lemma fallback_date_total df : df ≠ [] → ∃ d, _fallback_date df = Timestamp d.
Proof.
  intros Hne. destruct (max_departures_attained df Hne) as (r & Hr & Hmax).
  apply iloc0_selected, existsb_true_elem_of.
  exists r. split; [done|]. by apply Nat.eqb_eq.
Qed.

Lemma sort_values_nonempty {A} (key : A → date) (df : list A) :
  df ≠ [] → sort_values key df ≠ [].
Proof.
  intros Hne Hnil. pose proof (sort_values_Permutation key df) as H.
  rewrite Hnil in H. by apply Permutation_nil in H.
Qed.

Section Totality.

Variable round : Q → Q.

Lemma max_ratio_branch_total (pts : list BaselinePoint) :
  let after_baseline := List.filter (λ p, notna (baseline p)) pts in
  negb (bool_decide (after_baseline = []))
    && existsb (λ p, notna (ratio p)) after_baseline = true →
  ∃ d, loc_data_date (idxmax after_baseline) = Timestamp d.
Proof.
  intros ab [Hne _]%andb_true_iff.
  apply negb_true_iff, bool_decide_eq_false in Hne.
  destruct ab as [|p ab']; [done|]. simpl. by eexists.
Qed.

Lemma detect_start_date_total df window multiplier min_count guarantee :
  df ≠ [] →
  detect_start_date round df window multiplier min_count guarantee ≠ Raise.
Proof.
  intros Hne. unfold detect_start_date.
  destruct (existsb _ _) eqn:Hspike.
  { destruct (iloc0_selected (λ p, data_date (obs p)) _ _ Hspike) as [d ->]. done. }
  destruct guarantee; simpl; [|done].
  destruct (negb _ && _) eqn:Hmax.
  { destruct (max_ratio_branch_total _ Hmax) as [d ->]. done. }
  destruct (fallback_date_total (sort_values data_date df)) as [d ->]; [|done].
  by apply sort_values_nonempty.
Qed.

Lemma detect_start_date_2_total df window multiplier min_count guarantee :
  df ≠ [] →
  detect_start_date_2 round df window multiplier min_count guarantee ≠ Raise.
Proof.
  intros Hne. unfold detect_start_date_2.
  destruct (negb _ && _) eqn:Hmax.
  { destruct (max_ratio_branch_total _ Hmax) as [d ->]. done. }
  destruct guarantee; [|done].
  destruct (fallback_date_total (sort_values data_date df)) as [d ->]; [|done].
  by apply sort_values_nonempty.
Qed.

End Totality.

(** ** The rows of the prediction frame *)

Section PredictionRows.

Variable detect : list DailyCount → nat → float64 → Z → bool → timestamp.
Hypothesis detect_total : ∀ df window multiplier min_count guarantee,
  df ≠ [] → detect df window multiplier min_count guarantee ≠ Raise.

Variables (window : nat) (multiplier : float64) (min_count : Z) (guarantee : bool).

Lemma predict_total daily schools :
  is_Some (predict_ceremony_dates_with detect daily schools
             window multiplier min_count guarantee).
Proof.
  unfold predict_ceremony_dates_with. apply mapM_is_Some, Forall_forall.
  intros [s g] Hsg. simpl.
  pose proof (detect_total g window multiplier min_count guarantee
                (station_group_nonempty _ _ _ Hsg)) as Hd.
  unfold compose. simpl.
  destruct (detect g window multiplier min_count guarantee); simpl;
    [by apply mk_is_Some with (x := mkPrediction s (Some d))
    |by apply mk_is_Some with (x := mkPrediction s None)
    |done].
Qed.

(** The frame has one row for each target station that has rows in
    [daily], and its date is what [detect] finds on these rows. *)
Lemma predict_rows daily schools preds p :
  predict_ceremony_dates_with detect daily schools
    window multiplier min_count guarantee = Some preds →
  p ∈ preds
  ↔ pred_station p ∈ schools
    ∧ (∃ r, r ∈ daily ∧ station r = pred_station p)
    ∧ as_cell (detect (List.filter (λ r, bool_decide (station r = pred_station p)) daily)
                 window multiplier min_count guarantee)
      = Some (pred_ceremony_date p).
Proof.
  unfold predict_ceremony_dates_with. intros Hm%mapM_Some.
  set (subset := List.filter (λ r, bool_decide (station r ∈ remove_dups schools)) daily) in *.
  assert (∀ s, s ∈ schools →
            List.filter (λ r, bool_decide (station r = s)) subset
            = List.filter (λ r, bool_decide (station r = s)) daily) as Hgroup.
  { intros s Hs. apply List_filter_filter_implied.
    intros r _ Hr%bool_decide_eq_true. apply bool_decide_eq_true.
    rewrite Hr. by apply elem_of_remove_dups. }
  assert (∀ s, (∃ r, r ∈ subset ∧ station r = s)
               ↔ s ∈ schools ∧ ∃ r, r ∈ daily ∧ station r = s) as Hsub.
  { intros s. unfold subset. setoid_rewrite elem_of_List_filter.
    setoid_rewrite bool_decide_eq_true. setoid_rewrite elem_of_remove_dups.
    split.
    - intros (r & [Hr Ht] & <-). split; [done|]. by exists r.
    - intros (Hs & r & Hr & <-). exists r. by repeat split. }
  split.
  - intros [i Hi]%list_elem_of_lookup.
    destruct (Forall2_lookup_r _ _ _ _ _ Hm Hi) as ([s g] & Hsg & Hf).
    apply list_elem_of_lookup_2, elem_of_station_groups in Hsg as [Hs ->].
    simpl in Hf. apply fmap_Some in Hf as (c & Hc & ->). simpl.
    apply Hsub in Hs as [Hs Hr]. rewrite <- (Hgroup s Hs). done.
  - intros (Hs & Hr & Hc).
    assert ((pred_station p,
             List.filter (λ r, bool_decide (station r = pred_station p)) subset)
            ∈ station_groups subset) as [i Hi]%list_elem_of_lookup.
    { apply elem_of_station_groups. split; [|done]. by apply Hsub. }
    destruct (Forall2_lookup_l _ _ _ _ _ Hm Hi) as (p' & Hp' & Hf).
    simpl in Hf. rewrite (Hgroup _ Hs), Hc in Hf. simpl in Hf.
    injection Hf as <-. destruct p. by eapply list_elem_of_lookup_2.
Qed.

(** Target stations without rows in [daily] do not change the frame. *)
Lemma predict_target_irrelevant daily schools schools' :
  (∀ r, r ∈ daily → station r ∈ schools ↔ station r ∈ schools') →
  predict_ceremony_dates_with detect daily schools
    window multiplier min_count guarantee
  = predict_ceremony_dates_with detect daily schools'
      window multiplier min_count guarantee.
Proof.
  intros H. unfold predict_ceremony_dates_with.
  replace (List.filter (λ r, bool_decide (station r ∈ remove_dups schools')) daily)
    with (List.filter (λ r, bool_decide (station r ∈ remove_dups schools)) daily);
    [done|].
  apply filter_ext_in. intros r Hr%list_elem_of_In.
  apply bool_decide_ext. rewrite !elem_of_remove_dups. by apply H.
Qed.

End PredictionRows.

Lemma detect_policies_total round detect :
  detect = detect_start_date round ∨ detect = detect_start_date_2 round →
  ∀ df window multiplier min_count guarantee,
    df ≠ [] → detect df window multiplier min_count guarantee ≠ Raise.
Proof.
  intros [->| ->] df window multiplier min_count guarantee.
  - apply detect_start_date_total.
  - apply detect_start_date_2_total.
Qed.

(** C6 (as amended): with either script, [predict_ceremony_dates] raises
    no exception; a target station without any row in [daily] gets no
    row in its output, neither a date nor NaT; every target station that
    has rows in [daily] gets its row; and the output is the same as when
    the station without rows is not a target. *)
Theorem C6_station_without_rows
    (round : Q → Q) (detect : list DailyCount → nat → float64 → Z → bool → timestamp)
    (daily : list DailyCount) (schools : list string) (s : string)
    (window : nat) (multiplier : float64) (min_count : Z) (guarantee : bool) :
  detect = detect_start_date round ∨ detect = detect_start_date_2 round →
  s ∈ schools →
  (∀ r, r ∈ daily → station r ≠ s) →
  (∃ preds,
     predict_ceremony_dates_with detect daily schools
       window multiplier min_count guarantee = Some preds
     ∧ (∀ p, p ∈ preds → pred_station p ≠ s)
     ∧ (∀ t, t ∈ schools → (∃ r, r ∈ daily ∧ station r = t) →
          ∃ p, p ∈ preds ∧ pred_station p = t))
  ∧ predict_ceremony_dates_with detect daily (filter (λ t, t ≠ s) schools)
      window multiplier min_count guarantee
    = predict_ceremony_dates_with detect daily schools
        window multiplier min_count guarantee.
Proof.
  intros Hdet Hs Hnone.
  pose proof (detect_policies_total round detect Hdet) as Htotal.
  split.
  - destruct (predict_total detect Htotal window multiplier min_count guarantee
                daily schools) as [preds Hpreds].
    exists preds. split; [done|]. split.
    + intros p Hp Heq.
      apply (predict_rows detect window multiplier min_count guarantee
               daily schools preds p Hpreds) in Hp as (_ & (r & Hr & Hrs) & _).
      apply (Hnone r Hr). congruence.
    + intros t Ht (r & Hr & Hrt).
      set (g := List.filter (λ r, bool_decide (station r = t)) daily).
      assert (g ≠ []) as Hg.
      { intros Hnil. assert (r ∈ g) as Hin.
        { apply elem_of_List_filter. split; [done|]. by apply bool_decide_eq_true. }
        rewrite Hnil in Hin. by apply not_elem_of_nil in Hin. }
      pose proof (Htotal g window multiplier min_count guarantee Hg) as Hd.
      destruct (as_cell (detect g window multiplier min_count guarantee)) as [c|] eqn:Hc.
      * exists (mkPrediction t c). split; [|done].
        apply (predict_rows detect window multiplier min_count guarantee
                 daily schools preds _ Hpreds). simpl.
        split; [done|]. split; [by exists r|done].
      * by destruct (detect g window multiplier min_count guarantee).
  - apply predict_target_irrelevant. intros r Hr.
    rewrite list_elem_of_filter. split; [by intros [_ ?]|].
    intros Hin. split; [|done]. by apply Hnone.
Qed.

Lemma C6_station_without_rows_witness :
  ∃ preds,
    predict_ceremony_dates Qred (series "A" [3; 4]) ["A"; "B"] 7 (Fin (3 # 2)) 50 false
    = Some preds
    ∧ ∀ p, p ∈ preds → pred_station p ≠ "B".
Proof.
  destruct (C6_station_without_rows Qred (detect_start_date Qred)
              (series "A" [3; 4]) ["A"; "B"] "B" 7 (Fin (3 # 2)) 50 false)
    as [(preds & Hpreds & Hno & _) _].
  - left. reflexivity.
  - apply list_elem_of_further, list_elem_of_here.
  - apply Forall_forall. unfold series. simpl. repeat constructor; discriminate.
  - exists preds. split; [exact Hpreds|exact Hno].
Defined.

(** C6 as stated fails: "A" has two observations and "B" has none; the
    output has the row of "A", with an undefined date, and no row for
    "B". *)
Lemma C6_no_undefined_row_for_absent_station :
  predict_ceremony_dates Qred (series "A" [3; 4]) ["A"; "B"] 7 (Fin (3 # 2)) 50 false
  = Some [mkPrediction "A" None]
  ∧ ¬ (∃ preds p,
         predict_ceremony_dates Qred (series "A" [3; 4]) ["A"; "B"]
           7 (Fin (3 # 2)) 50 false = Some preds
         ∧ p ∈ preds ∧ pred_station p = "B" ∧ pred_ceremony_date p = None).
Proof.
  assert (predict_ceremony_dates Qred (series "A" [3; 4]) ["A"; "B"]
            7 (Fin (3 # 2)) 50 false = Some [mkPrediction "A" None]) as H
    by reflexivity.
  split; [exact H|].
  intros (preds & p & Hpreds & Hp & Hs & _).
  rewrite H in Hpreds. injection Hpreds as <-.
  apply list_elem_of_singleton in Hp as ->. discriminate.
Qed.

(** ** Independence of the row order *)

Lemma NoDup_fmap_eq {A B} (f : A → B) (l : list A) x y :
  NoDup (f <$> l) → x ∈ l → y ∈ l → f x = f y → x = y.
Proof.
  induction l as [|a l IH]; csimpl; [by intros _ ?%not_elem_of_nil|].
  intros [Ha Hl]%NoDup_cons [->|Hx]%elem_of_cons [->|Hy]%elem_of_cons Hf; try done.
  - exfalso. apply Ha. rewrite Hf. apply list_elem_of_fmap. by exists y.
  - exfalso. apply Ha. rewrite <- Hf. apply list_elem_of_fmap. by exists x.
  - by apply IH.
Qed.

#[global] Instance weakly_ascending_trans {A} (key : A → date) :
  Transitive (weakly_ascending key).
Proof. unfold weakly_ascending. intros a b c; lia. Qed.

(** Rows with pairwise distinct dates are sorted into the same frame
    whatever their order. *)
Lemma sort_values_Permutation_eq (g g' : list DailyCount) :
  g ≡ₚ g' → NoDup (data_date <$> g) →
  sort_values data_date g = sort_values data_date g'.
Proof.
  intros Hperm Hnd.
  apply (Sorted_unique_strong (weakly_ascending data_date));
    [|apply sort_values_Sorted..|by rewrite !sort_values_Permutation].
  intros x1 x2 Hx1 Hx2 H12 H21.
  rewrite sort_values_Permutation in Hx1.
  rewrite sort_values_Permutation, <- Hperm in Hx2.
  apply (NoDup_fmap_eq data_date g); [done..|].
  unfold weakly_ascending in *. lia.
Qed.

(** C7: permuting the trip rows changes neither the rows of the daily
    frame nor, with either script, the prediction frame; the date of a
    station is what [detect_start_date] finds on the rows of that station
    alone; and on rows with pairwise distinct dates the result of
    [detect_start_date] does not depend on the order of the rows. *)
Theorem C7_order_independence
    (round : Q → Q) (detect : list DailyCount → nat → float64 → Z → bool → timestamp)
    (rides rides' : list Ride) (schools : list string)
    (window : nat) (multiplier : float64) (min_count : Z) (guarantee : bool) :
  detect = detect_start_date round ∨ detect = detect_start_date_2 round →
  rides ≡ₚ rides' →
  aggregate_daily_counts rides = aggregate_daily_counts rides'
  ∧ predict_ceremony_dates_with detect (aggregate_daily_counts rides) schools
      window multiplier min_count guarantee
    = predict_ceremony_dates_with detect (aggregate_daily_counts rides') schools
        window multiplier min_count guarantee
  ∧ (∀ preds p,
       predict_ceremony_dates_with detect (aggregate_daily_counts rides) schools
         window multiplier min_count guarantee = Some preds →
       p ∈ preds →
       as_cell (detect (List.filter (λ r, bool_decide (station r = pred_station p))
                          (aggregate_daily_counts rides'))
                  window multiplier min_count guarantee)
       = Some (pred_ceremony_date p))
  ∧ (∀ g g', g ≡ₚ g' → NoDup (data_date <$> g) →
       detect g window multiplier min_count guarantee
       = detect g' window multiplier min_count guarantee).
Proof.
  intros Hdet Hperm.
  pose proof (aggregate_daily_counts_Permutation rides rides' Hperm) as Hagg.
  split; [done|]. rewrite <- Hagg. split; [done|]. split.
  - intros preds p Hpreds Hp.
    pose proof (detect_policies_total round detect Hdet) as Htotal.
    by apply (predict_rows detect window multiplier min_count guarantee
                _ schools preds p Hpreds) in Hp as (_ & _ & Hc).
  - intros g g' Hg Hnd.
    pose proof (sort_values_Permutation_eq g g' Hg Hnd) as Hsort.
    destruct Hdet as [-> | ->].
    + unfold detect_start_date. by rewrite Hsort.
    + unfold detect_start_date_2. by rewrite Hsort.
Qed.

Lemma C7_order_independence_witness :
  aggregate_daily_counts
    [mkRide (Some 2%Z) (Some "b"); mkRide (Some 1%Z) (Some "b");
     mkRide (Some 2%Z) (Some "a"); mkRide (Some 2%Z) (Some "b")]
  = aggregate_daily_counts
      [mkRide (Some 1%Z) (Some "b"); mkRide (Some 2%Z) (Some "b");
       mkRide (Some 2%Z) (Some "a"); mkRide (Some 2%Z) (Some "b")].
Proof.
  apply (C7_order_independence Qred (detect_start_date Qred) _ _
           ["a"; "b"] 7 (Fin (3 # 2)) 50 true).
  - left. reflexivity.
  - apply Permutation_swap.
Defined.

(** ** [split] after [join] *)

Lemma append_cons c x t :
  String.append (String c x) t = String c (String.append x t).
Proof. reflexivity. Qed.

Lemma append_nil_r x : String.append x EmptyString = x.
Proof. induction x as [|c x IH]; [done|]. by rewrite append_cons, IH. Qed.

Lemma append_assoc x y z :
  String.append (String.append x y) z = String.append x (String.append y z).
Proof. induction x as [|c x IH]; [done|]. by rewrite !append_cons, IH. Qed.

Lemma split_from_step sep cur c s :
  split_from sep 0 cur (String c s)
  = if String.prefix sep (String c s)
    then cur :: split_from sep (String.length sep - 1) EmptyString s
    else split_from sep 0 (String.append cur (String c EmptyString)) s.
Proof. reflexivity. Qed.

Lemma prefix_cons a s1 b s2 :
  String.prefix (String a s1) (String b s2)
  = if Ascii.ascii_dec a b then String.prefix s1 s2 else false.
Proof. reflexivity. Qed.

Lemma prefix_nil s : String.prefix EmptyString s = true.
Proof. by destruct s. Qed.

Lemma has_substring_cons sep c x :
  has_substring sep (String c x)
  = String.prefix sep (String c x) || has_substring sep x.
Proof. reflexivity. Qed.

Lemma no_sep_cons c x :
  has_substring comma_space (String c x) = false →
  String.prefix comma_space (String c x) = false
  ∧ has_substring comma_space x = false.
Proof. rewrite has_substring_cons. by intros ?%orb_false_iff. Qed.

(** No separator starts inside a name that holds none, be the name the
    last one or followed by a separator. *)
Lemma prefix_inside_name c x tail :
  String.prefix comma_space (String c x) = false →
  tail = EmptyString ∨ (∃ rest, tail = String.append comma_space rest) →
  String.prefix comma_space (String c (String.append x tail)) = false.
Proof.
  unfold comma_space. rewrite !prefix_cons. intros H Htail.
  destruct (Ascii.ascii_dec ","%char c) as [_|]; [|done].
  destruct x as [|d x].
  - destruct Htail as [->|[rest ->]]; [done|].
    change (String.append EmptyString (String.append ", " rest))
      with (String ","%char (String " "%char rest)).
    rewrite prefix_cons.
    by destruct (Ascii.ascii_dec " "%char ","%char) as [E|].
  - rewrite append_cons. rewrite prefix_cons in *.
    destruct (Ascii.ascii_dec " "%char d); [|done].
    by rewrite prefix_nil in H.
Qed.

Lemma prefix_separator rest :
  String.prefix comma_space (String ","%char (String " "%char rest)) = true.
Proof.
  unfold comma_space. rewrite !prefix_cons.
  destruct (Ascii.ascii_dec ","%char ","%char); [|done].
  destruct (Ascii.ascii_dec " "%char " "%char); [|done].
  apply prefix_nil.
Qed.

Lemma split_from_last x cur :
  has_substring comma_space x = false →
  split_from comma_space 0 cur x = [String.append cur x].
Proof.
  revert cur. induction x as [|c x IH]; intros cur Hx.
  - simpl. by rewrite append_nil_r.
  - apply no_sep_cons in Hx as [Hp Hx].
    rewrite split_from_step, Hp, IH by done.
    by rewrite append_assoc.
Qed.

Lemma split_from_separator x cur rest :
  has_substring comma_space x = false →
  split_from comma_space 0 cur (String.append x (String.append comma_space rest))
  = String.append cur x :: split_from comma_space 0 EmptyString rest.
Proof.
  revert cur. induction x as [|c x IH]; intros cur Hx.
  - rewrite append_nil_r.
    change (String.append EmptyString (String.append comma_space rest))
      with (String ","%char (String " "%char rest)).
    by rewrite split_from_step, prefix_separator.
  - apply no_sep_cons in Hx as [Hp Hx].
    rewrite append_cons, split_from_step.
    rewrite prefix_inside_name by (done || right; by eexists).
    rewrite IH by done. by rewrite append_assoc.
Qed.

Lemma split_from_join l x cur :
  Forall (λ s, has_substring comma_space s = false) (x :: l) →
  split_from comma_space 0 cur (join comma_space (x :: l))
  = String.append cur x :: l.
Proof.
  revert x cur. induction l as [|y l IH]; intros x cur [Hx Hl]%Forall_cons.
  - by apply split_from_last.
  - change (join comma_space (x :: y :: l))
      with (String.append x (String.append comma_space (join comma_space (y :: l)))).
    rewrite split_from_separator by done. by rewrite IH.
Qed.

Lemma length_split_join l :
  l ≠ [] → Forall (λ s, has_substring comma_space s = false) l →
  length (split comma_space (join comma_space l)) = length l.
Proof.
  destruct l as [|x l]; [done|]. intros _ Hl.
  unfold split. by rewrite split_from_join.
Qed.

Lemma length_List_filter_bool_decide {A} (P : A → Prop) `{∀ x, Decision (P x)} l :
  length (List.filter (λ x, bool_decide (P x)) l) = length (filter P l).
Proof.
  induction l as [|x l IH]; [done|]. simpl. rewrite filter_cons.
  destruct (decide (P x)).
  - rewrite bool_decide_eq_true_2 by done. simpl. by rewrite IH.
  - by rewrite bool_decide_eq_false_2.
Qed.

(** C10: when no station name contains ", ", every row of the summary
    of [save_date_summary] has a count equal to the number of stations
    predicted for the date of the row. *)
Theorem C10_summary_count (preds : list Prediction) (row : SummaryRow) :
  (∀ p, p ∈ preds → has_substring comma_space (pred_station p) = false) →
  row ∈ save_date_summary preds →
  count row = frequency (summary_date row) preds
  ∧ 0 < count row
  ∧ stations row
    = join comma_space
        (pred_station
           <$> List.filter
                 (λ p, bool_decide (pred_ceremony_date p = Some (summary_date row)))
                 preds).
Proof.
  intros Hnames. unfold save_date_summary.
  rewrite sort_values_Permutation, list_elem_of_fmap.
  intros ([d sts] & -> & Hg). simpl.
  apply list_elem_of_fmap in Hg as (d' & [= <- ->] & Hd).
  rewrite merge_sort_Permutation, elem_of_remove_dups, list_elem_of_omap in Hd.
  destruct Hd as (p0 & Hp0 & Hd0).
  set (group := List.filter (λ p, bool_decide (pred_ceremony_date p = Some d)) preds).
  assert (p0 ∈ group) as Hin.
  { apply elem_of_List_filter. split; [done|]. by apply bool_decide_eq_true. }
  assert (length (split comma_space (join comma_space (pred_station <$> group)))
          = frequency d preds) as Hlen.
  { rewrite length_split_join.
    - rewrite length_fmap. apply length_List_filter_bool_decide.
    - intros Hnil. apply fmap_nil_inv in Hnil. rewrite Hnil in Hin.
      by apply not_elem_of_nil in Hin.
    - apply Forall_fmap, Forall_forall. intros p [Hp _]%elem_of_List_filter.
      by apply Hnames. }
  split; [done|]. split; [|done].
  rewrite Hlen. unfold frequency.
  assert (p0 ∈ filter (λ p, pred_ceremony_date p = Some d) preds) as Hf
    by by apply list_elem_of_filter.
  destruct (filter (λ p, pred_ceremony_date p = Some d) preds);
    [by apply not_elem_of_nil in Hf|simpl; lia].
Qed.

Lemma C10_summary_count_witness :
  count (mkSummary 5%Z "b, c, f" 3) = 3
  ∧ 0 < 3
  ∧ "b, c, f"
    = join comma_space
        (pred_station
           <$> List.filter (λ p, bool_decide (pred_ceremony_date p = Some 5%Z))
                 [mkPrediction "a" (Some 1%Z); mkPrediction "b" (Some 5%Z);
                  mkPrediction "c" (Some 5%Z); mkPrediction "d" None;
                  mkPrediction "f" (Some 5%Z)]).
Proof.
  apply (C10_summary_count
           [mkPrediction "a" (Some 1%Z); mkPrediction "b" (Some 5%Z);
            mkPrediction "c" (Some 5%Z); mkPrediction "d" None;
            mkPrediction "f" (Some 5%Z)]
           (mkSummary 5%Z "b, c, f" 3)).
  - apply Forall_forall. repeat constructor.
  - apply list_elem_of_lookup. exists 1. reflexivity.
Defined.

(** The condition on the names is needed: a name that contains ", " is
    counted as two stations. *)
Example name_with_separator_miscounted :
  save_date_summary [mkPrediction "a, b" (Some 1%Z)]
  = [mkSummary 1%Z "a, b" 2].
Proof. reflexivity. Qed.

(** ** The frames that reach [detect_start_date]

    The hypothesis [date_sorted] of the statements above holds for every
    group that [predict_ceremony_dates] takes from the frame of
    [aggregate_daily_counts]: the rows of one station come in strictly
    ascending date order. *)

Lemma StronglySorted_NoDup_strict {A} (R : relation A) l :
  StronglySorted R l → NoDup l → StronglySorted (λ a b, R a b ∧ a ≠ b) l.
Proof.
  induction 1 as [|x l Hl IH Hx]; intros Hnd; [constructor|].
  apply NoDup_cons in Hnd as [Hnotin Hnd].
  constructor; [by apply IH|].
  apply Forall_forall. intros y Hy. split.
  - by eapply Forall_forall in Hx.
  - intros ->. done.
Qed.

Lemma StronglySorted_impl_elem_of {A} (R R' : relation A) l :
  (∀ x y, x ∈ l → y ∈ l → R x y → R' x y) →
  StronglySorted R l → StronglySorted R' l.
Proof.
  intros Himpl Hs. induction Hs as [|x l Hl IH Hx]; [constructor|].
  constructor.
  - apply IH. intros a b Ha Hb. apply Himpl; by right.
  - apply Forall_forall. intros y Hy. apply Himpl; [by left|by right|].
    by eapply Forall_forall in Hx.
Qed.

Lemma aggregate_groups_date_sorted rides s :
  date_sorted
    (List.filter (λ r, bool_decide (station r = s)) (aggregate_daily_counts rides)).
Proof.
  unfold date_sorted, aggregate_daily_counts.
  set (keys := omap ride_key rides).
  apply StronglySorted_Sorted.
  eapply StronglySorted_impl_elem_of;
    [|apply StronglySorted_List_filter,
        (StronglySorted_fmap _ (λ k1 k2 : date * string, key_le k1 k2 ∧ k1 ≠ k2)
           (λ r1 r2, key_le (data_date r1, station r1) (data_date r2, station r2)
                     ∧ (data_date r1, station r1) ≠ (data_date r2, station r2)))].
  - intros r1 r2 [_ H1%bool_decide_eq_true]%elem_of_List_filter
      [_ H2%bool_decide_eq_true]%elem_of_List_filter [Hle Hne].
    unfold ascending, key_le in *. simpl in *.
    destruct Hle as [?|[Heq _]]; [done|]. exfalso. apply Hne. congruence.
  - by intros [d1 s1] [d2 s2].
  - apply StronglySorted_NoDup_strict.
    + apply StronglySorted_merge_sort; apply _.
    + rewrite merge_sort_Permutation. apply NoDup_remove_dups.
Qed.

(** A count of [aggregate_daily_counts] is the size of a group that has a
    row, so it is at least 1; over such counts no baseline is zero, and
    the zero-divisor cases of the ratio do not arise. *)

Lemma aggregate_departures_pos rides r :
  r ∈ aggregate_daily_counts rides → 1 ≤ departures r.
Proof.
  unfold aggregate_daily_counts. intros (k & -> & Hk)%list_elem_of_fmap.
  rewrite merge_sort_Permutation, elem_of_remove_dups in Hk. simpl.
  by apply group_size_pos in Hk.
Qed.

Lemma median_pos (w : list nat) :
  w ≠ [] → Forall (λ x, 1 ≤ x) w → ∃ q, median w = Fin q ∧ (0 < q)%Q.
Proof.
  intros Hne Hall. unfold median.
  set (s := merge_sort le w).
  assert (Forall (λ x, 1 ≤ x) s) as Hs by (unfold s; by rewrite merge_sort_Permutation).
  assert (length s ≠ 0) as Hlen.
  { unfold s. rewrite length_merge_sort. by destruct w. }
  assert (∀ i, i < length s → 1 ≤ nth i s 0) as Hnth.
  { intros i Hi. rewrite nth_lookup.
    destruct (lookup_lt_is_Some_2 s i Hi) as [x Hx]. rewrite Hx. simpl.
    by eapply Forall_lookup_1 in Hs. }
  destruct (Nat.eqb_spec (length s) 0) as [?|_]; [done|].
  assert (length s / 2 < length s) as Hmid by (apply Nat.div_lt; lia).
  pose proof (Hnth (length s / 2) Hmid) as H1.
  pose proof (Hnth (length s / 2 - 1) ltac:(lia)) as H2.
  generalize dependent (nth (length s / 2) s 0).
  generalize dependent (nth (length s / 2 - 1) s 0).
  intros b Hb a Ha.
  destruct (Nat.odd (length s)); eexists; (split; [reflexivity|]).
  - unfold Qlt, inject_Z. simpl. lia.
  - unfold Qlt, Qdiv, Qmult, Qplus, Qinv, inject_Z. simpl. lia.
Qed.

Lemma baseline_pos_of_pos_counts round window df p :
  Forall (λ r, 1 ≤ departures r) df →
  p ∈ with_baseline_ratio round window df →
  baseline p = NaN ∨ ∃ q, baseline p = Fin q ∧ (0 < q)%Q.
Proof.
  intros Hall [i Hi]%list_elem_of_lookup.
  apply with_baseline_ratio_lookup_inv in Hi as (Hobs & -> & _).
  unfold spec_baseline.
  destruct (Nat.ltb_spec (i + 1) window) as [?|Hw]; [by left|].
  destruct (decide (window = 0)) as [->|Hw0]; [by left|right].
  assert (i < length (departures <$> df)) as Hlen.
  { rewrite length_fmap. by eapply lookup_lt_Some. }
  apply median_pos.
  - intros Hnil. apply (f_equal length) in Hnil.
    rewrite length_trailing_window in Hnil by done. simpl in Hnil. lia.
  - unfold trailing_window. apply Forall_take, Forall_drop, Forall_fmap.
    by eapply Forall_impl.
Qed.

(** * Further properties of the scripts *)

(** ** The daily frame *)

Lemma row_keys_aggregate rides :
  row_key <$> aggregate_daily_counts rides
  = merge_sort key_le (remove_dups (omap ride_key rides)).
Proof.
  unfold aggregate_daily_counts. rewrite <- list_fmap_compose.
  rewrite <- (list_fmap_id (merge_sort _ _)) at 2.
  apply list_fmap_ext. by intros i [d s] _.
Qed.

Lemma group_size_ride_keys k rides :
  group_size k (omap ride_key rides) = trips_with_key k rides.
Proof.
  unfold group_size, trips_with_key.
  induction rides as [|x rides IH]; [done|]. csimpl.
  rewrite (filter_cons _ x).
  destruct (ride_key x) as [k'|] eqn:E; simpl.
  - rewrite filter_cons. destruct (decide (k' = k)) as [->|Hne].
    + rewrite decide_True by done. simpl. by rewrite IH.
    + rewrite decide_False by congruence. done.
  - by rewrite IH.
Qed.

(** The rows of the daily frame come in ascending (date, station) order
    and no (date, station) pair occurs twice. *)
Theorem aggregate_keys_sorted_distinct (rides : list Ride) :
  Sorted key_le (row_key <$> aggregate_daily_counts rides)
  ∧ NoDup (row_key <$> aggregate_daily_counts rides).
Proof.
  rewrite row_keys_aggregate. split.
  - apply Sorted_merge_sort; apply _.
  - rewrite merge_sort_Permutation. apply NoDup_remove_dups.
Qed.

(** A row is in the daily frame exactly when its count is the number of
    trip rows of its date and station and that number is not zero. *)
Theorem aggregate_rows_count_trips (rides : list Ride) (r : DailyCount) :
  r ∈ aggregate_daily_counts rides
  ↔ departures r = trips_with_key (row_key r) rides ∧ 1 ≤ departures r.
Proof.
  unfold aggregate_daily_counts. rewrite list_elem_of_fmap.
  setoid_rewrite merge_sort_Permutation. setoid_rewrite elem_of_remove_dups.
  split.
  - intros (k & -> & Hk). simpl. unfold row_key. simpl.
    replace (k.1, k.2) with k by by destruct k.
    split; [apply group_size_ride_keys|by apply group_size_pos].
  - intros [Hc Hpos]. exists (row_key r).
    rewrite <- group_size_ride_keys in Hc. split.
    + destruct r. simpl in *. by rewrite Hc.
    + apply group_size_pos. lia.
Qed.

Lemma sum_indicator_NoDup {K} `{EqDecision K} (x : K) (f : K → nat) (l : list K) :
  NoDup l →
  sum_list ((λ k, (if decide (x = k) then 1 else 0) + f k) <$> l)
  = (if decide (x ∈ l) then 1 else 0) + sum_list (f <$> l).
Proof.
  induction 1 as [|k l Hk Hnd IH]; [done|]. csimpl. rewrite IH.
  destruct (decide (x = k)) as [->|Hne].
  - rewrite (decide_True (P := k ∈ k :: l)) by by left.
    rewrite decide_False by done. lia.
  - destruct (decide (x ∈ l)) as [Hin|Hnin].
    + rewrite (decide_True (P := x ∈ k :: l)) by by right. lia.
    + rewrite (decide_False (P := x ∈ k :: l)); [lia|].
      by intros [?|?]%elem_of_cons.
Qed.

Lemma sum_group_sizes {K} `{EqDecision K} (l : list K) :
  sum_list ((λ k, group_size k l) <$> remove_dups l) = length l.
Proof.
  induction l as [|x l IH]; [done|].
  assert (∀ k, group_size k (x :: l)
               = (if decide (x = k) then 1 else 0) + group_size k l) as Hgs.
  { intros k. unfold group_size. rewrite filter_cons.
    destruct (decide (x = k)); simpl; lia. }
  rewrite (list_fmap_ext _ (λ k, (if decide (x = k) then 1 else 0) + group_size k l))
    by (intros; apply Hgs).
  simpl. destruct (decide_rel elem_of x l) as [Hin|Hnin].
  - rewrite sum_indicator_NoDup by apply NoDup_remove_dups.
    rewrite decide_True by by apply elem_of_remove_dups. by rewrite IH.
  - csimpl. rewrite decide_True by done.
    rewrite sum_indicator_NoDup by apply NoDup_remove_dups.
    rewrite decide_False by by rewrite elem_of_remove_dups.
    rewrite IH. simpl.
    assert (group_size x l = 0) as ->; [|lia].
    destruct (group_size x l) eqn:E; [done|].
    exfalso. apply Hnin, group_size_pos. lia.
Qed.

(** No trip is lost and none is counted twice: the counts of the daily
    frame add up to the number of trip rows that have both a date and a
    departure station. *)
Theorem aggregate_conserves_trips (rides : list Ride) :
  sum_list (departures <$> aggregate_daily_counts rides)
  = length (filter (λ x, is_Some (ride_key x)) rides).
Proof.
  unfold aggregate_daily_counts. rewrite <- list_fmap_compose.
  rewrite (list_fmap_ext _ (λ k, group_size k (omap ride_key rides)))
    by done.
  rewrite merge_sort_Permutation, sum_group_sizes.
  induction rides as [|x rides IH]; [done|]. csimpl.
  rewrite filter_cons. destruct (ride_key x) eqn:E; simpl.
  - by rewrite IH.
  - done.
Qed.

(** Every frame that [predict_ceremony_dates] passes to
    [detect_start_date], when [daily] is the frame of
    [aggregate_daily_counts], has a row and is in strictly ascending
    date order. *)
Theorem detection_frames_date_sorted
    (rides : list Ride) (schools : list string) (s : string) (g : list DailyCount) :
  (s, g) ∈ station_groups
             (List.filter (λ r, bool_decide (station r ∈ remove_dups schools))
                (aggregate_daily_counts rides)) →
  g ≠ [] ∧ date_sorted g.
Proof.
  intros Hg. split; [by eapply station_group_nonempty|].
  apply elem_of_station_groups in Hg as [(r & Hr & Hs) ->].
  apply elem_of_List_filter in Hr as [_ Hr%bool_decide_eq_true].
  rewrite List_filter_filter_implied; [apply aggregate_groups_date_sorted|].
  intros r' _ Hr'%bool_decide_eq_true. apply bool_decide_eq_true. congruence.
Qed.

Lemma detection_frames_date_sorted_witness :
  series "A" [1; 2] ≠ [] ∧ date_sorted (series "A" [1; 2]).
Proof.
  apply (detection_frames_date_sorted
           [mkRide (Some 1%Z) (Some "A"); mkRide (Some 0%Z) (Some "A");
            mkRide (Some 1%Z) (Some "A"); mkRide (Some 0%Z) (Some "B")]
           ["A"] "A").
  apply list_elem_of_lookup. exists 0. reflexivity.
Defined.

(** ** What [detect_start_date] returns *)

Lemma iloc0_Timestamp {A} (key : A → date) (l : list A) d :
  iloc0 (key <$> l) = Timestamp d → ∃ x, x ∈ l ∧ key x = d.
Proof.
  destruct l as [|x l]; [done|]. intros [= <-]. exists x. split; [by left|done].
Qed.

Lemma idxmax_elem_of l p : idxmax l = Some p → p ∈ l.
Proof.
  intros (l1 & l2 & -> & _)%idxmax_split. apply elem_of_app. right. by left.
Qed.

Lemma loc_data_date_Timestamp l d :
  loc_data_date (idxmax l) = Timestamp d → ∃ p, p ∈ l ∧ data_date (obs p) = d.
Proof.
  destruct (idxmax l) as [p|] eqn:E; [|done]. intros [= <-].
  exists p. split; [by apply idxmax_elem_of|done].
Qed.

Section Outcomes.

Variable round : Q → Q.

Lemma frame_obs_elem_of window df p :
  p ∈ with_baseline_ratio round window (sort_values data_date df) → obs p ∈ df.
Proof.
  intros Hp. rewrite <- (sort_values_Permutation data_date df).
  rewrite <- (obs_with_baseline_ratio round window (sort_values data_date df)).
  apply list_elem_of_fmap. by exists p.
Qed.

(** The guard of the maximum-ratio branch, on any frame. *)
Lemma max_ratio_guard window df :
  let pts := with_baseline_ratio round window df in
  let after_baseline := List.filter (λ p, notna (baseline p)) pts in
  negb (bool_decide (after_baseline = []))
    && existsb (λ p, notna (ratio p)) after_baseline = true
  ↔ ∃ q, q ∈ pts ∧ notna (ratio q) = true.
Proof.
  intros pts ab. split.
  - intros [_ (q & Hq & Hn)%existsb_true_elem_of]%andb_true_iff.
    exists q. split; [|done]. by apply elem_of_List_filter in Hq as [? _].
  - intros (q & Hq & Hn).
    assert (q ∈ ab) as Hab.
    { apply elem_of_List_filter. split; [done|]. by eapply frame_ratio_notna. }
    apply andb_true_iff. split.
    + apply negb_true_iff, bool_decide_eq_false. intros E.
      rewrite E in Hab. by apply not_elem_of_nil in Hab.
    + apply existsb_true_elem_of. by exists q.
Qed.

Lemma detect_start_date_from_frame df window multiplier min_count guarantee d :
  detect_start_date round df window multiplier min_count guarantee = Timestamp d →
  ∃ r, r ∈ df ∧ data_date r = d.
Proof.
  unfold detect_start_date.
  destruct (existsb _ _).
  { intros (p & [Hp _]%elem_of_List_filter & Hd)%iloc0_Timestamp.
    exists (obs p). split; [by eapply frame_obs_elem_of|done]. }
  destruct guarantee; simpl; [|done].
  destruct (negb _ && _).
  { intros (p & [Hp _]%elem_of_List_filter & Hd)%loc_data_date_Timestamp.
    exists (obs p). split; [by eapply frame_obs_elem_of|done]. }
  unfold _fallback_date.
  intros (r & [Hr _]%elem_of_List_filter & Hd)%iloc0_Timestamp.
  exists r. split; [|done]. by rewrite <- (sort_values_Permutation data_date df).
Qed.

Lemma detect_start_date_2_from_frame df window multiplier min_count guarantee d :
  detect_start_date_2 round df window multiplier min_count guarantee = Timestamp d →
  ∃ r, r ∈ df ∧ data_date r = d.
Proof.
  unfold detect_start_date_2.
  destruct (negb _ && _).
  { intros (p & [Hp _]%elem_of_List_filter & Hd)%loc_data_date_Timestamp.
    exists (obs p). split; [by eapply frame_obs_elem_of|done]. }
  destruct guarantee; [|done]. unfold _fallback_date.
  intros (r & [Hr _]%elem_of_List_filter & Hd)%iloc0_Timestamp.
  exists r. split; [|done]. by rewrite <- (sort_values_Permutation data_date df).
Qed.

Lemma detect_start_date_guaranteed df window multiplier min_count :
  df ≠ [] →
  ∃ d, detect_start_date round df window multiplier min_count true = Timestamp d.
Proof.
  intros Hne. unfold detect_start_date.
  destruct (existsb _ _) eqn:Hspike.
  { by apply (iloc0_selected (λ p, data_date (obs p))). }
  simpl. destruct (negb _ && _) eqn:Hmax.
  { by apply max_ratio_branch_total. }
  by apply fallback_date_total, sort_values_nonempty.
Qed.

Lemma detect_start_date_2_guaranteed df window multiplier min_count :
  df ≠ [] →
  ∃ d, detect_start_date_2 round df window multiplier min_count true = Timestamp d.
Proof.
  intros Hne. unfold detect_start_date_2.
  destruct (negb _ && _) eqn:Hmax.
  { by apply max_ratio_branch_total. }
  by apply fallback_date_total, sort_values_nonempty.
Qed.

End Outcomes.

(** With either policy, a date that [detect_start_date] returns is the
    date of a row of the frame it was given. *)
Theorem detected_date_is_observed
    (round : Q → Q) (detect : list DailyCount → nat → float64 → Z → bool → timestamp)
    (df : list DailyCount) (window : nat) (multiplier : float64) (min_count : Z)
    (guarantee : bool) (d : date) :
  detect = detect_start_date round ∨ detect = detect_start_date_2 round →
  detect df window multiplier min_count guarantee = Timestamp d →
  ∃ r, r ∈ df ∧ data_date r = d.
Proof.
  intros [-> | ->].
  - apply detect_start_date_from_frame.
  - apply detect_start_date_2_from_frame.
Qed.

Lemma detected_date_is_observed_witness :
  ∃ r, r ∈ series "S" [10; 10; 10; 20; 40] ∧ data_date r = 3%Z.
Proof.
  apply (detected_date_is_observed Qred (detect_start_date Qred)
           (series "S" [10; 10; 10; 20; 40]) 3 (Fin (3 # 2)) 5 true 3%Z).
  - left. reflexivity.
  - reflexivity.
Defined.

(** With [guarantee] on ("always output a date") and a frame that has a
    row, either policy returns a date, never NaT and never an exception,
    and it is the date of a row of the frame. *)
Theorem guarantee_always_gives_a_date
    (round : Q → Q) (detect : list DailyCount → nat → float64 → Z → bool → timestamp)
    (df : list DailyCount) (window : nat) (multiplier : float64) (min_count : Z) :
  detect = detect_start_date round ∨ detect = detect_start_date_2 round →
  df ≠ [] →
  ∃ r, r ∈ df
    ∧ detect df window multiplier min_count true = Timestamp (data_date r).
Proof.
  intros [-> | ->] Hne.
  - destruct (detect_start_date_guaranteed round df window multiplier min_count Hne)
      as [d Hd].
    destruct (detect_start_date_from_frame round _ _ _ _ _ _ Hd) as (r & Hr & <-).
    by exists r.
  - destruct (detect_start_date_2_guaranteed round df window multiplier min_count Hne)
      as [d Hd].
    destruct (detect_start_date_2_from_frame round _ _ _ _ _ _ Hd) as (r & Hr & <-).
    by exists r.
Qed.

Lemma guarantee_always_gives_a_date_witness :
  ∃ r, r ∈ series "S" [3; 9; 4]
    ∧ detect_start_date_2 Qred (series "S" [3; 9; 4]) 7 (Fin (3 # 2)) 50 true
      = Timestamp (data_date r).
Proof.
  apply (guarantee_always_gives_a_date Qred (detect_start_date_2 Qred)).
  - right. reflexivity.
  - discriminate.
Defined.

(** With [guarantee] off no exception is raised, whatever the frame, the
    empty one included: policy A returns NaT exactly when no row passes
    the threshold test, policy B exactly when no ratio is defined. *)
Theorem no_guarantee_outcomes
    (round : Q → Q) (df : list DailyCount) (window : nat)
    (multiplier : float64) (min_count : Z) :
  let pts := with_baseline_ratio round window (sort_values data_date df) in
  detect_start_date round df window multiplier min_count false ≠ Raise
  ∧ (detect_start_date round df window multiplier min_count false = NaT
     ↔ ∀ q, q ∈ pts → mask_spike multiplier min_count q = false)
  ∧ detect_start_date_2 round df window multiplier min_count false ≠ Raise
  ∧ (detect_start_date_2 round df window multiplier min_count false = NaT
     ↔ ∀ q, q ∈ pts → notna (ratio q) = false).
Proof.
  intros pts. unfold detect_start_date, detect_start_date_2. fold pts.
  assert (existsb (mask_spike multiplier min_count) pts = false
          ↔ ∀ q, q ∈ pts → mask_spike multiplier min_count q = false) as Hmask.
  { by rewrite existsb_false_Forall, Forall_forall. }
  pose proof (max_ratio_guard round window (sort_values data_date df)) as Hguard.
  simpl in Hguard. fold pts in Hguard.
  destruct (existsb (mask_spike multiplier min_count) pts) eqn:Hspike.
  - destruct (iloc0_selected (λ p, data_date (obs p)) _ _ Hspike) as [d ->].
    split; [done|]. split; [split; [done|]; intros H; apply Hmask in H; done|].
    destruct (negb _ && _) eqn:Hmax.
    + destruct (max_ratio_branch_total _ Hmax) as [d' ->].
      split; [done|]. split; [done|]. intros Hnone.
      destruct (proj1 Hguard eq_refl) as (q & Hq & Hn).
      rewrite (Hnone q Hq) in Hn. done.
    + split; [done|]. split; [|done]. intros _ q Hq.
      destruct (notna (ratio q)) eqn:Hn; [|done].
      assert (false = true) as Hc; [|done]. apply Hguard. by exists q.
  - simpl. split; [done|]. split; [split; [intros _; by apply Hmask|done]|].
    destruct (negb _ && _) eqn:Hmax.
    + destruct (max_ratio_branch_total _ Hmax) as [d' ->].
      split; [done|]. split; [done|]. intros Hnone.
      destruct (proj1 Hguard eq_refl) as (q & Hq & Hn).
      rewrite (Hnone q Hq) in Hn. done.
    + split; [done|]. split; [|done]. intros _ q Hq.
      destruct (notna (ratio q)) eqn:Hn; [|done].
      assert (false = true) as Hc; [|done]. apply Hguard. by exists q.
Qed.

(** When no row passes the threshold test, policy A with [guarantee] on
    returns what policy B returns, on every frame and whatever the
    thresholds given to policy B. *)
Theorem fallback_of_policy_A_is_policy_B
    (round : Q → Q) (df : list DailyCount) (window : nat)
    (multiplier multiplier' : float64) (min_count min_count' : Z) :
  (∀ q, q ∈ with_baseline_ratio round window (sort_values data_date df) →
        mask_spike multiplier min_count q = false) →
  detect_start_date round df window multiplier min_count true
  = detect_start_date_2 round df window multiplier' min_count' true.
Proof.
  intros Hno. unfold detect_start_date, detect_start_date_2.
  by rewrite (proj2 (existsb_false_Forall _ _)) by by apply Forall_forall.
Qed.

Lemma fallback_of_policy_A_is_policy_B_witness :
  detect_start_date Qred (series "S" [1; 4; 4; 6]) 2 (Fin (3 # 2)) 3 true
  = detect_start_date_2 Qred (series "S" [1; 4; 4; 6]) 2 (Fin 9) 0 true.
Proof.
  apply fallback_of_policy_A_is_policy_B.
  apply Forall_forall. vm_compute. repeat constructor.
Defined.

(** ** Series shorter than the window *)

Lemma short_frame_all_nan round window df p :
  length df < window →
  p ∈ with_baseline_ratio round window df →
  baseline p = NaN ∧ ratio p = NaN.
Proof.
  intros Hlen [i Hi]%list_elem_of_lookup.
  apply with_baseline_ratio_lookup_inv in Hi as (Hobs & Hb & Hr).
  assert (baseline p = NaN) as Hnan.
  { rewrite Hb. unfold spec_baseline.
    apply lookup_lt_Some in Hobs.
    destruct (Nat.ltb_spec (i + 1) window); [done|lia]. }
  split; [done|]. by rewrite Hr, Hnan.
Qed.

(** A station with fewer observations than the window has no baseline at
    all: with either policy the result is NaT when [guarantee] is off,
    and with [guarantee] on it is the date of the largest raw count (the
    earliest on ties). *)
Theorem short_series_uses_raw_counts
    (round : Q → Q) (detect : list DailyCount → nat → float64 → Z → bool → timestamp)
    (df : list DailyCount) (window : nat) (multiplier : float64) (min_count : Z) :
  detect = detect_start_date round ∨ detect = detect_start_date_2 round →
  length df < window →
  detect df window multiplier min_count false = NaT
  ∧ (date_sorted df → df ≠ [] →
     ∃ r, is_max_count_row df r
       ∧ detect df window multiplier min_count true = Timestamp (data_date r)).
Proof.
  intros Hdet Hlen.
  set (sorted := sort_values data_date df).
  assert (length sorted < window) as Hlen'.
  { unfold sorted.
    by rewrite (Permutation_length (sort_values_Permutation data_date df)). }
  assert (∀ q, q ∈ with_baseline_ratio round window sorted →
               mask_spike multiplier min_count q = false) as Hmask.
  { intros q Hq. destruct (short_frame_all_nan _ _ _ _ Hlen' Hq) as [Hb _].
    unfold mask_spike. by rewrite Hb. }
  assert (∀ q, q ∈ with_baseline_ratio round window sorted →
               notna (ratio q) = false) as Hratio.
  { intros q Hq. destruct (short_frame_all_nan _ _ _ _ Hlen' Hq) as [_ Hr].
    by rewrite Hr. }
  pose proof (no_spike_existsb round sorted window multiplier min_count Hmask) as Hs.
  pose proof (max_ratio_branch_skipped round window sorted Hratio) as Hm.
  simpl in Hm.
  assert (detect df window multiplier min_count false = NaT
          ∧ detect df window multiplier min_count true = _fallback_date sorted)
    as [Hoff Hon].
  { destruct Hdet as [-> | ->]; unfold detect_start_date, detect_start_date_2;
      fold sorted; by rewrite ?Hs, Hm. }
  split; [done|]. intros Hsorted Hne. rewrite Hon. unfold sorted.
  rewrite (sort_values_sorted _ _ Hsorted). by apply fallback_date_spec.
Qed.

Lemma short_series_uses_raw_counts_witness :
  ∃ r, is_max_count_row (series "S" [3; 9; 4]) r
    ∧ detect_start_date Qred (series "S" [3; 9; 4]) 7 (Fin (3 # 2)) 50 true
      = Timestamp (data_date r).
Proof.
  destruct (short_series_uses_raw_counts Qred (detect_start_date Qred)
              (series "S" [3; 9; 4]) 7 (Fin (3 # 2)) 50) as [_ Hon].
  - left. reflexivity.
  - simpl. lia.
  - apply Hon; [|discriminate].
    unfold date_sorted, series. simpl. repeat constructor.
Defined.

(** ** The prediction frame *)

Lemma station_groups_names subset :
  (station_groups subset).*1
  = merge_sort station_le (remove_dups (station <$> subset)).
Proof.
  unfold station_groups. rewrite <- list_fmap_compose.
  rewrite <- (list_fmap_id (merge_sort _ _)) at 2. by apply list_fmap_ext.
Qed.

Lemma prediction_stations
    (detect : list DailyCount → nat → float64 → Z → bool → timestamp)
    daily schools window multiplier min_count guarantee preds :
  predict_ceremony_dates_with detect daily schools
    window multiplier min_count guarantee = Some preds →
  pred_station <$> preds
  = merge_sort station_le
      (remove_dups
         (station <$> List.filter (λ r, bool_decide (station r ∈ remove_dups schools))
                        daily)).
Proof.
  unfold predict_ceremony_dates_with. intros Hm%mapM_Some.
  rewrite <- station_groups_names.
  induction Hm as [|[s g] p groups preds Hp _ IH]; [done|].
  csimpl. rewrite IH. f_equal.
  simpl in Hp. apply fmap_Some in Hp as (c & _ & ->). done.
Qed.

(** The prediction frame has at most one row per station, and its rows
    come in ascending order of the station names. *)
Theorem predictions_one_row_per_station
    (detect : list DailyCount → nat → float64 → Z → bool → timestamp)
    (daily : list DailyCount) (schools : list string)
    (window : nat) (multiplier : float64) (min_count : Z) (guarantee : bool)
    (preds : list Prediction) :
  predict_ceremony_dates_with detect daily schools
    window multiplier min_count guarantee = Some preds →
  NoDup (pred_station <$> preds) ∧ Sorted station_le (pred_station <$> preds).
Proof.
  intros Hpreds. rewrite (prediction_stations _ _ _ _ _ _ _ _ Hpreds). split.
  - rewrite merge_sort_Permutation. apply NoDup_remove_dups.
  - apply Sorted_merge_sort; apply _.
Qed.

Lemma predictions_one_row_per_station_witness :
  NoDup (pred_station <$> [mkPrediction "A" None])
  ∧ Sorted station_le (pred_station <$> [mkPrediction "A" None]).
Proof.
  apply (predictions_one_row_per_station (detect_start_date Qred)
           (series "A" [3; 4]) ["A"; "B"] 7 (Fin (3 # 2)) 50 false).
  reflexivity.
Defined.

(** ** The summary table *)

(** [split] undoes [join] on names that hold no separator; the empty
    list is the exception, its joined string splits into one empty
    name. *)
Theorem split_join_round_trip (names : list string) :
  Forall (λ s, has_substring comma_space s = false) names →
  split comma_space (join comma_space names)
  = match names with
    | [] => [EmptyString]
    | _ => names
    end.
Proof.
  intros Hnames. destruct names as [|x l]; [done|].
  unfold split. by rewrite split_from_join.
Qed.

Lemma split_join_round_trip_witness :
  split comma_space (join comma_space ["b,"%string; " c"%string; "d"%string])
  = ["b,"%string; " c"%string; "d"%string].
Proof.
  apply (split_join_round_trip ["b,"%string; " c"%string; "d"%string]).
  repeat constructor.
Defined.

Lemma group_size_pred_dates d preds :
  group_size d (omap pred_ceremony_date preds) = frequency d preds.
Proof.
  unfold group_size, frequency.
  induction preds as [|p preds IH]; [done|]. csimpl.
  rewrite (filter_cons _ p).
  destruct (pred_ceremony_date p) as [d'|] eqn:E; simpl.
  - rewrite filter_cons. destruct (decide (d' = d)) as [->|Hne].
    + rewrite decide_True by done. simpl. by rewrite IH.
    + rewrite decide_False by congruence. done.
  - by rewrite IH.
Qed.

Lemma summary_dates_strictly_sorted preds :
  StronglySorted Z.lt
    (merge_sort Z.le (remove_dups (omap pred_ceremony_date preds))).
Proof.
  eapply StronglySorted_impl_elem_of;
    [|apply StronglySorted_NoDup_strict;
        [apply StronglySorted_merge_sort; apply _
        |rewrite merge_sort_Permutation; apply NoDup_remove_dups]].
  intros x y _ _ [Hle Hne]. simpl in *. lia.
Qed.

(** The final [sort_values] of [save_date_summary] finds its rows
    already in date order. *)
Lemma summary_rows preds :
  save_date_summary preds
  = (λ d, mkSummary d (join comma_space (stations_on d preds))
            (length (split comma_space (join comma_space (stations_on d preds)))))
      <$> merge_sort Z.le (remove_dups (omap pred_ceremony_date preds)).
Proof.
  unfold save_date_summary. rewrite <- list_fmap_compose.
  apply sort_values_sorted.
  apply (Sorted_fmap _ Z.lt); [done|].
  apply StronglySorted_Sorted, summary_dates_strictly_sorted.
Qed.

Lemma summary_row_counts preds :
  (∀ p, p ∈ preds → has_substring comma_space (pred_station p) = false) →
  save_date_summary preds
  = (λ d, mkSummary d (join comma_space (stations_on d preds)) (frequency d preds))
      <$> merge_sort Z.le (remove_dups (omap pred_ceremony_date preds)).
Proof.
  intros Hnames. rewrite summary_rows. apply list_fmap_ext.
  intros i d Hd. f_equal.
  apply list_elem_of_lookup_2 in Hd.
  rewrite merge_sort_Permutation, elem_of_remove_dups, list_elem_of_omap in Hd.
  destruct Hd as (p0 & Hp0 & Hd0).
  rewrite length_split_join.
  - unfold stations_on, frequency. rewrite length_fmap.
    apply length_List_filter_bool_decide.
  - unfold stations_on. intros Hnil%fmap_nil_inv.
    assert (p0 ∈ List.filter (λ p, bool_decide (pred_ceremony_date p = Some d)) preds)
      as Hin.
    { apply elem_of_List_filter. split; [done|]. by apply bool_decide_eq_true. }
    rewrite Hnil in Hin. by apply not_elem_of_nil in Hin.
  - unfold stations_on. apply Forall_fmap, Forall_forall.
    intros p [Hp _]%elem_of_List_filter. by apply Hnames.
Qed.

(** The summary table has its rows in strictly ascending date order,
    hence one row per date, and a date has a row exactly when some
    prediction gives it; predictions without a date are in no row. *)
Theorem summary_one_row_per_predicted_date (preds : list Prediction) :
  Sorted Z.lt (summary_date <$> save_date_summary preds)
  ∧ ∀ d, d ∈ summary_date <$> save_date_summary preds
         ↔ ∃ p, p ∈ preds ∧ pred_ceremony_date p = Some d.
Proof.
  rewrite summary_rows, <- list_fmap_compose.
  rewrite (list_fmap_ext _ id) by done. rewrite list_fmap_id.
  split.
  - apply StronglySorted_Sorted, summary_dates_strictly_sorted.
  - intros d.
    rewrite merge_sort_Permutation, elem_of_remove_dups, list_elem_of_omap.
    done.
Qed.

(** When no station name contains ", ", the counts of the summary table
    add up to the number of predictions that have a date. *)
Theorem summary_counts_total (preds : list Prediction) :
  (∀ p, p ∈ preds → has_substring comma_space (pred_station p) = false) →
  sum_list (count <$> save_date_summary preds)
  = length (filter (λ p, is_Some (pred_ceremony_date p)) preds).
Proof.
  intros Hnames. rewrite (summary_row_counts _ Hnames), <- list_fmap_compose.
  rewrite (list_fmap_ext _ (λ d, group_size d (omap pred_ceremony_date preds)))
    by (intros; symmetry; apply group_size_pred_dates).
  rewrite merge_sort_Permutation, sum_group_sizes.
  clear Hnames. induction preds as [|p preds IH]; [done|]. csimpl.
  rewrite filter_cons. destruct (pred_ceremony_date p) eqn:E; simpl.
  - by rewrite IH.
  - done.
Qed.

Lemma summary_counts_total_witness :
  sum_list (count <$> save_date_summary
                        [mkPrediction "a" (Some 1%Z); mkPrediction "b" (Some 5%Z);
                         mkPrediction "c" None; mkPrediction "d" (Some 5%Z)])
  = length (filter (λ p, is_Some (pred_ceremony_date p))
              [mkPrediction "a" (Some 1%Z); mkPrediction "b" (Some 5%Z);
               mkPrediction "c" None; mkPrediction "d" (Some 5%Z)]).
Proof.
  apply summary_counts_total. apply Forall_forall. repeat constructor.
Defined.

(** ** The consensus date, characterised *)

Lemma value_counts_pred_dates preds c :
  c ∈ value_counts (pred_ceremony_date <$> preds)
  ↔ 0 < frequency c.1 preds ∧ c.2 = frequency c.1 preds.
Proof.
  rewrite elem_of_value_counts, group_size_frequency.
  rewrite <- group_size_pos, group_size_frequency. done.
Qed.

Lemma value_counts_head_is_top preds d0 top rest :
  value_counts (pred_ceremony_date <$> preds) = (d0, top) :: rest →
  0 < top ∧ ∀ d, frequency d preds ≤ top.
Proof.
  intros E.
  assert (0 < frequency d0 preds ∧ top = frequency d0 preds) as [Hpos ->].
  { apply (value_counts_pred_dates preds (d0, top)). rewrite E. by left. }
  split; [done|]. intros d.
  destruct (frequency d preds) as [|n] eqn:Hd; [lia|]. rewrite <- Hd.
  assert ((d, frequency d preds) ∈ value_counts (pred_ceremony_date <$> preds)) as Hin.
  { apply value_counts_pred_dates. simpl. split; [lia|done]. }
  rewrite E in Hin. apply elem_of_cons in Hin as [[= _ ->]|Hin]; [done|].
  pose proof (StronglySorted_merge_sort count_ge
                ((λ d, (d, group_size d (omap id (pred_ceremony_date <$> preds))))
                   <$> remove_dups (omap id (pred_ceremony_date <$> preds))))
    as Hsorted.
  fold (value_counts (pred_ceremony_date <$> preds)) in Hsorted.
  rewrite E in Hsorted. apply StronglySorted_cons in Hsorted as [Hall _].
  eapply Forall_forall in Hall; [|done]. done.
Qed.

Lemma top_dates_of_value_counts preds top d :
  0 < top →
  d ∈ (List.filter (λ c : date * nat, c.2 =? top)
         (value_counts (pred_ceremony_date <$> preds))).*1
  ↔ frequency d preds = top.
Proof.
  intros Hpos. rewrite list_elem_of_fmap. split.
  - intros ([d' n] & -> & [Hc Hn%Nat.eqb_eq]%elem_of_List_filter).
    apply value_counts_pred_dates in Hc as [_ Hc]. simpl in *. congruence.
  - intros Hd. exists (d, top). split; [done|].
    apply elem_of_List_filter. split; [|apply Nat.eqb_refl].
    apply value_counts_pred_dates. simpl. split; [lia|done].
Qed.

Lemma choose_overall_date_sound preds d :
  choose_overall_date preds = Overall (Some d) → is_consensus d preds.
Proof.
  destruct (decide (preds = [])) as [->|Hrows]; [done|].
  rewrite (choose_overall_date_rows preds Hrows). cbv zeta.
  destruct (value_counts (pred_ceremony_date <$> preds)) as [|[d0 top] rest] eqn:E;
    [done|].
  destruct (value_counts_head_is_top preds d0 top rest E) as [Hpos Htop].
  pose proof (top_dates_of_value_counts preds top) as Hties. rewrite E in Hties.
  destruct ((List.filter (λ c : date * nat, c.2 =? top) ((d0, top) :: rest)).*1)
    as [|d1 ds]; [done|].
  intros [= <-]. destruct (min_of_spec d1 ds) as [Hin Hle].
  apply Hties in Hin; [|done]. unfold is_consensus. rewrite Hin.
  split; [done|]. intros d'. split; [apply Htop|].
  intros Heq. by apply Hle, Hties.
Qed.

Lemma choose_overall_date_defined preds d :
  0 < frequency d preds → ∃ d', choose_overall_date preds = Overall (Some d').
Proof.
  intros Hpos.
  assert (preds ≠ []) as Hrows by (intros ->; by apply Nat.lt_irrefl in Hpos).
  rewrite (choose_overall_date_rows preds Hrows). cbv zeta.
  assert ((d, frequency d preds) ∈ value_counts (pred_ceremony_date <$> preds)) as Hin
    by (by apply value_counts_pred_dates).
  destruct (value_counts (pred_ceremony_date <$> preds)) as [|[d0 top] rest];
    [by apply not_elem_of_nil in Hin|].
  simpl. rewrite Nat.eqb_refl. by eexists.
Qed.

(** [choose_overall_date] returns the date [d] exactly when [d] is the
    consensus: it occurs among the predictions, no date occurs more
    often, and no date that occurs as often is earlier.  There is at most
    one such date. *)
Theorem consensus_characterised (preds : list Prediction) (d : date) :
  choose_overall_date preds = Overall (Some d) ↔ is_consensus d preds.
Proof.
  split; [apply choose_overall_date_sound|].
  intros [Hpos Hmax].
  destruct (choose_overall_date_defined preds d Hpos) as [d' Hd'].
  rewrite Hd'. do 2 f_equal.
  destruct (choose_overall_date_sound preds d' Hd') as [_ Hmax'].
  destruct (Hmax d') as [H1 H2], (Hmax' d) as [H1' H2'].
  assert (frequency d preds = frequency d' preds) as Heq by lia.
  specialize (H2 (eq_sym Heq)). specialize (H2' Heq). lia.
Qed.

(** When no station name contains ", ", the date of
    [choose_overall_date] has a row in the summary table, the count of
    this row is the largest of the table, and the rows with the same
    count have later dates. *)
Theorem overall_date_tops_summary (preds : list Prediction) (d : date) :
  (∀ p, p ∈ preds → has_substring comma_space (pred_station p) = false) →
  choose_overall_date preds = Overall (Some d) →
  ∃ row, row ∈ save_date_summary preds
    ∧ summary_date row = d
    ∧ stations row = join comma_space (stations_on d preds)
    ∧ ∀ row', row' ∈ save_date_summary preds →
        count row' ≤ count row
        ∧ (count row' = count row → (d ≤ summary_date row')%Z).
Proof.
  intros Hnames [Hpos Hmax]%choose_overall_date_sound.
  rewrite (summary_row_counts _ Hnames).
  exists (mkSummary d (join comma_space (stations_on d preds)) (frequency d preds)).
  split.
  - apply list_elem_of_fmap. exists d. split; [done|].
    rewrite merge_sort_Permutation, elem_of_remove_dups.
    apply group_size_pos. by rewrite group_size_pred_dates.
  - split; [done|]. split; [done|].
    intros row' (d' & -> & _)%list_elem_of_fmap. simpl. apply Hmax.
Qed.

Lemma overall_date_tops_summary_witness :
  ∃ row, row ∈ save_date_summary
                 [mkPrediction "a" (Some 1%Z); mkPrediction "b" (Some 5%Z);
                  mkPrediction "c" None; mkPrediction "d" (Some 5%Z)]
    ∧ summary_date row = 5%Z.
Proof.
  destruct (overall_date_tops_summary
              [mkPrediction "a" (Some 1%Z); mkPrediction "b" (Some 5%Z);
               mkPrediction "c" None; mkPrediction "d" (Some 5%Z)] 5%Z)
    as (row & Hrow & Hd & _).
  - apply Forall_forall. repeat constructor.
  - reflexivity.
  - exists row. split; [exact Hrow|exact Hd].
Defined.

(** ** Reading with fallback encodings *)

Lemma encodings_to_try_default :
  encodings_to_try None = FALLBACK_ENCODINGS
  ∧ encodings_to_try (Some EmptyString) = FALLBACK_ENCODINGS.
Proof. split; reflexivity. Qed.

Lemma encodings_to_try_given e :
  e ≠ EmptyString →
  encodings_to_try (Some e)
  = e :: List.filter (λ x, negb (bool_decide (x ∈ [e]))) FALLBACK_ENCODINGS.
Proof.
  intros He. unfold encodings_to_try. by rewrite bool_decide_eq_false_2.
Qed.

Lemma NoDup_List_filter {A} (f : A → bool) (l : list A) :
  NoDup l → NoDup (List.filter f l).
Proof.
  induction 1 as [|x l Hx Hl IH]; simpl; [constructor|].
  destruct (f x); [|done]. apply NoDup_cons. split; [|done].
  by intros [? _]%elem_of_List_filter.
Qed.

Lemma List_filter_all {A} (f : A → bool) (l : list A) :
  (∀ x, x ∈ l → f x = true) → List.filter f l = l.
Proof.
  induction l as [|x l IH]; intros Hf; simpl; [done|].
  rewrite (Hf x) by left. f_equal. apply IH. intros y Hy. apply Hf. by right.
Qed.

Lemma NoDup_FALLBACK_ENCODINGS : NoDup FALLBACK_ENCODINGS.
Proof. apply (bool_decide_unpack _). by vm_compute. Qed.

Lemma FALLBACK_ENCODINGS_nonempty_names : EmptyString ∉ FALLBACK_ENCODINGS.
Proof. apply (bool_decide_unpack _). by vm_compute. Qed.

(** The encodings are tried without repetition: first the encoding of
    the caller, when one is given, then the fallbacks other than it, in
    the order in which [FALLBACK_ENCODINGS] lists them (all five of them
    when the encoding of the caller is not a fallback); without an
    encoding of the caller (or with the empty string) the list is the
    list of the fallbacks. *)
Theorem encodings_tried_once_caller_first (encoding : option string) :
  NoDup (encodings_to_try encoding)
  ∧ (∀ e, e ∈ encodings_to_try encoding
          ↔ e ∈ FALLBACK_ENCODINGS ∨ (encoding = Some e ∧ e ≠ EmptyString))
  ∧ (∀ e, encoding = Some e → e ≠ EmptyString →
          encodings_to_try encoding
          = e :: List.filter (λ x, negb (bool_decide (x = e))) FALLBACK_ENCODINGS)
  ∧ (∀ e, encoding = Some e → e ≠ EmptyString → e ∉ FALLBACK_ENCODINGS →
          encodings_to_try encoding = e :: FALLBACK_ENCODINGS)
  ∧ (encoding = None ∨ encoding = Some EmptyString →
     encodings_to_try encoding = FALLBACK_ENCODINGS).
Proof.
  destruct encodings_to_try_default as [Hnone Hempty].
  assert (∀ e, e ≠ EmptyString →
            NoDup (encodings_to_try (Some e))
            ∧ ∀ x, x ∈ encodings_to_try (Some e) ↔ x ∈ FALLBACK_ENCODINGS ∨ x = e)
    as Hgiven.
  { intros e He. rewrite (encodings_to_try_given e He). split.
    - apply NoDup_cons. split.
      + intros [_ Hin]%elem_of_List_filter.
        apply negb_true_iff, bool_decide_eq_false in Hin. apply Hin. by left.
      + apply NoDup_List_filter, NoDup_FALLBACK_ENCODINGS.
    - intros x. rewrite elem_of_cons, elem_of_List_filter, negb_true_iff,
        bool_decide_eq_false, list_elem_of_singleton.
      split; [intros [->|[? ?]]; auto|].
      destruct (decide (x = e)) as [->|Hne]; [by left|].
      intros [?|?]; [right; split; [done|by intros ->]|done]. }
  split; [|split; [|split; [|split]]].
  - destruct encoding as [e|]; [|rewrite Hnone; apply NoDup_FALLBACK_ENCODINGS].
    destruct (decide (e = EmptyString)) as [->|He];
      [rewrite Hempty; apply NoDup_FALLBACK_ENCODINGS|by apply Hgiven].
  - intros x. destruct encoding as [e|].
    + destruct (decide (e = EmptyString)) as [->|He].
      * rewrite Hempty. split; [by left|]. intros [?|[[= ->] ?]]; done.
      * rewrite (proj2 (Hgiven e He)). split.
        -- intros [?| ->]; [by left|by right].
        -- intros [?|[[= ->] _]]; [by left|by right].
    + rewrite Hnone. split; [by left|]. by intros [?|[? _]].
  - intros e -> He. rewrite (encodings_to_try_given e He). f_equal.
    apply filter_ext. intros x. f_equal.
    apply bool_decide_ext, list_elem_of_singleton.
  - intros e -> He Hnew. rewrite (encodings_to_try_given e He). f_equal.
    apply List_filter_all. intros x Hx.
    apply negb_true_iff, bool_decide_eq_false.
    intros ->%list_elem_of_singleton. done.
  - by intros [-> | ->].
Qed.

Section Reader.

Context {A : Type}.
Variable read_csv : string → read_attempt A.

Lemma try_encodings_Returned encodings tried df :
  try_encodings read_csv encodings tried = Returned df
  ↔ ∃ failed enc rest,
      encodings = failed ++ enc :: rest
      ∧ Forall (λ e, read_csv e = DecodeFails) failed
      ∧ read_csv enc = Parsed df.
Proof.
  revert tried. induction encodings as [|enc encodings IH]; intros tried; simpl.
  - split; [done|]. intros (failed & ? & ? & Heq & _). by destruct failed.
  - destruct (read_csv enc) eqn:E.
    + split.
      * intros [= <-]. exists [], enc, encodings. by repeat split.
      * intros ([|e failed] & enc' & rest & Heq & Hfail & Hok); simplify_eq/=.
        -- congruence.
        -- apply Forall_cons in Hfail as [? _]. congruence.
    + rewrite IH. split.
      * intros (failed & enc' & rest & -> & Hfail & Hok).
        exists (enc :: failed), enc', rest. split; [done|].
        split; [by constructor|done].
      * intros ([|e failed] & enc' & rest & Heq & Hfail & Hok); simplify_eq/=.
        -- congruence.
        -- apply Forall_cons in Hfail as [_ Hfail]. by exists failed, enc', rest.
    + split; [done|].
      intros ([|e' failed] & enc' & rest & Heq & Hfail & Hok); simplify_eq/=.
      * congruence.
      * apply Forall_cons in Hfail as [? _]. congruence.
Qed.

Lemma try_encodings_RaisedOther encodings tried x :
  try_encodings read_csv encodings tried = RaisedOther x
  ↔ ∃ failed enc rest,
      encodings = failed ++ enc :: rest
      ∧ Forall (λ e, read_csv e = DecodeFails) failed
      ∧ read_csv enc = OtherFailure x.
Proof.
  revert tried. induction encodings as [|enc encodings IH]; intros tried; simpl.
  - split; [done|]. intros (failed & ? & ? & Heq & _). by destruct failed.
  - destruct (read_csv enc) eqn:E.
    + split; [done|].
      intros ([|e' failed] & enc' & rest & Heq & Hfail & Hok); simplify_eq/=.
      * congruence.
      * apply Forall_cons in Hfail as [? _]. congruence.
    + rewrite IH. split.
      * intros (failed & enc' & rest & -> & Hfail & Hok).
        exists (enc :: failed), enc', rest. split; [done|].
        split; [by constructor|done].
      * intros ([|e' failed] & enc' & rest & Heq & Hfail & Hok); simplify_eq/=.
        -- congruence.
        -- apply Forall_cons in Hfail as [_ Hfail]. by exists failed, enc', rest.
    + split.
      * intros [= <-]. exists [], enc, encodings. by repeat split.
      * intros ([|e' failed] & enc' & rest & Heq & Hfail & Hok); simplify_eq/=.
        -- congruence.
        -- apply Forall_cons in Hfail as [? _]. congruence.
Qed.

Lemma try_encodings_RaisedUnicodeDecodeError encodings tried tried' :
  EmptyString ∉ encodings →
  try_encodings read_csv encodings tried = RaisedUnicodeDecodeError tried'
  ↔ Forall (λ e, read_csv e = DecodeFails) encodings ∧ tried' = tried ++ encodings.
Proof.
  revert tried. induction encodings as [|enc encodings IH]; intros tried Hne; simpl.
  - rewrite app_nil_r. split; [by intros [= <-]|by intros [_ ->]].
  - apply not_elem_of_cons in Hne as [Henc Hne].
    destruct (read_csv enc) eqn:E.
    + split; [done|]. intros [[? _]%Forall_cons _]. congruence.
    + rewrite bool_decide_eq_false_2 by done.
      rewrite IH by done. rewrite <- app_assoc. simpl.
      rewrite Forall_cons. split; [by intros [? ->]|by intros [[_ ?] ->]].
    + split; [done|]. intros [[? _]%Forall_cons _]. congruence.
Qed.

End Reader.

(** [read_csv_with_fallback] returns the frame parsed with the first
    encoding of its list that decodes the file, provided the encodings
    before it all failed with [UnicodeDecodeError]; an exception of
    another kind is not caught and ends the call at once. *)
Theorem read_csv_first_decoding_wins {A : Type}
    (read_csv : string → read_attempt A) (encoding : option string) :
  (∀ df, read_csv_with_fallback read_csv encoding = Returned df
         ↔ ∃ failed enc rest,
             encodings_to_try encoding = failed ++ enc :: rest
             ∧ Forall (λ e, read_csv e = DecodeFails) failed
             ∧ read_csv enc = Parsed df)
  ∧ (∀ x, read_csv_with_fallback read_csv encoding = RaisedOther x
          ↔ ∃ failed enc rest,
              encodings_to_try encoding = failed ++ enc :: rest
              ∧ Forall (λ e, read_csv e = DecodeFails) failed
              ∧ read_csv enc = OtherFailure x).
Proof.
  unfold read_csv_with_fallback. split.
  - intros df. apply try_encodings_Returned.
  - intros x. apply try_encodings_RaisedOther.
Qed.

(** [read_csv_with_fallback] raises its own [UnicodeDecodeError]
    exactly when every encoding of its list fails to decode the file, and
    the message then lists all of them in the order tried. *)
Theorem read_csv_gives_up_after_all_encodings {A : Type}
    (read_csv : string → read_attempt A) (encoding : option string)
    (tried : list string) :
  read_csv_with_fallback read_csv encoding = RaisedUnicodeDecodeError tried
  ↔ Forall (λ e, read_csv e = DecodeFails) (encodings_to_try encoding)
    ∧ tried = encodings_to_try encoding.
Proof.
  unfold read_csv_with_fallback.
  rewrite try_encodings_RaisedUnicodeDecodeError; [done|].
  destruct encoding as [e|]; [|apply FALLBACK_ENCODINGS_nonempty_names].
  destruct (decide (e = EmptyString)) as [->|He];
    [apply FALLBACK_ENCODINGS_nonempty_names|].
  rewrite (encodings_to_try_given e He).
  apply not_elem_of_cons. split; [done|].
  intros [Hin _]%elem_of_List_filter.
  by apply FALLBACK_ENCODINGS_nonempty_names.
Qed.

(** ** Cleaning the station names *)

Section Cleaning.

Variable isspace : N → bool.
Hypothesis ideographic_space_is_space : isspace IDEOGRAPHIC_SPACE = true.

Lemma lstrip_suffix s :
  ∃ pre, s = pre ++ lstrip isspace s ∧ Forall (λ c, isspace c = true) pre.
Proof.
  induction s as [|c s (pre & Hs & Hpre)]; simpl; [by exists []|].
  destruct (isspace c) eqn:E.
  - exists (c :: pre). split; [by rewrite Hs at 1|by constructor].
  - by exists [].
Qed.

Lemma lstrip_head s c : head (lstrip isspace s) = Some c → isspace c = false.
Proof.
  induction s as [|c' s IH]; simpl; [done|].
  destruct (isspace c') eqn:E; [done|]. simpl. by intros [= <-].
Qed.

Lemma lstrip_id s :
  (∀ c, head s = Some c → isspace c = false) → lstrip isspace s = s.
Proof. destruct s as [|c s]; simpl; [done|]. intros H. by rewrite (H c). Qed.

Lemma lstrip_last s c :
  last (lstrip isspace s) = Some c → last s = Some c.
Proof.
  destruct (lstrip_suffix s) as (pre & Hs & _). intros Hl.
  rewrite Hs, last_app, Hl. done.
Qed.

Lemma strip_ends s :
  (∀ c, head (strip isspace s) = Some c → isspace c = false)
  ∧ (∀ c, last (strip isspace s) = Some c → isspace c = false).
Proof.
  unfold strip, rstrip. split; intros c.
  - rewrite head_reverse. intros Hl%lstrip_last.
    rewrite last_reverse in Hl. by eapply lstrip_head.
  - rewrite last_reverse. apply lstrip_head.
Qed.

Lemma strip_id s :
  (∀ c, head s = Some c → isspace c = false) →
  (∀ c, last s = Some c → isspace c = false) →
  strip isspace s = s.
Proof.
  intros Hh Hl. unfold strip, rstrip. rewrite (lstrip_id s Hh).
  rewrite lstrip_id; [apply reverse_involutive|].
  intros c. rewrite head_reverse. apply Hl.
Qed.

Lemma keep_non_ideographic_ends s :
  (∀ c, head s = Some c → isspace c = false) →
  (∀ c, last s = Some c → isspace c = false) →
  let kept := List.filter (λ c, negb (c =? IDEOGRAPHIC_SPACE)%N) s in
  head kept = head s ∧ last kept = last s.
Proof.
  intros Hh Hl kept.
  assert (∀ c, isspace c = false → negb (c =? IDEOGRAPHIC_SPACE)%N = true) as Hkeep.
  { intros c Hc. apply negb_true_iff, N.eqb_neq. intros ->. congruence. }
  split.
  - unfold kept. destruct s as [|c s]; [done|]. simpl.
    by rewrite (Hkeep c (Hh c eq_refl)).
  - unfold kept. destruct (decide (s = [])) as [->|Hne]; [done|].
    destruct (exists_last Hne) as (s' & c & ->).
    rewrite last_snoc in Hl |- *. rewrite List.filter_app. simpl.
    rewrite (Hkeep c (Hl c eq_refl)). by rewrite last_snoc.
Qed.

Lemma clean_station_name_ends s :
  (∀ c, head (clean_station_name isspace s) = Some c → isspace c = false)
  ∧ (∀ c, last (clean_station_name isspace s) = Some c → isspace c = false).
Proof.
  destruct (strip_ends s) as [Hh Hl].
  destruct (keep_non_ideographic_ends _ Hh Hl) as [Hh' Hl'].
  unfold clean_station_name. split; intros c.
  - rewrite Hh'. apply Hh.
  - rewrite Hl'. apply Hl.
Qed.

Lemma List_filter_idemp {A} (f : A → bool) l :
  List.filter f (List.filter f l) = List.filter f l.
Proof. apply List_filter_filter_implied. auto. Qed.

Lemma clean_station_name_idemp s :
  clean_station_name isspace (clean_station_name isspace s)
  = clean_station_name isspace s.
Proof.
  destruct (clean_station_name_ends s) as [Hh Hl].
  unfold clean_station_name at 1. rewrite (strip_id _ Hh Hl).
  apply List_filter_idemp.
Qed.

End Cleaning.

(** Cleaning the station column a second time changes nothing; a
    missing name stays missing; a cleaned name holds no ideographic
    space and neither starts nor ends with white space.  It is enough
    that [str.strip] counts the ideographic space as white space. *)
Theorem station_cleaning_idempotent
    (isspace : N → bool) (col : list (option (list N))) :
  isspace IDEOGRAPHIC_SPACE = true →
  clean_station_column isspace (clean_station_column isspace col)
  = clean_station_column isspace col
  ∧ (∀ i, clean_station_column isspace col !! i = Some None ↔ col !! i = Some None)
  ∧ ∀ name, Some name ∈ clean_station_column isspace col →
      (IDEOGRAPHIC_SPACE ∉ name)
      ∧ (∀ c, head name = Some c → isspace c = false)
      ∧ (∀ c, last name = Some c → isspace c = false).
Proof.
  intros Hideo. unfold clean_station_column. split; [|split].
  - rewrite <- list_fmap_compose. apply list_fmap_ext.
    intros i [name|] _; simpl; [|done].
    by rewrite clean_station_name_idemp.
  - intros i. rewrite list_lookup_fmap.
    destruct (col !! i) as [[name|]|]; simpl; split; done.
  - intros name ([s|] & [= ->] & _)%list_elem_of_fmap.
    split; [|by apply clean_station_name_ends].
    unfold clean_station_name. intros [_ Hc]%elem_of_List_filter.
    by rewrite N.eqb_refl in Hc.
Qed.

Lemma station_cleaning_idempotent_witness :
  clean_station_column py_isspace
    (clean_station_column py_isspace
       [Some [32; 12288; 26757; 12288; 30000; 10]%N; None])
  = clean_station_column py_isspace
      [Some [32; 12288; 26757; 12288; 30000; 10]%N; None].
Proof.
  apply (station_cleaning_idempotent py_isspace). reflexivity.
Defined.

(** For instance " 　梅　田\n" becomes "梅田". *)
Example clean_station_name_umeda :
  clean_station_name py_isspace [32; 12288; 26757; 12288; 30000; 10]%N
  = [26757; 30000]%N.
Proof. reflexivity. Qed.

(** ** The two [main] functions *)

Lemma aggregate_row_keys rides d s :
  (∃ r, r ∈ aggregate_daily_counts rides ∧ data_date r = d ∧ station r = s)
  ↔ ∃ x, x ∈ rides ∧ ride_date x = Some d ∧ depature_station x = Some s.
Proof.
  unfold aggregate_daily_counts. setoid_rewrite list_elem_of_fmap.
  setoid_rewrite merge_sort_Permutation. setoid_rewrite elem_of_remove_dups.
  setoid_rewrite list_elem_of_omap. split.
  - intros (r & ([d' s'] & -> & x & Hx & Hk) & <- & <-). exists x.
    unfold ride_key in Hk.
    destruct (ride_date x), (depature_station x); simplify_eq/=. done.
  - intros (x & Hx & Hd & Hs).
    exists (mkDaily d s (group_size (d, s) (omap ride_key rides))).
    split; [|done]. exists (d, s). split; [done|]. exists x. split; [done|].
    unfold ride_key. by rewrite Hd, Hs.
Qed.

Lemma aggregate_stations rides s :
  (∃ r, r ∈ aggregate_daily_counts rides ∧ station r = s)
  ↔ ∃ x d, x ∈ rides ∧ ride_date x = Some d ∧ depature_station x = Some s.
Proof.
  split.
  - intros (r & Hr & Hs).
    destruct (proj1 (aggregate_row_keys rides (data_date r) s)) as (x & ? & ? & ?);
      [by exists r|]. by exists x, (data_date r).
  - intros (x & d & Hx & Hd & Hs).
    destruct (proj2 (aggregate_row_keys rides d s)) as (r & ? & ? & ?);
      [by exists x|]. by exists r.
Qed.

Section Runs.

Variable detect : list DailyCount → nat → float64 → Z → bool → timestamp.
Hypothesis detect_total : ∀ df window multiplier min_count guarantee,
  df ≠ [] → detect df window multiplier min_count guarantee ≠ Raise.
Hypothesis detect_guaranteed : ∀ df window multiplier min_count,
  df ≠ [] →
  ∃ r, r ∈ df ∧ detect df window multiplier min_count true = Timestamp (data_date r).

Variables (window : nat) (multiplier : float64) (min_count : Z).

Lemma predictions_nil daily schools guarantee :
  predict_ceremony_dates_with detect daily schools
    window multiplier min_count guarantee = Some []
  ↔ ∀ r, r ∈ daily → station r ∉ schools.
Proof using detect_total.
  destruct (predict_total detect detect_total window multiplier min_count guarantee
              daily schools) as [preds Hpreds].
  rewrite Hpreds.
  pose proof (prediction_stations _ _ _ _ _ _ _ _ Hpreds) as Hst.
  split.
  - intros [= ->] r Hr Hin. simpl in Hst.
    assert (station r ∈ @nil string) as Hnil; [|by apply not_elem_of_nil in Hnil].
    rewrite Hst, merge_sort_Permutation, elem_of_remove_dups.
    apply list_elem_of_fmap. exists r. split; [done|].
    apply elem_of_List_filter. split; [done|].
    apply bool_decide_eq_true. by apply elem_of_remove_dups.
  - intros Hnone. f_equal.
    destruct preds as [|p preds]; [done|]. exfalso.
    assert (pred_station p ∈ pred_station <$> p :: preds) as Hin by (csimpl; by left).
    rewrite Hst, merge_sort_Permutation, elem_of_remove_dups in Hin.
    apply list_elem_of_fmap in Hin as (r & _ & [Hr Ht]%elem_of_List_filter).
    apply bool_decide_eq_true in Ht. rewrite elem_of_remove_dups in Ht.
    by apply (Hnone r).
Qed.

Lemma report_predictions_KeyError daily schools guarantee :
  let run := report_predictions
               (predict_ceremony_dates_with detect daily schools
                  window multiplier min_count guarantee) in
  run ≠ DetectionRaised
  ∧ (run = KeyError ↔ ∀ r, r ∈ daily → station r ∉ schools).
Proof using detect_total.
  intros run. unfold run. rewrite <- (predictions_nil daily schools guarantee).
  destruct (predict_total detect detect_total window multiplier min_count guarantee
              daily schools) as [preds ->].
  destruct preds; simpl; (split; [done|split; done]).
Qed.

Lemma report_predictions_guaranteed daily schools r0 :
  r0 ∈ daily → station r0 ∈ schools →
  ∃ preds d,
    report_predictions
      (predict_ceremony_dates_with detect daily schools
         window multiplier min_count true)
    = Finished preds (Some d) (save_date_summary preds)
    ∧ (∀ p, p ∈ preds → is_Some (pred_ceremony_date p))
    ∧ is_consensus d preds
    ∧ ∃ r, r ∈ daily ∧ station r ∈ schools ∧ data_date r = d.
Proof using detect_total detect_guaranteed.
  intros Hr0 Ht0.
  destruct (predict_total detect detect_total window multiplier min_count true
              daily schools) as [preds Hpreds].
  assert (∀ p, p ∈ preds →
            ∃ r, r ∈ daily ∧ station r ∈ schools
                 ∧ pred_ceremony_date p = Some (data_date r)) as Hdates.
  { intros p Hp.
    apply (predict_rows detect window multiplier min_count true
             daily schools preds p Hpreds) in Hp as (Ht & (r & Hr & Hs) & Hc).
    destruct (detect_guaranteed
                (List.filter (λ r, bool_decide (station r = pred_station p)) daily)
                window multiplier min_count) as (r' & Hr' & Hd).
    { intros Hnil. assert (r ∈ @nil DailyCount) as Hin;
        [|by apply not_elem_of_nil in Hin].
      rewrite <- Hnil. apply elem_of_List_filter. split; [done|].
      by apply bool_decide_eq_true. }
    rewrite Hd in Hc. simpl in Hc. injection Hc as Hc.
    apply elem_of_List_filter in Hr' as [Hr' Hs'%bool_decide_eq_true].
    exists r'. split; [done|]. split; [by rewrite Hs'|done]. }
  assert (preds ≠ []) as Hne.
  { intros ->.
    pose proof (proj1 (predictions_nil daily schools true) Hpreds) as Hnone.
    by apply (Hnone r0). }
  destruct preds as [|p0 preds']; [done|]. set (preds := p0 :: preds') in *.
  destruct (Hdates p0) as (r1 & _ & _ & Hd1); [by left|].
  assert (0 < frequency (data_date r1) preds) as Hpos.
  { unfold frequency, preds. rewrite filter_cons, decide_True by done. simpl. lia. }
  destruct (choose_overall_date_defined preds _ Hpos) as [d Hd].
  exists preds, d. rewrite Hpreds. unfold report_predictions. rewrite Hd.
  split; [done|]. split.
  { intros p Hp. destruct (Hdates p Hp) as (r & _ & _ & ->). by eexists. }
  pose proof (choose_overall_date_sound preds d Hd) as Hcons.
  split; [done|]. destruct Hcons as [Hfreq _].
  assert (∃ p, p ∈ preds ∧ pred_ceremony_date p = Some d) as (p & Hp & Hpd).
  { unfold frequency in Hfreq.
    destruct (filter (λ p, pred_ceremony_date p = Some d) preds) as [|p l] eqn:E;
      [simpl in Hfreq; lia|].
    assert (p ∈ filter (λ p, pred_ceremony_date p = Some d) preds) as Hin
      by (rewrite E; by left).
    apply list_elem_of_filter in Hin as [? ?]. by exists p. }
  destruct (Hdates p Hp) as (r & Hr & Ht & Hd'). exists r.
  split; [done|]. split; [done|]. congruence.
Qed.

End Runs.

Lemma detect_policies_guaranteed round detect :
  detect = detect_start_date round ∨ detect = detect_start_date_2 round →
  ∀ df window multiplier min_count,
    df ≠ [] →
    ∃ r, r ∈ df ∧ detect df window multiplier min_count true = Timestamp (data_date r).
Proof.
  intros Hdet df window multiplier min_count Hne.
  destruct Hdet as [-> | ->].
  - destruct (detect_start_date_guaranteed round df window multiplier min_count Hne)
      as [d Hd].
    destruct (detect_start_date_from_frame round _ _ _ _ _ _ Hd) as (r & Hr & <-).
    by exists r.
  - destruct (detect_start_date_2_guaranteed round df window multiplier min_count Hne)
      as [d Hd].
    destruct (detect_start_date_2_from_frame round _ _ _ _ _ _ Hd) as (r & Hr & <-).
    by exists r.
Qed.

(** Run without the plotting options, the first script ends in the
    [KeyError] of [choose_overall_date] exactly when no trip row that has
    a date departs from a station of the schools table; no other
    exception leaves the detection. *)
Theorem main_KeyError_without_target_trips
    (round : Q → Q) (rides : list Ride) (schools : list string)
    (window : nat) (multiplier : float64) (min_count : Z) (guarantee : bool) :
  main round rides schools window multiplier min_count guarantee ≠ DetectionRaised
  ∧ (main round rides schools window multiplier min_count guarantee = KeyError
     ↔ ∀ x d s, x ∈ rides → ride_date x = Some d → depature_station x = Some s →
                s ∉ schools).
Proof.
  unfold main, predict_ceremony_dates.
  destruct (report_predictions_KeyError (detect_start_date round)
              (detect_start_date_total round) window multiplier min_count
              (aggregate_daily_counts rides) schools guarantee) as [Hno Hkey].
  split; [done|]. rewrite Hkey. split.
  - intros Hnone x d s Hx Hd Hs.
    destruct (proj2 (aggregate_stations rides s)) as (r & Hr & <-);
      [by exists x, d|]. by apply Hnone.
  - intros Hnone r Hr.
    destruct (proj1 (aggregate_stations rides (station r))) as (x & d & Hx & Hd & Hs);
      [by exists r|]. by eapply Hnone.
Qed.

(** With [guarantee] on and at least one dated trip from a station of
    the schools table, the first script finishes: every prediction has a
    date, the overall date is defined and is the consensus of the
    predictions, and it is a day on which a target station has trips. *)
Theorem main_reports_a_date_under_guarantee
    (round : Q → Q) (rides : list Ride) (schools : list string)
    (window : nat) (multiplier : float64) (min_count : Z)
    (x : Ride) (d0 : date) (s0 : string) :
  x ∈ rides → ride_date x = Some d0 → depature_station x = Some s0 →
  s0 ∈ schools →
  ∃ preds d,
    main round rides schools window multiplier min_count true
    = Finished preds (Some d) (save_date_summary preds)
    ∧ (∀ p, p ∈ preds → is_Some (pred_ceremony_date p))
    ∧ is_consensus d preds
    ∧ ∃ x' s, x' ∈ rides ∧ ride_date x' = Some d
              ∧ depature_station x' = Some s ∧ s ∈ schools.
Proof.
  intros Hx Hd0 Hs0 Ht0.
  destruct (proj2 (aggregate_stations rides s0)) as (r0 & Hr0 & Hst0);
    [by exists x, d0|].
  destruct (report_predictions_guaranteed (detect_start_date round)
              (detect_start_date_total round)
              (detect_policies_guaranteed round _ (or_introl eq_refl))
              window multiplier min_count
              (aggregate_daily_counts rides) schools r0 Hr0)
    as (preds & d & Hrun & Hall & Hcons & r & Hr & Ht & Hd); [by rewrite Hst0|].
  exists preds, d. split; [done|]. split; [done|]. split; [done|].
  destruct (proj1 (aggregate_row_keys rides d (station r))) as (x' & Hx' & Hd' & Hs');
    [by exists r|].
  by exists x', (station r).
Qed.

Lemma main_reports_a_date_under_guarantee_witness :
  ∃ preds d,
    main Qred [mkRide (Some 3%Z) (Some "A"); mkRide (Some 4%Z) (Some "A");
               mkRide (Some 4%Z) (Some "A"); mkRide (Some 4%Z) (Some "C")]
      ["A"; "B"] 7 (Fin (3 # 2)) 50 true
    = Finished preds (Some d) (save_date_summary preds).
Proof.
  destruct (main_reports_a_date_under_guarantee Qred
              [mkRide (Some 3%Z) (Some "A"); mkRide (Some 4%Z) (Some "A");
               mkRide (Some 4%Z) (Some "A"); mkRide (Some 4%Z) (Some "C")]
              ["A"; "B"] 7 (Fin (3 # 2)) 50
              (mkRide (Some 3%Z) (Some "A")) 3%Z "A")
    as (preds & d & Hrun & _).
  - apply list_elem_of_here.
  - reflexivity.
  - reflexivity.
  - apply list_elem_of_here.
  - exists preds, d. exact Hrun.
Defined.

(** ** The second script and its calendar filter *)

Lemma List_filter_comm {A} (f g : A → bool) l :
  List.filter f (List.filter g l) = List.filter g (List.filter f l).
Proof.
  induction l as [|x l IH]; simpl; [done|].
  destruct (f x) eqn:Hf, (g x) eqn:Hg; simpl; rewrite ?Hf, ?Hg, IH; done.
Qed.

Lemma date_sorted_List_filter (f : DailyCount → bool) df :
  date_sorted df → date_sorted (List.filter f df).
Proof.
  unfold date_sorted. intros Hs.
  apply StronglySorted_Sorted, StronglySorted_List_filter.
  by apply Sorted_StronglySorted; [apply _|].
Qed.

Section Calendar.

Variable is_holiday : date → bool.

(** The daily frame that the second script hands to the detection. *)
Lemma filtered_daily_rows rides exclude r :
  r ∈ (if exclude : bool
       then List.filter (λ r, is_weekday_and_not_holiday is_holiday (data_date r))
              (aggregate_daily_counts rides)
       else aggregate_daily_counts rides)
  ↔ r ∈ aggregate_daily_counts rides
    ∧ (exclude = true → is_weekday_and_not_holiday is_holiday (data_date r) = true).
Proof.
  destruct exclude.
  - rewrite elem_of_List_filter. split; intros [? ?]; auto.
  - split; [by intros ?; split|by intros [? _]].
Qed.

End Calendar.

(** With the option to exclude weekends and holidays, every frame that
    the second script passes to [detect_start_date] has a row, is in
    strictly ascending date order and holds working days only: it is the
    series of the station with the excluded days taken out, so the window
    counts observations, not calendar days. *)
Theorem filtered_detection_frames
    (is_holiday : date → bool) (rides : list Ride) (schools : list string)
    (s : string) (g : list DailyCount) :
  (s, g) ∈ station_groups
             (List.filter (λ r, bool_decide (station r ∈ remove_dups schools))
                (List.filter
                   (λ r, is_weekday_and_not_holiday is_holiday (data_date r))
                   (aggregate_daily_counts rides))) →
  g ≠ []
  ∧ date_sorted g
  ∧ g = List.filter (λ r, is_weekday_and_not_holiday is_holiday (data_date r))
          (List.filter (λ r, bool_decide (station r = s))
             (aggregate_daily_counts rides))
  ∧ ∀ r, r ∈ g →
      (weekday (data_date r) < 5)%Z ∧ is_holiday (data_date r) = false.
Proof.
  intros Hg. split; [by eapply station_group_nonempty|].
  apply elem_of_station_groups in Hg as [(r & Hr & Hs) ->].
  apply elem_of_List_filter in Hr as [_ Hr%bool_decide_eq_true].
  rewrite List_filter_filter_implied, List_filter_comm.
  2:{ intros r' _ Hr'%bool_decide_eq_true. apply bool_decide_eq_true. congruence. }
  split; [apply date_sorted_List_filter, aggregate_groups_date_sorted|].
  split; [done|].
  intros r' [_ Hw]%elem_of_List_filter.
  unfold is_weekday_and_not_holiday in Hw.
  apply andb_true_iff in Hw as [Hw Hh]. split.
  - by apply Z.ltb_lt.
  - by apply negb_true_iff.
Qed.

Lemma filtered_detection_frames_witness :
  [mkDaily 4%Z "A" 1; mkDaily 5%Z "A" 2] ≠ []
  ∧ date_sorted [mkDaily 4%Z "A" 1; mkDaily 5%Z "A" 2].
Proof.
  destruct (filtered_detection_frames (λ _, false)
              [mkRide (Some 5%Z) (Some "A"); mkRide (Some 4%Z) (Some "A");
               mkRide (Some 5%Z) (Some "A"); mkRide (Some 3%Z) (Some "A");
               mkRide (Some 4%Z) (Some "B")]
              ["A"] "A" [mkDaily 4%Z "A" 1; mkDaily 5%Z "A" 2])
    as (Hne & Hsorted & _).
  - apply list_elem_of_lookup. exists 0. reflexivity.
  - split; [exact Hne|exact Hsorted].
Defined.

(** Run without the plotting options, the second script ends in a
    [KeyError] exactly when every dated trip from a station of the
    schools table falls on a day that the calendar filter removes; no
    other exception leaves the detection. *)
Theorem main_2_KeyError_without_kept_trips
    (round : Q → Q) (is_holiday : date → bool)
    (rides : list Ride) (schools : list string)
    (window : nat) (multiplier : float64) (min_count : Z)
    (guarantee exclude : bool) :
  main_2 round is_holiday rides schools window multiplier min_count
    guarantee exclude ≠ DetectionRaised
  ∧ (main_2 round is_holiday rides schools window multiplier min_count
       guarantee exclude = KeyError
     ↔ ∀ x d s, x ∈ rides → ride_date x = Some d → depature_station x = Some s →
                s ∈ schools →
                exclude = true ∧ is_weekday_and_not_holiday is_holiday d = false).
Proof.
  unfold main_2, predict_ceremony_dates_2.
  match goal with
  | |- context [report_predictions
                  (predict_ceremony_dates_with _ ?daily _ _ _ _ _)] =>
      destruct (report_predictions_KeyError (detect_start_date_2 round)
                  (detect_start_date_2_total round) window multiplier min_count
                  daily schools guarantee) as [Hno Hkey]
  end.
  split; [done|]. rewrite Hkey. split.
  - intros Hnone x d s Hx Hd Hs Ht.
    destruct (proj2 (aggregate_row_keys rides d s)) as (r & Hr & <- & <-);
      [by exists x|].
    destruct exclude.
    + split; [done|].
      destruct (is_weekday_and_not_holiday is_holiday (data_date r)) eqn:Hw; [|done].
      exfalso. apply (Hnone r); [|done].
      apply (filtered_daily_rows is_holiday rides true). by split.
    + exfalso. by apply (Hnone r).
  - intros Hnone r Hr Ht.
    apply (filtered_daily_rows is_holiday rides exclude) in Hr as [Hr Hw].
    destruct (proj1 (aggregate_row_keys rides (data_date r) (station r)))
      as (x & Hx & Hd & Hs); [by exists r|].
    destruct (Hnone x _ _ Hx Hd Hs Ht) as [He Hw'].
    rewrite (Hw He) in Hw'. done.
Qed.

(** With [guarantee] on and at least one dated trip from a station of
    the schools table on a day that the calendar filter keeps, the
    second script finishes: every prediction has a date, the overall
    date is defined and is the consensus of the predictions, and it is a
    kept day on which a target station has trips. *)
Theorem main_2_reports_a_date_under_guarantee
    (round : Q → Q) (is_holiday : date → bool)
    (rides : list Ride) (schools : list string)
    (window : nat) (multiplier : float64) (min_count : Z) (exclude : bool)
    (x : Ride) (d0 : date) (s0 : string) :
  x ∈ rides → ride_date x = Some d0 → depature_station x = Some s0 →
  s0 ∈ schools →
  (exclude = true → is_weekday_and_not_holiday is_holiday d0 = true) →
  ∃ preds d,
    main_2 round is_holiday rides schools window multiplier min_count true exclude
    = Finished preds (Some d) (save_date_summary preds)
    ∧ (∀ p, p ∈ preds → is_Some (pred_ceremony_date p))
    ∧ is_consensus d preds
    ∧ (exclude = true → is_weekday_and_not_holiday is_holiday d = true)
    ∧ ∃ x' s, x' ∈ rides ∧ ride_date x' = Some d
              ∧ depature_station x' = Some s ∧ s ∈ schools.
Proof.
  intros Hx Hd0 Hs0 Ht0 Hw0.
  destruct (proj2 (aggregate_row_keys rides d0 s0)) as (r0 & Hr0 & Hdt0 & Hst0);
    [by exists x|].
  unfold main_2, predict_ceremony_dates_2.
  match goal with
  | |- context [report_predictions
                  (predict_ceremony_dates_with _ ?daily _ _ _ _ _)] =>
      destruct (report_predictions_guaranteed (detect_start_date_2 round)
                  (detect_start_date_2_total round)
                  (detect_policies_guaranteed round _ (or_intror eq_refl))
                  window multiplier min_count daily schools r0)
        as (preds & d & Hrun & Hall & Hcons & r & Hr & Ht & Hd)
  end.
  - apply (filtered_daily_rows is_holiday rides exclude). split; [done|].
    by rewrite Hdt0.
  - by rewrite Hst0.
  - apply (filtered_daily_rows is_holiday rides exclude) in Hr as [Hr Hw].
    exists preds, d. split; [done|]. split; [done|]. split; [done|].
    split; [by rewrite <- Hd|].
    destruct (proj1 (aggregate_row_keys rides d (station r)))
      as (x' & Hx' & Hd' & Hs'); [by exists r|].
    by exists x', (station r).
Qed.

Lemma main_2_reports_a_date_under_guarantee_witness :
  ∃ preds d,
    main_2 Qred (λ _, false)
      [mkRide (Some 4%Z) (Some "A"); mkRide (Some 5%Z) (Some "A");
       mkRide (Some 5%Z) (Some "A"); mkRide (Some 3%Z) (Some "A")]
      ["A"; "B"] 7 (Fin (3 # 2)) 50 true true
    = Finished preds (Some d) (save_date_summary preds).
Proof.
  destruct (main_2_reports_a_date_under_guarantee Qred (λ _, false)
              [mkRide (Some 4%Z) (Some "A"); mkRide (Some 5%Z) (Some "A");
               mkRide (Some 5%Z) (Some "A"); mkRide (Some 3%Z) (Some "A")]
              ["A"; "B"] 7 (Fin (3 # 2)) 50 true
              (mkRide (Some 4%Z) (Some "A")) 4%Z "A")
    as (preds & d & Hrun & _).
  - apply list_elem_of_here.
  - reflexivity.
  - reflexivity.
  - apply list_elem_of_here.
  - reflexivity.
  - exists preds, d. exact Hrun.
Defined.

(** ** The bar chart of the second script *)

Lemma bar_height preds d :
  default 0
    (snd <$> List.find (λ c : date * nat, (c.1 =? d)%Z)
               (sort_values fst (value_counts (pred_ceremony_date <$> preds))))
  = frequency d preds.
Proof.
  destruct (List.find _ _) as [[d' n]|] eqn:E; simpl.
  - apply find_some in E as [Hin Hd]. apply list_elem_of_In in Hin.
    rewrite sort_values_Permutation in Hin.
    apply value_counts_pred_dates in Hin as [_ Hn].
    apply Z.eqb_eq in Hd. simpl in *. by subst.
  - destruct (frequency d preds) as [|n] eqn:Hf; [done|]. exfalso.
    assert ((d, frequency d preds)
            ∈ sort_values fst (value_counts (pred_ceremony_date <$> preds))) as Hin.
    { rewrite sort_values_Permutation. apply value_counts_pred_dates.
      simpl. split; [lia|done]. }
    apply list_elem_of_In in Hin.
    pose proof (find_none _ _ E _ Hin) as Hd. simpl in Hd.
    by rewrite Z.eqb_refl in Hd.
Qed.

Lemma sum_group_sizes_over {K} `{EqDecision K} (vals dates : list K) :
  NoDup dates → (∀ k, k ∈ vals → k ∈ dates) →
  sum_list ((λ k, group_size k vals) <$> dates) = length vals.
Proof.
  intros Hnd. induction vals as [|x vals IH]; intros Hin.
  - unfold group_size. simpl. clear Hin Hnd.
    induction dates as [|k dates IH]; [done|]. csimpl. by rewrite IH.
  - rewrite (list_fmap_ext _
               (λ k, (if decide (x = k) then 1 else 0) + group_size k vals)).
    2:{ intros _ k _. unfold group_size. rewrite filter_cons.
        destruct (decide (x = k)); simpl; lia. }
    rewrite sum_indicator_NoDup by done.
    rewrite decide_True by (apply Hin; by left).
    rewrite IH; [done|]. intros k Hk. apply Hin. by right.
Qed.

(** The bars of the second script's chart, drawn over the days from
    [date_min] to [date_max]: one bar for each day of the range, in
    order, whose height is the number of stations predicted for that
    day, zero included; when the range holds every predicted date, as
    the range of [main] does, the heights add up to the number of
    predictions that have a date. *)
Theorem bar_chart_2_zero_filled
    (preds : list Prediction) (date_min date_max : date) :
  (∀ p d, p ∈ preds → pred_ceremony_date p = Some d →
          (date_min ≤ d ≤ date_max)%Z) →
  bar_heights_2 preds (date_range date_min date_max)
  = (λ d, (d, frequency d preds)) <$> seqZ date_min (date_max - date_min + 1)
  ∧ sum_list ((bar_heights_2 preds (date_range date_min date_max)).*2)
    = length (filter (λ p, is_Some (pred_ceremony_date p)) preds).
Proof.
  intros Hrange.
  assert (bar_heights_2 preds (date_range date_min date_max)
          = (λ d, (d, frequency d preds)) <$> seqZ date_min (date_max - date_min + 1))
    as Hbars.
  { unfold bar_heights_2, date_range. apply list_fmap_ext.
    intros _ d _. f_equal. apply bar_height. }
  split; [done|]. rewrite Hbars, <- list_fmap_compose.
  rewrite (list_fmap_ext _ (λ d, group_size d (omap pred_ceremony_date preds)))
    by (intros; symmetry; apply group_size_pred_dates).
  rewrite sum_group_sizes_over.
  - clear Hrange Hbars. induction preds as [|p preds IH]; [done|]. csimpl.
    rewrite filter_cons. destruct (pred_ceremony_date p) eqn:E; simpl.
    + by rewrite IH.
    + done.
  - apply NoDup_seqZ.
  - intros d (p & Hp & Hd)%list_elem_of_omap.
    apply elem_of_seqZ. specialize (Hrange p d Hp Hd). lia.
Qed.

Lemma bar_chart_2_zero_filled_witness :
  bar_heights_2
    [mkPrediction "a" (Some 1%Z); mkPrediction "b" (Some 4%Z);
     mkPrediction "c" None; mkPrediction "d" (Some 4%Z)]
    (date_range 1%Z 4%Z)
  = [(1%Z, 1); (2%Z, 0); (3%Z, 0); (4%Z, 2)].
Proof.
  destruct (bar_chart_2_zero_filled
              [mkPrediction "a" (Some 1%Z); mkPrediction "b" (Some 4%Z);
               mkPrediction "c" None; mkPrediction "d" (Some 4%Z)] 1%Z 4%Z)
    as [Hbars _].
  - intros p d Hp Hd.
    repeat (apply elem_of_cons in Hp as [->|Hp]; [simpl in Hd; simplify_eq; lia|]).
    by apply not_elem_of_nil in Hp.
  - rewrite Hbars. reflexivity.
Defined.

(** ** Column names of the station table *)

Lemma find_ext_in {A} (f g : A → bool) l :
  (∀ x, x ∈ l → f x = g x) → List.find f l = List.find g l.
Proof.
  induction l as [|x l IH]; intros Hfg; simpl; [done|].
  rewrite (Hfg x) by left. rewrite IH; [done|].
  intros y Hy. apply Hfg. by right.
Qed.

Lemma candidates_disjoint k1 k2 c :
  k1 ∈ REQUIRED_COLUMNS → k2 ∈ REQUIRED_COLUMNS →
  c ∈ candidates_of k1 → c ∈ candidates_of k2 → k1 = k2.
Proof.
  revert k1 k2 c.
  assert (Forall (λ k1, Forall (λ k2, Forall (λ c, c ∈ candidates_of k2 → k1 = k2)
                                         (candidates_of k1))
                          REQUIRED_COLUMNS)
            REQUIRED_COLUMNS) as H.
  { apply (bool_decide_unpack _). by vm_compute. }
  intros k1 k2 c H1 H2 Hc1 Hc2.
  rewrite Forall_forall in H. specialize (H k1 H1).
  rewrite Forall_forall in H. specialize (H k2 H2).
  rewrite Forall_forall in H. by apply (H c).
Qed.

Lemma canonical_candidate k : k ∈ REQUIRED_COLUMNS → k ∈ candidates_of k.
Proof.
  revert k. apply Forall_forall. apply (bool_decide_unpack _). by vm_compute.
Qed.

Lemma alias_to_rename_Some columns k cands c :
  alias_to_rename columns k cands = Some c →
  c ∈ cands ∧ c ∈ columns ∧ k ∉ columns.
Proof.
  intros [Hin Hc]%find_some. apply list_elem_of_In in Hin.
  apply andb_true_iff in Hc as [Hc Hk].
  apply bool_decide_eq_true in Hc.
  apply negb_true_iff, bool_decide_eq_false in Hk. done.
Qed.

Lemma accepted_name_spec columns k :
  k ∈ REQUIRED_COLUMNS →
  accepted_name columns k
  = if bool_decide (k ∈ columns) then Some k
    else alias_to_rename columns k (candidates_of k).
Proof.
  intros Hk. unfold accepted_name, alias_to_rename.
  destruct (bool_decide (k ∈ columns)) eqn:E.
  - repeat (apply elem_of_cons in Hk as [->|Hk]; [simpl; by rewrite E|]).
    by apply not_elem_of_nil in Hk.
  - apply find_ext_in. intros c _. simpl. by rewrite andb_true_r.
Qed.

Lemma new_names_unfold columns :
  new_names columns
  = let ins k (names : gmap string string) :=
      match alias_to_rename columns k (candidates_of k) with
      | Some c => <[c := k]> names
      | None => names
      end in
    ins "lon"%string (ins "lat"%string (ins "station"%string ∅)).
Proof. reflexivity. Qed.

Lemma new_names_lookup columns l k :
  new_names columns !! l = Some k
  ↔ k ∈ REQUIRED_COLUMNS ∧ alias_to_rename columns k (candidates_of k) = Some l.
Proof.
  assert (∀ k1 k2 c1 c2, k1 ∈ REQUIRED_COLUMNS → k2 ∈ REQUIRED_COLUMNS →
            alias_to_rename columns k1 (candidates_of k1) = Some c1 →
            alias_to_rename columns k2 (candidates_of k2) = Some c2 →
            k1 ≠ k2 → c1 ≠ c2) as Hdiff.
  { intros k1 k2 c1 c2 H1 H2 [Hc1 _]%alias_to_rename_Some
      [Hc2 _]%alias_to_rename_Some Hne ->.
    by apply Hne, (candidates_disjoint k1 k2 c2). }
  assert ("station"%string ∈ REQUIRED_COLUMNS) as Hst by (by vm_compute; left).
  assert ("lat"%string ∈ REQUIRED_COLUMNS) as Hlat
    by (by vm_compute; right; left).
  assert ("lon"%string ∈ REQUIRED_COLUMNS) as Hlon
    by (by vm_compute; right; right; left).
  rewrite new_names_unfold. cbv beta zeta.
  destruct (alias_to_rename columns "station" _) as [cs|] eqn:Es;
    destruct (alias_to_rename columns "lat" _) as [ca|] eqn:Ea;
    destruct (alias_to_rename columns "lon" _) as [co|] eqn:Eo;
    rewrite ?lookup_insert_Some, ?lookup_empty; split.
  all: try (intros [Hk Hl];
            repeat (apply elem_of_cons in Hk as [->|Hk]);
            [..|by apply not_elem_of_nil in Hk]; simplify_eq).
  all: try (intros H;
            repeat (destruct H as [[<- <-]|[_ H]]; [by split|]); done).
  all: repeat match goal with
         | |- ?c = ?c ∧ ?k = ?k ∨ _ => left; done
         | |- _ ∨ _ =>
             right; split;
             [eapply Hdiff; only 3-4: eassumption; [assumption|assumption|done]|]
         end.
Qed.

Lemma canonical_not_renamed columns k :
  k ∈ REQUIRED_COLUMNS → new_names columns !! k = None.
Proof.
  intros Hk. destruct (new_names columns !! k) as [k'|] eqn:E; [|done].
  apply new_names_lookup in E as [Hk' (Hc & Hin & Hnot)%alias_to_rename_Some].
  assert (k = k') as <-; [|done].
  apply (candidates_disjoint k k' k); [done..| |done].
  by apply canonical_candidate.
Qed.

(** The label of a column after the renaming is [canonical] exactly when
    the column is the one that the table gives for [canonical]. *)
Lemma renamed_label columns l k :
  k ∈ REQUIRED_COLUMNS → l ∈ columns →
  default l (new_names columns !! l) = k ↔ accepted_name columns k = Some l.
Proof.
  intros Hk Hl. rewrite accepted_name_spec by done.
  destruct (new_names columns !! l) as [k'|] eqn:E; simpl.
  - pose proof E as E'. apply new_names_lookup in E' as [Hk' Ha]. split.
    + intros ->. destruct (alias_to_rename_Some _ _ _ _ Ha) as (_ & _ & Hnot).
      by rewrite bool_decide_eq_false_2.
    + case_bool_decide as Hin.
      * intros [= ->]. by rewrite canonical_not_renamed in E.
      * intros Ha'.
        assert (new_names columns !! l = Some k) by (by apply new_names_lookup).
        congruence.
  - split.
    + intros ->. by rewrite bool_decide_eq_true_2.
    + case_bool_decide as Hin; [by intros [= ->]|].
      intros Ha.
      assert (new_names columns !! l = Some k) by (by apply new_names_lookup).
      congruence.
Qed.

Lemma accepted_name_Some columns k l :
  accepted_name columns k = Some l → l ∈ candidates_of k ∧ l ∈ columns.
Proof.
  intros [Hin Hl]%find_some. apply list_elem_of_In in Hin.
  by apply bool_decide_eq_true in Hl.
Qed.

Lemma List_filter_nil {A} (f : A → bool) l :
  (∀ x, x ∈ l → f x = false) → List.filter f l = [].
Proof.
  induction l as [|x l IH]; intros Hf; simpl; [done|].
  rewrite (Hf x) by left. apply IH. intros y Hy. apply Hf. by right.
Qed.

Lemma NoDup_fst_functional {A B} (l : list (A * B)) x y1 y2 :
  NoDup l.*1 → (x, y1) ∈ l → (x, y2) ∈ l → y1 = y2.
Proof.
  induction l as [|[x0 y0] l IH]; csimpl; intros Hnd H1 H2.
  - by apply not_elem_of_nil in H1.
  - apply NoDup_cons in Hnd as [Hx0 Hnd].
    apply elem_of_cons in H1 as [H1|H1]; apply elem_of_cons in H2 as [H2|H2].
    + congruence.
    + exfalso. apply Hx0, list_elem_of_fmap. exists (x, y2).
      split; [simpl; congruence|done].
    + exfalso. apply Hx0, list_elem_of_fmap. exists (x, y1).
      split; [simpl; congruence|done].
    + by apply IH.
Qed.

Section Normalise.

Context {C : Type}.
Implicit Types df out : list (string * C).

Lemma renamed_columns df k :
  k ∈ REQUIRED_COLUMNS →
  k ∈ (rename_columns (new_names df.*1) df).*1
  ↔ is_Some (accepted_name df.*1 k).
Proof.
  intros Hk. unfold rename_columns. rewrite <- list_fmap_compose.
  rewrite list_elem_of_fmap. split.
  - intros ([l data] & Hl & Hin). simpl in Hl. symmetry in Hl.
    apply renamed_label in Hl; [by eexists|done|].
    apply list_elem_of_fmap. by exists (l, data).
  - intros [l Hl]. destruct (accepted_name_Some _ _ _ Hl) as [_ Hin].
    pose proof Hin as Hin'.
    apply list_elem_of_fmap in Hin' as ([l' data] & -> & Hin').
    exists (l', data). split; [|done]. simpl. symmetry.
    by apply renamed_label.
Qed.

Lemma missing_columns df :
  List.filter
    (λ c, negb (bool_decide (c ∈ (rename_columns (new_names df.*1) df).*1)))
    REQUIRED_COLUMNS
  = List.filter (λ k, bool_decide (accepted_name df.*1 k = None)) REQUIRED_COLUMNS.
Proof.
  apply filter_ext_in. intros k Hk%list_elem_of_In.
  pose proof (renamed_columns df k Hk) as H.
  destruct (accepted_name df.*1 k) as [l|] eqn:E.
  - rewrite bool_decide_eq_true_2 by (apply H; by eexists).
    by rewrite bool_decide_eq_false_2.
  - rewrite bool_decide_eq_false_2; [done|].
    intros Hin%H. by destruct Hin.
Qed.

Lemma select_renamed (rn : string → string) df k l data :
  NoDup df.*1 → (∀ l', l' ∈ df.*1 → rn l' = k ↔ l' = l) → (l, data) ∈ df →
  List.filter (λ col : string * C, bool_decide (col.1 = k))
    ((λ col : string * C, (rn col.1, col.2)) <$> df)
  = [(k, data)].
Proof.
  induction df as [|[l0 d0] df IH]; csimpl; intros Hnd Hrn Hin.
  - by apply not_elem_of_nil in Hin.
  - apply NoDup_cons in Hnd as [Hl0 Hnd].
    destruct (decide (l0 = l)) as [->|Hne].
    + assert (rn l = k) as Hk by (apply Hrn; [left|done]).
      rewrite bool_decide_eq_true_2 by done. rewrite Hk.
      apply elem_of_cons in Hin as [[= ->]|Hin].
      2:{ exfalso. apply Hl0, list_elem_of_fmap. by exists (l, data). }
      f_equal. apply List_filter_nil.
      intros [l' d'] ([l'' d''] & [= -> ->] & Hin)%list_elem_of_fmap. simpl.
      apply bool_decide_eq_false. intros Hl'.
      apply Hrn in Hl' as ->.
      * apply Hl0, list_elem_of_fmap. by exists (l, d'').
      * right. apply list_elem_of_fmap. by exists (l'', d'').
    + rewrite bool_decide_eq_false_2.
      2:{ intros Hk. apply Hne, Hrn; [left|done]. }
      apply IH; [done| |].
      * intros l' Hl'. apply Hrn. by right.
      * apply elem_of_cons in Hin as [[= <-]|Hin]; [done|done].
Qed.

(** The shape of a successful result. *)
Lemma normalise_success df out :
  NoDup df.*1 → normalise_station_df df = inr out →
  ∃ l1 d1 l2 d2 l3 d3,
    out = [("station"%string, d1); ("lat"%string, d2); ("lon"%string, d3)]
    ∧ accepted_name df.*1 "station" = Some l1 ∧ (l1, d1) ∈ df
    ∧ accepted_name df.*1 "lat" = Some l2 ∧ (l2, d2) ∈ df
    ∧ accepted_name df.*1 "lon" = Some l3 ∧ (l3, d3) ∈ df.
Proof.
  intros Hnd. unfold normalise_station_df. cbv zeta. rewrite missing_columns.
  destruct (List.filter _ REQUIRED_COLUMNS) as [|k0 ks] eqn:Hmiss; [|done].
  intros [= <-].
  assert (∀ k, k ∈ REQUIRED_COLUMNS →
            ∃ l d, accepted_name df.*1 k = Some l ∧ (l, d) ∈ df
                   ∧ List.filter (λ col : string * C, bool_decide (col.1 = k))
                       (rename_columns (new_names df.*1) df)
                     = [(k, d)]) as Hcol.
  { intros k Hk. destruct (accepted_name df.*1 k) as [l|] eqn:E.
    - destruct (accepted_name_Some _ _ _ E) as [_ Hin].
      pose proof Hin as Hin'.
      apply list_elem_of_fmap in Hin' as ([l' d] & Hl & Hin'). simpl in Hl.
      subst l'. exists l, d. split; [done|]. split; [done|].
      apply (select_renamed (λ l', default l' (new_names df.*1 !! l')) df k l d);
        [done| |done].
      intros l' Hl'. rewrite renamed_label by done. rewrite E.
      split; congruence.
    - exfalso.
      assert (k ∈ List.filter (λ k, bool_decide (accepted_name df.*1 k = None))
                    REQUIRED_COLUMNS) as Hin.
      { apply elem_of_List_filter. split; [done|].
        by apply bool_decide_eq_true. }
      rewrite Hmiss in Hin. by apply not_elem_of_nil in Hin. }
  destruct (Hcol "station"%string) as (l1 & d1 & E1 & H1 & F1);
    [by vm_compute; left|].
  destruct (Hcol "lat"%string) as (l2 & d2 & E2 & H2 & F2);
    [by vm_compute; right; left|].
  destruct (Hcol "lon"%string) as (l3 & d3 & E3 & H3 & F3);
    [by vm_compute; right; right; left|].
  exists l1, d1, l2, d2, l3, d3. split; [|done].
  unfold select_columns, REQUIRED_COLUMNS. csimpl. by rewrite F1, F2, F3.
Qed.

End Normalise.

Lemma accepted_name_None columns k :
  bool_decide (accepted_name columns k = None)
  = forallb (λ c, negb (bool_decide (c ∈ columns))) (candidates_of k).
Proof.
  unfold accepted_name. induction (candidates_of k) as [|c cs IH]; simpl.
  - done.
  - by destruct (bool_decide (c ∈ columns)).
Qed.

(** [normalise_station_df] stops with [SystemExit] exactly when, for some
    required column, none of the names that [COL_MAP] accepts for it is a
    column of the table; the columns it reports are exactly those required
    columns, in the order station, lat, lon. *)
Theorem station_columns_missing
    {C : Type} (df : list (string * C)) (missing : list string) :
  normalise_station_df df = inl missing
  ↔ missing ≠ []
    ∧ missing
      = List.filter
          (λ k, forallb (λ c, negb (bool_decide (c ∈ df.*1))) (candidates_of k))
          REQUIRED_COLUMNS.
Proof.
  unfold normalise_station_df. cbv zeta. rewrite missing_columns.
  rewrite (filter_ext _ _ (accepted_name_None df.*1)).
  destruct (List.filter _ REQUIRED_COLUMNS) as [|k ks]; split.
  - done.
  - by intros [? ->].
  - by intros [= <-].
  - by intros [_ ->].
Qed.

(** On a table whose column labels are distinct, as the labels of a table
    read from a CSV file are, a successful [normalise_station_df] returns
    exactly the three columns station, lat, lon, in this order, and the
    data of each is the data of the column that the table has under the
    first accepted name: the canonical name itself when the table has it,
    else the first alias of [COL_MAP] that the table has. *)
Theorem station_columns_normalised
    {C : Type} (df out : list (string * C)) :
  NoDup df.*1 → normalise_station_df df = inr out →
  out.*1 = REQUIRED_COLUMNS
  ∧ ∀ k data,
      (k, data) ∈ out
      ↔ k ∈ REQUIRED_COLUMNS
        ∧ ∃ l, accepted_name df.*1 k = Some l ∧ (l, data) ∈ df.
Proof.
  intros Hnd Hout.
  destruct (normalise_success df out Hnd Hout)
    as (l1 & d1 & l2 & d2 & l3 & d3 & -> & E1 & H1 & E2 & H2 & E3 & H3).
  assert ("station"%string ∈ REQUIRED_COLUMNS) as Hst by (by vm_compute; left).
  assert ("lat"%string ∈ REQUIRED_COLUMNS) as Hlat
    by (by vm_compute; right; left).
  assert ("lon"%string ∈ REQUIRED_COLUMNS) as Hlon
    by (by vm_compute; right; right; left).
  split; [done|]. intros k data. split.
  - intros Hin.
    apply elem_of_cons in Hin as [[= -> ->]|Hin]; [split; [done|by exists l1]|].
    apply elem_of_cons in Hin as [[= -> ->]|Hin]; [split; [done|by exists l2]|].
    apply elem_of_cons in Hin as [[= -> ->]|Hin]; [split; [done|by exists l3]|].
    by apply not_elem_of_nil in Hin.
  - intros [Hk (l & El & Hl)].
    apply elem_of_cons in Hk as [->|Hk].
    { simplify_eq. rewrite (NoDup_fst_functional df l1 data d1 Hnd Hl H1).
      by left. }
    apply elem_of_cons in Hk as [->|Hk].
    { simplify_eq. rewrite (NoDup_fst_functional df l2 data d2 Hnd Hl H2).
      by right; left. }
    apply elem_of_cons in Hk as [->|Hk].
    { simplify_eq. rewrite (NoDup_fst_functional df l3 data d3 Hnd Hl H3).
      by right; right; left. }
    by apply not_elem_of_nil in Hk.
Qed.

Lemma station_columns_normalised_witness :
  ([("station", 1); ("lat", 5); ("lon", 4)] : list (string * nat)).*1
  = REQUIRED_COLUMNS.
Proof.
  apply (station_columns_normalised
           [("駅名"%string, 1); ("x"%string, 2); ("Lat"%string, 3);
            ("lng"%string, 4); ("緯度"%string, 5)]
           [("station"%string, 1); ("lat"%string, 5); ("lon"%string, 4)]).
  - apply (bool_decide_unpack _). by vm_compute.
  - by vm_compute.
Defined.

(** On a table whose column labels are distinct, the result of a
    successful [normalise_station_df] is left as it is by a second
    [normalise_station_df]. *)
Theorem station_columns_idempotent
    {C : Type} (df out : list (string * C)) :
  NoDup df.*1 → normalise_station_df df = inr out →
  normalise_station_df out = inr out.
Proof.
  intros Hnd Hout.
  destruct (normalise_success df out Hnd Hout)
    as (l1 & d1 & l2 & d2 & l3 & d3 & -> & _).
  by vm_compute.
Qed.

Lemma station_columns_idempotent_witness :
  normalise_station_df
    ([("station", 1); ("lat", 5); ("lon", 4)] : list (string * nat))
  = inr [("station"%string, 1); ("lat"%string, 5); ("lon"%string, 4)].
Proof.
  apply (station_columns_idempotent
           [("駅名"%string, 1); ("x"%string, 2); ("Lat"%string, 3);
            ("lng"%string, 4); ("緯度"%string, 5)]).
  - apply (bool_decide_unpack _). by vm_compute.
  - by vm_compute.
Defined.
